(** * phosphor-fan-presence: fan control zones, the control manager and the
      fan monitor

    A shallow embedding of
      - [src/control/json/zone.cpp]     (module [Zone]),
      - [src/control/json/manager.cpp]  (module [Manager]),
      - [src/monitor/fan.cpp]           (module [Monitor]),
      - [src/presence/json_config.cpp]  (module [Presence]),
    followed by the properties of the specification that concern them.

    Conventions.  A [uint64_t] is a [Z] with its wrap-around written out
    ([u64]).  A [std::map] that is only looked up and updated by key is a
    stdpp [gmap]; where the iteration order of a [std::map] is observable it
    is walked in key order ([in_key_order]), or kept as an association list
    in iteration order.  A C++ function that may throw returns a [result]. *)

From Stdlib Require Import ZArith Lia Bool.
From stdpp Require Import base option list sorting strings gmap fin_maps.

Open Scope string_scope.
Open Scope list_scope.
Open Scope Z_scope.

(* ===================================================================== *)
(** ** Exceptions and results *)
(* ===================================================================== *)

(** The exceptions the code distinguishes: [std::runtime_error] is the one
    thrown by the configuration code and the only one [sighupHandler] and
    [load] catch; every other exception type (a JSON type error of
    [get<uint64_t>()], a bus error) is [other_exception]. *)
Inductive exn : Type :=
  | runtime_error (what : string)
  | other_exception (what : string).

Inductive result (A : Type) : Type :=
  | Ok (a : A)
  | Throw (e : exn).
Arguments Ok {A} a.
Arguments Throw {A} e.

Definition is_Ok {A} (r : result A) : bool :=
  match r with Ok _ => true | Throw _ => false end.

Definition is_runtime_error (e : exn) : bool :=
  match e with runtime_error _ => true | other_exception _ => false end.

(* ===================================================================== *)
(** ** Machine integers and ordered containers *)
(* ===================================================================== *)

Definition u64_modulus : Z := 2 ^ 64.

(** Reduction of an integer to [uint64_t]. *)
Definition u64 (z : Z) : Z := z mod u64_modulus.

(** [std::map<std::string, _>] iterates in the order of its keys; the
    entries of a [gmap] in that order. *)
Definition key_le {A} (x y : string * A) : Prop := String.leb x.1 y.1 = true.

#[local] Instance key_le_dec {A} (x y : string * A) : Decision (key_le x y).
Proof. unfold key_le. apply _. Defined.

Definition in_key_order {A} (m : gmap string A) : list (string * A) :=
  merge_sort key_le (map_to_list m).

(** [std::find(v.begin(), v.end(), x) != v.end()] on a vector of strings. *)
Definition contains (v : list string) (x : string) : bool :=
  existsb (String.eqb x) v.

(* ===================================================================== *)
(** ** control/json/zone.cpp *)
(* ===================================================================== *)

Module Zone.

(** The JSON object of a zone, reduced to the attributes the constructor
    reads.  An absent attribute is [None]; an attribute that is present
    has the JSON type the constructor converts it to.  (A configuration
    in which one has another type, at which [get<T>()] throws the JSON
    library's [type_error], is not a value of this type.) *)
Record PropertyJson : Type := mkPropertyJson {
  pj_name : option string;
  pj_persist : option bool;
  pj_value : option string;          (* "value" of the Current property *)
  pj_values : option (list (option string))  (* "values", each with or
                                                without a "value" *)
}.

Record InterfaceJson : Type := mkInterfaceJson {
  ij_name : option string;
  ij_properties : option (list PropertyJson)
}.

Record ZoneJson : Type := mkZoneJson {
  j_name : string;
  j_profiles : option (list string);
  j_increase_delay : option Z;
  j_full_speed : option Z;
  j_default_floor : option Z;
  j_decrease_interval : option Z;
  j_interfaces : option (list InterfaceJson)
}.

(** What [zone::property::supported] and [zone::property::current] return:
    a handler that sets the property to the configured value(s). *)
Inductive ZoneHandler : Type :=
  | setSupported (values : list string) (persist : bool)
  | setCurrent (value : string) (persist : bool).

(** Modelled from the spec: the control-side fan, whose class ([fan.hpp],
    [fan.cpp] of control/json) is missing: its name, the zone it names and
    its last-written target. *)
Record Fan : Type := mkFan {
  fan_name : string;
  fan_zone : string;
  fan_target : Z
}.

Record t : Type := mkZone {
  _name : string;
  _profiles : list string;
  _fullSpeed : Z;
  _defaultFloor : Z;
  _floor : Z;
  _target : Z;
  _poweronTarget : Z;
  _incDelay : Z;
  _decInterval : Z;
  _floorChange : gmap string bool;
  _propsPersisted : gmap string (list string);
  _zoneHandlers : list ZoneHandler;
  _fans : list Fan
}.

Definition set_fullSpeed (v : Z) (z : t) : t :=
  mkZone (_name z) (_profiles z) v (_defaultFloor z) (_floor z) (_target z)
    (_poweronTarget z) (_incDelay z) (_decInterval z) (_floorChange z)
    (_propsPersisted z) (_zoneHandlers z) (_fans z).
Definition set_defaultFloor (v : Z) (z : t) : t :=
  mkZone (_name z) (_profiles z) (_fullSpeed z) v (_floor z) (_target z)
    (_poweronTarget z) (_incDelay z) (_decInterval z) (_floorChange z)
    (_propsPersisted z) (_zoneHandlers z) (_fans z).
Definition set_floor (v : Z) (z : t) : t :=
  mkZone (_name z) (_profiles z) (_fullSpeed z) (_defaultFloor z) v (_target z)
    (_poweronTarget z) (_incDelay z) (_decInterval z) (_floorChange z)
    (_propsPersisted z) (_zoneHandlers z) (_fans z).
Definition set_target (v : Z) (z : t) : t :=
  mkZone (_name z) (_profiles z) (_fullSpeed z) (_defaultFloor z) (_floor z) v
    (_poweronTarget z) (_incDelay z) (_decInterval z) (_floorChange z)
    (_propsPersisted z) (_zoneHandlers z) (_fans z).
Definition set_decInterval (v : Z) (z : t) : t :=
  mkZone (_name z) (_profiles z) (_fullSpeed z) (_defaultFloor z) (_floor z)
    (_target z) (_poweronTarget z) (_incDelay z) v (_floorChange z)
    (_propsPersisted z) (_zoneHandlers z) (_fans z).
Definition set_propsPersisted (v : gmap string (list string)) (z : t) : t :=
  mkZone (_name z) (_profiles z) (_fullSpeed z) (_defaultFloor z) (_floor z)
    (_target z) (_poweronTarget z) (_incDelay z) (_decInterval z)
    (_floorChange z) v (_zoneHandlers z) (_fans z).
Definition set_zoneHandlers (v : list ZoneHandler) (z : t) : t :=
  mkZone (_name z) (_profiles z) (_fullSpeed z) (_defaultFloor z) (_floor z)
    (_target z) (_poweronTarget z) (_incDelay z) (_decInterval z)
    (_floorChange z) (_propsPersisted z) v (_fans z).
Definition set_fans (v : list Fan) (z : t) : t :=
  mkZone (_name z) (_profiles z) (_fullSpeed z) (_defaultFloor z) (_floor z)
    (_target z) (_poweronTarget z) (_incDelay z) (_decInterval z)
    (_floorChange z) (_propsPersisted z) (_zoneHandlers z) v.

Definition thermModeIntf : string := "xyz.openbmc_project.Control.ThermalMode".
Definition supportedProp : string := "Supported".
Definition currentProp : string := "Current".

(** [Zone::addFan] *)
Definition addFan (fan : Fan) (z : t) : t := set_fans (_fans z ++ [fan]) z.

(** [Zone::requestIncrease]: the body holds a TODO comment and no
    statement. *)
Definition requestIncrease (targetDelta : Z) (z : t) : t := z.

(** [Zone::setFloor] *)
Definition setFloor (target : Z) (z : t) : t :=
  if forallb (fun entry : string * bool => entry.2) (map_to_list (_floorChange z))
  then
    let z1 := set_floor target z in
    if _target z1 <? _floor z1
    then requestIncrease (u64 (_floor z1 - _target z1)) z1
    else z1
  else z.

(** [_propsPersisted[intf]]: [operator[]] default-constructs a missing
    entry. *)
Definition propsPersisted_at (intf : string) (m : gmap string (list string))
  : gmap string (list string) * list string :=
  match m !! intf with
  | Some l => (m, l)
  | None => (<[intf := []]> m, [])
  end.

(** [Zone::setPersisted] *)
Definition setPersisted (intf prop : string) (z : t) : t :=
  let '(m, l) := propsPersisted_at intf (_propsPersisted z) in
  if contains l prop
  then set_propsPersisted (<[intf := l ++ [prop]]> m) z
  else set_propsPersisted m z.

(** [Zone::isPersisted] *)
Definition isPersisted (intf prop : string) (z : t) : bool :=
  match _propsPersisted z !! intf with
  | None => false
  | Some l => contains l prop
  end.

(** [Zone::setFullSpeed] *)
Definition setFullSpeed (jsonObj : ZoneJson) (z : t) : result t :=
  match j_full_speed jsonObj with
  | None => Throw (runtime_error "Missing required zone's full speed")
  | Some v => Ok (set_target (u64 v) (set_fullSpeed (u64 v) z))
  end.

(** [Zone::setDefaultFloor] *)
Definition setDefaultFloor (jsonObj : ZoneJson) (z : t) : result t :=
  match j_default_floor jsonObj with
  | None => Throw (runtime_error "Missing required zone's default floor speed")
  | Some v => Ok (set_floor (u64 v) (set_defaultFloor (u64 v) z))
  end.

(** [Zone::setDecInterval] *)
Definition setDecInterval (jsonObj : ZoneJson) (z : t) : result t :=
  match j_decrease_interval jsonObj with
  | None => Throw (runtime_error "Missing required zone's decrease interval")
  | Some v => Ok (set_decInterval (u64 v) z)
  end.

(** [zone::property::supported] *)
Definition supported (jsonObj : PropertyJson) (persist : bool) : option ZoneHandler :=
  let values :=
    match pj_values jsonObj with
    | None => []
    | Some vs => omap (fun v : option string => v) vs
    end in
  Some (setSupported values persist).

(** [zone::property::current]: without a "value" the handler is null. *)
Definition current (jsonObj : PropertyJson) (persist : bool) : option ZoneHandler :=
  match pj_value jsonObj with
  | None => None
  | Some v => Some (setCurrent v persist)
  end.

(** [Zone::_intfPropHandlers] *)
Definition _intfPropHandlers
  : list (string * list (string * (PropertyJson -> bool -> option ZoneHandler))) :=
  [ (thermModeIntf, [ (currentProp, current); (supportedProp, supported) ]) ].

Fixpoint find_key {A} (k : string) (l : list (string * A)) : option A :=
  match l with
  | [] => None
  | (k', a) :: l' => if String.eqb k k' then Some a else find_key k l'
  end.

(** The loop over the properties of one interface in [Zone::setInterfaces]. *)
Fixpoint setProperties
    (propFuncs : list (string * (PropertyJson -> bool -> option ZoneHandler)))
    (properties : list PropertyJson) (z : t) : result t :=
  match properties with
  | [] => Ok z
  | property :: rest =>
      match pj_name property with
      | None => Throw (runtime_error "Missing required interface property attributes")
      | Some name =>
          let persist := default false (pj_persist property) in
          match find_key name propFuncs with
          | None => Throw (runtime_error "Configured property function not available")
          | Some propFunc =>
              match propFunc property persist with
              | Some zHandler =>
                  setProperties propFuncs rest
                    (set_zoneHandlers (_zoneHandlers z ++ [zHandler]) z)
              | None => setProperties propFuncs rest z
              end
          end
      end
  end.

(** [Zone::setInterfaces] *)
Fixpoint setInterfaces (interfaces : list InterfaceJson) (z : t) : result t :=
  match interfaces with
  | [] => Ok z
  | interface :: rest =>
      match ij_name interface, ij_properties interface with
      | Some name, Some properties =>
          match find_key name _intfPropHandlers with
          | None => Throw (runtime_error "Configured interface not available")
          | Some propFuncs =>
              match setProperties propFuncs properties z with
              | Ok z' => setInterfaces rest z'
              | Throw e => Throw e
              end
          end
      | _, _ => Throw (runtime_error "Missing required zone interface attributes")
      end
  end.

Definition bind {A B} (r : result A) (k : A -> result B) : result B :=
  match r with
  | Ok a => k a
  | Throw e => Throw e
  end.

(** The constructor [Zone::Zone].  [_poweronTarget] is not assigned by it;
    [0] stands for the member's value before any assignment. *)
Definition create (jsonObj : ZoneJson) : result t :=
  let z0 :=
    mkZone (j_name jsonObj) (default [] (j_profiles jsonObj))
      0 0 0 0 0
      (match j_increase_delay jsonObj with Some d => u64 d | None => 0 end)
      0 ∅ ∅ [] [] in
  bind (setFullSpeed jsonObj z0) (fun z1 =>
  bind (setDefaultFloor jsonObj z1) (fun z2 =>
  bind (setDecInterval jsonObj z2) (fun z3 =>
  match j_interfaces jsonObj with
  | Some interfaces => setInterfaces interfaces z3
  | None => Ok z3
  end))).

(** Modelled from the spec: the accessors [Zone::getTarget] and
    [Zone::getPoweronTarget], which zone.cpp does not define; the spec's
    [get_target()] and [get_poweron_target()]. *)
Definition getTarget (z : t) : Z := _target z.
Definition getPoweronTarget (z : t) : Z := _poweronTarget z.

(** Modelled from the spec: [Zone::setTarget], which zone.cpp does not
    define; the spec's [set_target(u64)]: the zone's target becomes the
    given one and is written to the fans of the zone. *)
Definition setTarget (target : Z) (z : t) : t :=
  set_fans (map (fun f => mkFan (fan_name f) (fan_zone f) target) (_fans z))
    (set_target target z).

(** Modelled from the spec: the decrease side of a zone.  zone.cpp defines
    neither the request for a decrease nor the decrease timer and holds
    no deadline; the spec's zone does.  A zone together with the smallest
    decrease requested since the last pass of the decrease timer, if any,
    and the spec's [increase_deadline], before which no decrease applies. *)
Record state : Type := mkState {
  zone : t;
  decrease_request : option Z;
  increase_deadline : Z
}.

(** Modelled from the spec: [request_decrease(delta)], missing from
    zone.cpp: it "records the smallest requested decrease across all
    callers in the current interval". *)
Definition requestDecrease (targetDelta : Z) (s : state) : state :=
  mkState (zone s)
    (Some (match decrease_request s with
           | Some d => Z.min d targetDelta
           | None => targetDelta
           end))
    (increase_deadline s).

(** Modelled from the spec: one pass of the decrease timer at the time
    [now], missing from zone.cpp.  "Let [d] be the minimum requested
    decrease accumulated since the last pass (0 if none); if [d > 0] AND
    [now >= increase_deadline] AND [target - d >= floor], then
    [target <- target - d]; otherwise if [target - d < floor],
    [target <- floor].  Reset the accumulator."  The arithmetic is that of
    the integers, as the spec writes it. *)
Definition decreaseTimer (now : Z) (s : state) : state :=
  let z := zone s in
  let d := default 0 (decrease_request s) in
  let z' :=
    if (0 <? d) && (increase_deadline s <=? now) && (_floor z <=? _target z - d)
    then set_target (_target z - d) z
    else if _target z - d <? _floor z then set_target (_floor z) z
    else z in
  mkState z' None (increase_deadline s).

(** The public mutations of a zone that move the floor or the target:
    [setFloor] and [requestIncrease] of zone.cpp, which know of no
    deadline and of no requested decrease, and the two of the spec. *)
Inductive op : Type :=
  | op_setFloor (target : Z)
  | op_requestIncrease (targetDelta : Z)
  | op_requestDecrease (targetDelta : Z)
  | op_decreaseTimer (now : Z).

Definition step (s : state) (o : op) : state :=
  match o with
  | op_setFloor target =>
      mkState (setFloor target (zone s)) (decrease_request s) (increase_deadline s)
  | op_requestIncrease targetDelta =>
      mkState (requestIncrease targetDelta (zone s)) (decrease_request s)
        (increase_deadline s)
  | op_requestDecrease targetDelta => requestDecrease targetDelta s
  | op_decreaseTimer now => decreaseTimer now s
  end.

(** The states after each step of a sequence of mutations. *)
Fixpoint states (s : state) (ops : list op) : list state :=
  match ops with
  | [] => []
  | o :: ops' => step s o :: states (step s o) ops'
  end.

(** The floor a [setFloor] is given is at most [bound]. *)
Definition floor_arg_le (bound : Z) (o : op) : Prop :=
  match o with
  | op_setFloor target => target <= bound
  | _ => True
  end.

(** No [setFloor] of the sequence is given a floor above the target the
    zone has when it is called. *)
Fixpoint floors_le_target (s : state) (ops : list op) : Prop :=
  match ops with
  | [] => True
  | o :: ops' =>
      floor_arg_le (_target (zone s)) o /\ floors_le_target (step s o) ops'
  end.

(** The bounds of the specification: [floor <= target <= full_speed]. *)
Definition target_bounds (z : t) : Prop :=
  _floor z <= _target z /\ _target z <= _fullSpeed z.

(** The [ThermalObject] base of a zone: the [Current] and [Supported]
    properties of the thermal mode interface it serves. *)
Record ThermalObject : Type := mkThermalObject {
  thermal_current : string;
  thermal_supported : list string
}.

(** [toupper] on one character: a lower-case letter becomes the upper-case
    one, any other character is kept. *)
Definition toupper (c : Ascii.ascii) : Ascii.ascii :=
  let n := Ascii.nat_of_ascii c in
  if ((97 <=? n) && (n <=? 122))%nat then Ascii.ascii_of_nat (n - 32) else c.

(** [std::transform(s.begin(), s.end(), s.begin(), toupper)] *)
Fixpoint upper (s : string) : string :=
  match s with
  | EmptyString => EmptyString
  | String c s' => String (toupper c) (upper s')
  end.

(** [Zone::current(std::string)]: the thermal object after the call, the
    value returned, and the mode [saveCurrentMode] has written to the
    zone's [CurrentMode] file, if it was called. *)
Definition current_mode (value : string) (z : t) (thermal : ThermalObject)
  : ThermalObject * string * option string :=
  let current := thermal_current thermal in
  let value := upper value in
  let isSupported :=
    existsb (fun s => String.eqb value (upper s)) (thermal_supported thermal) in
  if negb (String.eqb value current) && isSupported then
    let thermal' := mkThermalObject value (thermal_supported thermal) in
    (thermal', value,
     if isPersisted thermModeIntf currentProp z then Some value else None)
  else (thermal, current, None).

End Zone.

(* ===================================================================== *)
(** ** control/json/manager.cpp *)
(* ===================================================================== *)

Module Manager.

(** [configKey]: the name of a configuration entry and its profiles. *)
Definition configKey : Type := string * list string.

(** [operator<] of [std::vector<std::string>] and of [configKey]. *)
Fixpoint profiles_compare (l1 l2 : list string) : comparison :=
  match l1, l2 with
  | [], [] => Eq
  | [], _ :: _ => Lt
  | _ :: _, [] => Gt
  | x :: l1', y :: l2' =>
      match String.compare x y with
      | Eq => profiles_compare l1' l2'
      | c => c
      end
  end.

Definition configKey_compare (k1 k2 : configKey) : comparison :=
  match String.compare k1.1 k2.1 with
  | Eq => profiles_compare k1.2 k2.2
  | c => c
  end.

(** [std::map<configKey, _>::emplace] on the entries in key order: an
    entry whose key is present already is not replaced. *)
Fixpoint emplace {A} (k : configKey) (a : A) (m : list (configKey * A))
  : list (configKey * A) :=
  match m with
  | [] => [(k, a)]
  | (k', a') :: m' =>
      match configKey_compare k k' with
      | Eq => m
      | Lt => (k, a) :: m
      | Gt => (k', a') :: emplace k a m'
      end
  end.

(* --------------------------------------------------------------------- *)
(** *** Profile compatibility *)

(** [Manager::inConfig], with the static [_activeProfiles] passed in. *)
Definition inConfig (activeProfs : list string) (input comp : configKey) : bool :=
  if negb (String.eqb input.1 comp.1) then false
  else
    match input.2 with
    | [] => true
    | _ :: _ =>
        existsb (fun lProfile =>
          existsb (fun rProfile =>
            if negb (String.eqb lProfile rProfile) then false
            else contains activeProfs lProfile)
          comp.2)
        input.2
    end.

(* --------------------------------------------------------------------- *)
(** *** The cache of services and objects *)

Section Cache.

(** [PropertyVariantType], the variant type of the property values; its
    declaration is in a header outside manager.cpp and it is a parameter
    here. *)
Variable PropertyVariantType : Type.

(** [_servTree]: path -> service -> (owned, interfaces), and [_objects]:
    path -> interface -> property -> value. *)
Abbreviation ServTree := (gmap string (gmap string (bool * list string))).
Abbreviation Objects := (gmap string (gmap string (gmap string PropertyVariantType))).

(** The bus calls of [util::SDBusPlus] the cache is filled from. *)
Record Bus : Type := mkBus {
  getSubTreeRaw : string -> string -> Z -> gmap string (gmap string (list string));
  getPropertyVariant : string -> string -> string -> string -> result PropertyVariantType;
  getManagedObjects : string -> string -> Objects
}.

Record Cache : Type := mkCache {
  _servTree : ServTree;
  _objects : Objects
}.

(** The first service, in key order, whose interfaces hold [intf]. *)
Fixpoint find_service_with (intf : string)
    (services : list (string * (bool * list string)))
  : option (string * (bool * list string)) :=
  match services with
  | [] => None
  | service :: rest =>
      if contains service.2.2 intf then Some service
      else find_service_with intf rest
  end.

(** [Manager::hasOwner] *)
Definition hasOwner (path intf : string) (tree : ServTree) : bool :=
  match tree !! path with
  | None => false
  | Some services =>
      match find_service_with intf (in_key_order services) with
      | Some service => service.2.1
      | None => false
      end
  end.

(** The update of one [(service, (owned, interfaces))] entry of another
    path in [Manager::setOwner]. *)
Definition setOwner_entry (serv intf : string) (isOwned : bool)
    (itServ : string) (entry : bool * list string) : bool * list string :=
  if negb (String.eqb itServ serv) then entry
  else if contains entry.2 intf then (isOwned, entry.2)
  else entry.

(** [Manager::setOwner] *)
Definition setOwner (path serv intf : string) (isOwned : bool) (tree : ServTree)
  : ServTree :=
  (* auto& ownIntf = _servTree[path][serv]; *)
  let services := default ∅ (tree !! path) in
  let ownIntf := default (false, []) (services !! serv) in
  let ownIntf1 := (isOwned, ownIntf.2) in
  let ownIntf2 :=
    if contains ownIntf1.2 intf then ownIntf1
    else (ownIntf1.1, ownIntf1.2 ++ [intf]) in
  let tree1 := <[path := <[serv := ownIntf2]> services]> tree in
  (* Update owner state on all entries of the same serv & intf *)
  map_imap (fun itPath itServices =>
    Some (if String.eqb itPath path then itServices
          else map_imap (fun itServ entry =>
                 Some (setOwner_entry serv intf isOwned itServ entry))
               itServices))
    tree1.

(** [Manager::findService]; the empty string when there is none. *)
Definition findService (path intf : string) (tree : ServTree) : string :=
  match tree !! path with
  | None => ""
  | Some services =>
      match find_service_with intf (in_key_order services) with
      | Some service => service.1
      | None => ""
      end
  end.

(** The interfaces of a service found in the cache, in
    [Manager::addServices]. *)
Definition add_interfaces (cached fetched : list string) : list string :=
  foldl (fun l itIntf => if contains l itIntf then l else l ++ [itIntf])
    cached fetched.

Definition addServices_serv (intf : string)
    (cached : gmap string (bool * list string))
    (itServ : string * list string) : gmap string (bool * list string) :=
  match cached !! itServ.1 with
  | Some servIter => <[itServ.1 := (servIter.1, add_interfaces servIter.2 itServ.2)]> cached
  | None => <[itServ.1 := (true, [intf])]> cached
  end.

Definition addServices_path (intf : string) (tree : ServTree)
    (itPath : string * gmap string (list string)) : ServTree :=
  match tree !! itPath.1 with
  | Some cached =>
      <[itPath.1 := foldl (addServices_serv intf) cached (in_key_order itPath.2)]> tree
  | None =>
      foldl (fun (tr : ServTree) (serv : string * list string) =>
               <[itPath.1 := <[serv.1 := (true, [intf])]> (default ∅ (tr !! itPath.1))]> tr)
        tree (in_key_order itPath.2)
  end.

(** [Manager::addServices] *)
Definition addServices (bus : Bus) (intf : string) (depth : Z) (tree : ServTree)
  : ServTree :=
  foldl (addServices_path intf) tree (in_key_order (getSubTreeRaw bus "/" intf depth)).

(** [Manager::getService] *)
Definition getService (bus : Bus) (path intf : string) (tree : ServTree)
  : ServTree * string :=
  let serviceName := findService path intf tree in
  if String.eqb serviceName "" then
    let tree' := addServices bus intf 0 tree in
    (tree', findService path intf tree')
  else (tree, serviceName).

(** [Manager::findPaths] *)
Definition findPaths (serv intf : string) (tree : ServTree) : list string :=
  foldl (fun paths (path : string * gmap string (bool * list string)) =>
           match path.2 !! serv with
           | Some itServ =>
               if contains itServ.2 intf then
                 if contains paths path.1 then paths else paths ++ [path.1]
               else paths
           | None => paths
           end)
    [] (in_key_order tree).

(** [Manager::getPaths] *)
Definition getPaths (bus : Bus) (serv intf : string) (tree : ServTree)
  : ServTree * list string :=
  let paths := findPaths serv intf tree in
  match paths with
  | [] =>
      let tree' := addServices bus intf 0 tree in
      (tree', findPaths serv intf tree')
  | _ :: _ => (tree, paths)
  end.

(** The innermost loop of [Manager::addObjects]: one [property] of the
    iterated interface against the interface found in the cache. *)
Definition addObjects_property (itIntf : gmap string PropertyVariantType)
    (property : string * PropertyVariantType) : gmap string PropertyVariantType :=
  match itIntf !! property.1 with
  | Some _ => <[property.1 := property.2]> itIntf     (* itProp->second = property.second *)
  | None => <[property.1 := property.2]> itIntf       (* itIntf->second.insert(property) *)
  end.

(** The loop over [interface : itPath->second]: the interfaces walked are
    those of the cached path, and so are the properties of each. *)
Definition addObjects_interface
    (itPath : gmap string (gmap string PropertyVariantType))
    (interface : string * gmap string PropertyVariantType)
  : gmap string (gmap string PropertyVariantType) :=
  match itPath !! interface.1 with
  | Some itIntf =>
      <[interface.1 := foldl addObjects_property itIntf (in_key_order itIntf)]> itPath
  | None => <[interface.1 := interface.2]> itPath
  end.

(** The body of the loop over the managed objects fetched. *)
Definition addObjects_object (objects : Objects)
    (object : string * gmap string (gmap string PropertyVariantType)) : Objects :=
  match objects !! object.1 with
  | Some itPath =>
      <[object.1 := foldl addObjects_interface itPath (in_key_order itPath)]> objects
  | None => <[object.1 := object.2]> objects
  end.

Definition objectManagerIntf : string := "org.freedesktop.DBus.ObjectManager".

(** [Manager::addObjects] *)
Definition addObjects (bus : Bus) (path intf prop : string) (c : Cache)
  : Cache * result unit :=
  let '(tree1, service) := getService bus path intf (_servTree c) in
  if String.eqb service "" then (mkCache tree1 (_objects c), Ok tt)
  else
    let '(tree2, objMgrPaths) := getPaths bus service objectManagerIntf tree1 in
    match objMgrPaths with
    | [] =>
        match getPropertyVariant bus service path intf prop with
        | Throw e => (mkCache tree2 (_objects c), Throw e)
        | Ok variant =>
            let intfs := default ∅ (_objects c !! path) in
            let props := default ∅ (intfs !! intf) in
            (mkCache tree2
               (<[path := <[intf := <[prop := variant]> props]> intfs]> (_objects c)),
             Ok tt)
        end
    | _ :: _ =>
        (mkCache tree2
           (foldl (fun objects objMgrPath =>
                     foldl addObjects_object objects
                       (in_key_order (getManagedObjects bus service objMgrPath)))
              (_objects c) objMgrPaths),
         Ok tt)
    end.

(** [Manager::getProperty] *)
Definition getProperty (path intf prop : string) (objects : Objects)
  : option PropertyVariantType :=
  match objects !! path with
  | Some itPath =>
      match itPath !! intf with
      | Some itIntf => itIntf !! prop
      | None => None
      end
  | None => None
  end.

End Cache.

Arguments mkBus {PropertyVariantType}.
Arguments mkCache {PropertyVariantType}.
Arguments _servTree {PropertyVariantType}.
Arguments _objects {PropertyVariantType}.
Arguments addObjects_property {PropertyVariantType}.
Arguments addObjects_interface {PropertyVariantType}.
Arguments addObjects_object {PropertyVariantType}.
Arguments addObjects {PropertyVariantType}.
Arguments getProperty {PropertyVariantType}.

(* --------------------------------------------------------------------- *)
(** *** Loading, reloading and power state *)

(** Modelled from the spec: a profile, whose class ([profile.hpp]) is
    missing: its name, the profiles it names, and its active flag. *)
Record Profile : Type := mkProfile {
  profile_name : string;
  profile_profiles : list string;
  profile_active : bool
}.

(** Modelled from the spec: a group, whose class ([group.hpp]) is missing:
    a name, the member paths, and the shared interface and property. *)
Record Group : Type := mkGroup {
  group_name : string;
  group_members : list string;
  group_interface : string;
  group_property : string
}.

Inductive TimerType : Type := oneshot | repeating.

Section Load.

(** The events, whose class ([event.hpp]) is missing, and the two calls
    [Manager::powerStateChanged] makes on them. *)
Variable Event : Type.
Variable powerOn : Event -> Event.
Variable powerOff : Event -> Event.

Record t : Type := mkManager {
  _profiles : list (configKey * Profile);
  _activeProfiles : list string;
  _zones : list (configKey * Zone.t);
  _events : list (configKey * Event);
  _timers : list (TimerType * string);
  _signals : list string;
  _loadAllowed : bool;
  allGroups : list (configKey * Group)      (* the static of Event *)
}.

Definition set_profiles v (m : t) : t :=
  mkManager v (_activeProfiles m) (_zones m) (_events m) (_timers m)
    (_signals m) (_loadAllowed m) (allGroups m).
Definition set_activeProfiles v (m : t) : t :=
  mkManager (_profiles m) v (_zones m) (_events m) (_timers m)
    (_signals m) (_loadAllowed m) (allGroups m).
Definition set_zones v (m : t) : t :=
  mkManager (_profiles m) (_activeProfiles m) v (_events m) (_timers m)
    (_signals m) (_loadAllowed m) (allGroups m).
Definition set_events v (m : t) : t :=
  mkManager (_profiles m) (_activeProfiles m) (_zones m) v (_timers m)
    (_signals m) (_loadAllowed m) (allGroups m).
Definition set_timers v (m : t) : t :=
  mkManager (_profiles m) (_activeProfiles m) (_zones m) (_events m) v
    (_signals m) (_loadAllowed m) (allGroups m).
Definition set_signals v (m : t) : t :=
  mkManager (_profiles m) (_activeProfiles m) (_zones m) (_events m) (_timers m)
    v (_loadAllowed m) (allGroups m).
Definition set_loadAllowed v (m : t) : t :=
  mkManager (_profiles m) (_activeProfiles m) (_zones m) (_events m) (_timers m)
    (_signals m) v (allGroups m).
Definition set_allGroups v (m : t) : t :=
  mkManager (_profiles m) (_activeProfiles m) (_zones m) (_events m) (_timers m)
    (_signals m) (_loadAllowed m) v.

(** What the configuration files and the bus answer during one [load]: the
    results of the calls manager.cpp makes into other files. *)
Record LoadEnv : Type := mkLoadEnv {
  (* fan::JsonConfig::getConfFile for the profiles; empty when there is none *)
  profilesConfFile : result string;
  (* fan::JsonConfig::load of that file, then the Profile built from each entry *)
  profilesConf : string -> result (list (result Profile));
  (* getConfig<Zone>(false, _event, this) under the active profiles *)
  zonesConf : list string -> result (list (configKey * Zone.t));
  (* getConfig<Fan>(false) under the active profiles *)
  fansConf : list string -> result (list (configKey * Zone.Fan));
  (* getConfig<Event>(true, this, zones): the groups it has registered in
     Event's static when it returns or throws, and the events *)
  eventsConf : list (configKey * Zone.t) ->
               list (configKey * Group) * result (list (configKey * Event));
  (* Zone::enable and Event::enable *)
  zoneEnable : Zone.t -> result Zone.t;
  eventEnable : Event -> result Event
}.

(** Code that changes the manager and may throw. *)
Definition M (A : Type) : Type := t -> t * result A.

Definition ret {A} (a : A) : M A := fun m => (m, Ok a).
Definition throw {A} (e : exn) : M A := fun m => (m, Throw e).
Definition bindM {A B} (c : M A) (k : A -> M B) : M B :=
  fun m => match c m with
           | (m', Ok a) => k a m'
           | (m', Throw e) => (m', Throw e)
           end.
Definition modify (f : t -> t) : M unit := fun m => (f m, Ok tt).
Definition get {A} (f : t -> A) : M A := fun m => (m, Ok (f m)).
Definition lift {A} (r : result A) : M A := fun m => (m, r).

(** [try { body } catch (const std::runtime_error& re) { handler }] *)
Definition try_catch_runtime_error {A} (body : M A) (handler : exn -> M A) : M A :=
  fun m => match body m with
           | (m', Throw e) =>
               if is_runtime_error e then handler e m' else (m', Throw e)
           | r => r
           end.

#[local] Instance M_ret : MRet M := @ret.
#[local] Instance M_bind : MBind M := fun A B k c => bindM c k.

(** The loop of [Manager::setProfiles] over the entries of the file. *)
Fixpoint emplaceProfiles (entries : list (result Profile)) : M unit :=
  match entries with
  | [] => ret tt
  | entry :: rest =>
      obj ← lift entry;
      modify (fun m =>
        set_profiles
          (emplace (profile_name obj, profile_profiles obj) obj (_profiles m)) m);;
      emplaceProfiles rest
  end.

(** [Manager::setProfiles] *)
Definition setProfiles (env : LoadEnv) : M unit :=
  confFile ← lift (profilesConfFile env);
  modify (set_profiles []);;
  (if String.eqb confFile "" then ret tt
   else entries ← lift (profilesConf env confFile);
        emplaceProfiles entries);;
  modify (set_activeProfiles []);;
  modify (fun m =>
    set_activeProfiles
      (foldl (fun active (profile : configKey * Profile) =>
                if profile_active profile.2 then active ++ [profile.1.1] else active)
         (_activeProfiles m) (_profiles m)) m).

(** The body of the loop of [load] over the fans: the fan goes to the first
    zone its key is compatible with. *)
Fixpoint moveFan (activeProfs : list string) (fan : configKey * Zone.Fan)
    (zones : list (configKey * Zone.t)) : list (configKey * Zone.t) :=
  match zones with
  | [] => []
  | zone :: rest =>
      if inConfig activeProfs (Zone.fan_zone fan.2, fan.1.2) zone.1 then
        let itZone :=
          if negb (Zone.getTarget zone.2 =? Zone.fan_target fan.2)
             && negb (Zone.fan_target fan.2 =? 0)
          then Zone.setTarget (Zone.fan_target fan.2) zone.2
          else zone.2 in
        (zone.1, Zone.addFan fan.2 itZone) :: rest
      else zone :: moveFan activeProfs fan rest
  end.

(** [std::for_each(c.begin(), c.end(), enable)]: stops at the first entry
    whose [enable] throws. *)
Fixpoint enableAll {A} (enable : A -> result A) (c : list (configKey * A))
  : list (configKey * A) * result unit :=
  match c with
  | [] => ([], Ok tt)
  | (k, a) :: rest =>
      match enable a with
      | Throw e => ((k, a) :: rest, Throw e)
      | Ok a' =>
          let '(rest', r) := enableAll enable rest in
          ((k, a') :: rest', r)
      end
  end.

Definition loadEvents (env : LoadEnv) (zones : list (configKey * Zone.t))
  : M (list (configKey * Event)) :=
  fun m =>
    let '(groups, r) := eventsConf env zones in
    (set_allGroups groups m, r).

(** [Manager::load] *)
Definition load (env : LoadEnv) : M unit :=
  allowed ← get _loadAllowed;
  if allowed : bool then
    setProfiles env;;
    activeProfs ← get _activeProfiles;
    zones0 ← lift (zonesConf env activeProfs);
    fans ← lift (fansConf env activeProfs);
    let zones := foldl (fun zs fan => moveFan activeProfs fan zs) zones0 fans in
    (* Save all currently available groups, then clear for reloading *)
    groups ← get allGroups;
    modify (set_allGroups []);;
    events ←
      try_catch_runtime_error (loadEvents env zones)
        (fun re => modify (set_allGroups groups);; throw re);
    (* Enable zones *)
    modify (set_zones zones);;
    (fun m =>
       let '(zs, r) := enableAll (zoneEnable env) (_zones m) in
       (set_zones zs m, r));;
    modify (set_timers []);;
    modify (set_signals []);;
    (* Enable events *)
    modify (set_events events);;
    (fun m =>
       let '(es, r) := enableAll (eventEnable env) (_events m) in
       (set_events es m, r));;
    modify (set_loadAllowed false)
  else ret tt.

(** [Manager::sighupHandler] *)
Definition sighupHandler (env : LoadEnv) : M unit :=
  (* Save current set of available and active profiles *)
  profiles ← get _profiles;
  modify (set_profiles []);;
  activeProfiles ← get _activeProfiles;
  modify (set_activeProfiles []);;
  try_catch_runtime_error
    (modify (set_loadAllowed true);; load env)
    (fun re =>
       modify (set_loadAllowed false);;
       modify (set_profiles profiles);;
       modify (set_activeProfiles activeProfiles)).

(** [Manager::powerStateChanged] *)
Definition powerStateChanged (powerStateOn : bool) : M unit :=
  if powerStateOn then
    zones ← get _zones;
    match zones with
    | [] => throw (runtime_error "No configured zones found at poweron")
    | _ :: _ =>
        modify (fun m =>
          set_zones
            (map (fun entry : configKey * Zone.t =>
                    (entry.1, Zone.setTarget (Zone.getPoweronTarget entry.2) entry.2))
               (_zones m)) m);;
        modify (fun m =>
          set_events
            (map (fun entry : configKey * Event => (entry.1, powerOn entry.2))
               (_events m)) m)
    end
  else
    modify (fun m =>
      set_events
        (map (fun entry : configKey * Event => (entry.1, powerOff entry.2))
           (_events m)) m).

End Load.

Arguments mkManager {Event}.
Arguments _profiles {Event}.
Arguments _activeProfiles {Event}.
Arguments _zones {Event}.
Arguments _events {Event}.
Arguments _timers {Event}.
Arguments _signals {Event}.
Arguments _loadAllowed {Event}.
Arguments allGroups {Event}.
Arguments set_profiles {Event}.
Arguments set_activeProfiles {Event}.
Arguments set_zones {Event}.
Arguments set_events {Event}.
Arguments set_timers {Event}.
Arguments set_signals {Event}.
Arguments set_loadAllowed {Event}.
Arguments set_allGroups {Event}.
Arguments M Event A : clear implicits.
Arguments ret {Event A}.
Arguments throw {Event A}.
Arguments bindM {Event A B}.
Arguments modify {Event}.
Arguments get {Event A}.
Arguments lift {Event A}.
Arguments mkLoadEnv {Event}.
Arguments profilesConfFile {Event}.
Arguments profilesConf {Event}.
Arguments zonesConf {Event}.
Arguments fansConf {Event}.
Arguments eventsConf {Event}.
Arguments emplaceProfiles {Event}.
Arguments setProfiles {Event}.
Arguments enableAll {A}.
Arguments loadEvents {Event}.
Arguments try_catch_runtime_error {Event A}.
Arguments zoneEnable {Event}.
Arguments eventEnable {Event}.
Arguments load {Event}.
Arguments sighupHandler {Event}.
Arguments powerStateChanged {Event}.

(* --------------------------------------------------------------------- *)
(** *** Groups and timers *)

Section Timers.

Variable PropertyVariantType : Type.
Variable Event : Type.

Abbreviation Objects := (gmap string (gmap string (gmap string PropertyVariantType))).

(** Modelled from the spec: [Manager::setProperty], which manager.cpp does
    not define; the spec's [set_property(path, intf, prop, value)]: an
    unconditional write that creates the parent entries. *)
Definition setProperty (path intf prop : string) (value : PropertyVariantType)
    (objects : Objects) : Objects :=
  let intfs := default ∅ (objects !! path) in
  let props := default ∅ (intfs !! intf) in
  <[path := <[intf := <[prop := value]> props]> intfs]> objects.

(** [_objects.at(member).at(intf).erase(prop)] inside
    [try { } catch (const std::out_of_range&) { }]. *)
Definition eraseProperty (path intf prop : string) (objects : Objects) : Objects :=
  match objects !! path with
  | None => objects
  | Some intfs =>
      match intfs !! intf with
      | None => objects
      | Some props => <[path := <[intf := delete prop props]> intfs]> objects
      end
  end.

(** The body of the loop of [Manager::addGroup] over the members. *)
Definition addGroup_member (bus : Bus PropertyVariantType) (intf prop : string)
    (c : Cache PropertyVariantType) (member : string) : Cache PropertyVariantType :=
  let '(tree, service) := getService PropertyVariantType bus member intf (_servTree c) in
  match getPropertyVariant PropertyVariantType bus service member intf prop with
  | Ok variant => mkCache tree (setProperty member intf prop variant (_objects c))
  | Throw _ => mkCache tree (eraseProperty member intf prop (_objects c))
  end.

(** [Manager::addGroup] *)
Definition addGroup (bus : Bus PropertyVariantType) (group : Group)
    (c : Cache PropertyVariantType) : Cache PropertyVariantType :=
  foldl (addGroup_member bus (group_interface group) (group_property group))
    c (group_members group).

(** A [TimerData] without its actions: the type of the timer, the name of
    its package, whether the groups are to be read again, and the
    groups. *)
Record TimerData : Type := mkTimerData {
  timer_type : TimerType;
  timer_name : string;
  timer_updateCache : bool;
  timer_groups : list Group
}.

Definition TimerType_eqb (a b : TimerType) : bool :=
  match a, b with
  | oneshot, oneshot | repeating, repeating => true
  | _, _ => false
  end.

(** [_timers.erase(std::find_if(...))]: the first timer of the type and
    name of [data] is removed, if there is one. *)
Fixpoint eraseTimer (data : TimerData) (timers : list (TimerType * string))
  : list (TimerType * string) :=
  match timers with
  | [] => []
  | timer :: rest =>
      if TimerType_eqb (timer_type data) timer.1
         && String.eqb (timer_name data) timer.2
      then rest
      else timer :: eraseTimer data rest
  end.

(** [Manager::addTimer]: the timer is started and appended to [_timers]
    (an invalid timer type, for which the code throws, is no value of
    [TimerType]). *)
Definition addTimer (data : TimerData) (m : t Event) : t Event :=
  set_timers (_timers m ++ [(timer_type data, timer_name data)]) m.

(** [Manager::timerExpired]; an action is what its [run] does to the
    manager and the cache. *)
Definition timerExpired (bus : Bus PropertyVariantType) (data : TimerData)
    (actions : list (t Event * Cache PropertyVariantType ->
                     t Event * Cache PropertyVariantType))
    (mc : t Event * Cache PropertyVariantType)
  : t Event * Cache PropertyVariantType :=
  let mc1 :=
    if timer_updateCache data
    then (mc.1, foldl (fun c group => addGroup bus group c) mc.2 (timer_groups data))
    else mc in
  let mc2 := foldl (fun st action => action st) mc1 actions in
  match timer_type data with
  | oneshot => (set_timers (eraseTimer data (_timers mc2.1)) mc2.1, mc2.2)
  | repeating => mc2
  end.

End Timers.

Arguments setProperty {PropertyVariantType}.
Arguments eraseProperty {PropertyVariantType}.
Arguments addGroup_member {PropertyVariantType}.
Arguments addGroup {PropertyVariantType}.
Arguments addTimer {Event}.
Arguments timerExpired {PropertyVariantType Event}.
Arguments getSubTreeRaw {PropertyVariantType}.
Arguments getPropertyVariant {PropertyVariantType}.
Arguments getManagedObjects {PropertyVariantType}.
Arguments addServices {PropertyVariantType}.
Arguments getService {PropertyVariantType}.
Arguments getPaths {PropertyVariantType}.

(* --------------------------------------------------------------------- *)
(** *** Signals *)

Section Signals.

(** The bus message with its read position, and all that the handlers and
    the actions of the events can change.  [rewind] is
    [sd_bus_message_rewind(msg, true)]. *)
Variable Message : Type.
Variable State : Type.
Variable rewind : Message -> Message.

(** A [SignalPkg]: the handler, bound to its signal object, reads the
    message, may change the state and tells whether the cache was
    updated; an action is what its [run] does, a null action is
    [None]. *)
Record SignalPkg : Type := mkSignalPkg {
  signalHandler : Message -> State -> Message * State * bool;
  signalActions : list (option (State -> State))
}.

Definition runActions (actions : list (option (State -> State))) (st : State)
  : State :=
  foldl (fun st action =>
           match action with
           | Some run => run st
           | None => st
           end)
    st actions.

(** [Manager::handleSignal] *)
Fixpoint handleSignal (pkgs : list SignalPkg) (msg : Message) (st : State)
  : Message * State :=
  match pkgs with
  | [] => (msg, st)
  | pkg :: rest =>
      let '(msg1, st1, updated) := signalHandler pkg msg st in
      let st2 := if updated then runActions (signalActions pkg) st1 else st1 in
      (* Only rewind message when not last package *)
      match rest with
      | [] => (msg1, st2)
      | _ :: _ => handleSignal rest (rewind msg1) st2
      end
  end.

End Signals.

Arguments mkSignalPkg {Message State}.
Arguments signalHandler {Message State}.
Arguments signalActions {Message State}.
Arguments runActions {State}.
Arguments handleSignal {Message State}.

End Manager.

(* ===================================================================== *)
(** ** monitor/fan.cpp *)
(* ===================================================================== *)

Module Monitor.

(** Modelled from the spec: a tach sensor, whose class ([tach_sensor.hpp])
    is missing: its input, its target, its own functional flag and its
    nonfunctional-debounce timer, with the name and the [hasTarget] flag
    fan.cpp also reads. *)
Record TachSensor : Type := mkTachSensor {
  sensor_name : string;
  sensor_functional : bool;
  sensor_hasTarget : bool;
  sensor_input : Z;          (* int64_t *)
  sensor_target : Z;         (* uint64_t *)
  sensor_timerRunning : bool
}.

Definition setFunctional (functional : bool) (s : TachSensor) : TachSensor :=
  mkTachSensor (sensor_name s) functional (sensor_hasTarget s) (sensor_input s)
    (sensor_target s) (sensor_timerRunning s).
Definition setTimerRunning (running : bool) (s : TachSensor) : TachSensor :=
  mkTachSensor (sensor_name s) (sensor_functional s) (sensor_hasTarget s)
    (sensor_input s) (sensor_target s) running.

Record Fan : Type := mkFan {
  _name : string;
  _deviation : Z;
  _numSensorFailsForNonFunc : nat;
  _functional : bool;
  _sensors : list TachSensor
}.

Definition set_functional (v : bool) (fan : Fan) : Fan :=
  mkFan (_name fan) (_deviation fan) (_numSensorFailsForNonFunc fan) v (_sensors fan).
Definition set_sensors (v : list TachSensor) (fan : Fan) : Fan :=
  mkFan (_name fan) (_deviation fan) (_numSensorFailsForNonFunc fan) (_functional fan) v.

(** A [Notify] call made on the inventory manager: the fan, the value of
    its [Functional] property, and whether the response is a method
    error. *)
Record Notify : Type := mkNotify {
  notify_fan : string;
  notify_functional : bool;
  notify_is_method_error : bool
}.

(** [std::count_if] *)
Fixpoint count_if {A} (p : A -> bool) (l : list A) : nat :=
  match l with
  | [] => O
  | x :: l' => if p x then S (count_if p l') else count_if p l'
  end.

Definition numFailed (fan : Fan) : nat :=
  count_if (fun s => negb (sensor_functional s)) (_sensors fan).

(** [Fan::tooManySensorsNonfunctional] *)
Definition tooManySensorsNonfunctional (fan : Fan) : bool :=
  (_numSensorFailsForNonFunc fan <=? numFailed fan)%nat.

(** [Fan::updateInventory]; [is_method_error] is the response of the bus to
    the Notify call. *)
Definition updateInventory (functional : bool) (is_method_error : bool) (fan : Fan)
  : Fan * list Notify :=
  let response := mkNotify (_name fan) functional is_method_error in
  if is_method_error then (fan, [response])
  else (set_functional functional fan, [response]).

(** [Fan::timerExpired] for the sensor at index [sensor] of [_sensors]. *)
Definition timerExpired (sensor : nat) (is_method_error : bool) (fan : Fan)
  : Fan * list Notify :=
  let fan1 := set_sensors (alter (setFunctional false) sensor (_sensors fan)) fan in
  if _functional fan1 && tooManySensorsNonfunctional fan1
  then updateInventory false is_method_error fan1
  else (fan1, []).

(** [Fan::outOfRange] *)
Definition outOfRange (fan : Fan) (sensor : TachSensor) : bool :=
  let actual := u64 (sensor_input sensor) in
  let target := sensor_target sensor in
  let min := u64 (target * u64 (100 - _deviation fan)) / 100 in
  let max := u64 (target * u64 (100 + _deviation fan)) / 100 in
  (actual <? min) || (max <? actual).

(** [Fan::tachChanged(TachSensor&)]; [trusted] is false when the trust
    manager is active and does not trust the sensor. *)
Definition tachChanged (sensor : nat) (trusted : bool) (is_method_error : bool)
    (fan : Fan) : Fan * list Notify :=
  if negb trusted then (fan, [])
  else
    match _sensors fan !! sensor with
    | None => (fan, [])
    | Some s =>
        let running := sensor_timerRunning s in
        if outOfRange fan s then
          if sensor_functional s && negb running
          then (set_sensors (alter (setTimerRunning true) sensor (_sensors fan)) fan, [])
          else (fan, [])
        else
          let s1 := if negb (sensor_functional s) then setFunctional true s else s in
          let s2 := if running then setTimerRunning false s1 else s1 in
          let fan1 := set_sensors (<[sensor := s2]> (_sensors fan)) fan in
          if negb (_functional fan1) && negb (tooManySensorsNonfunctional fan1)
          then updateInventory true is_method_error fan1
          else (fan1, [])
    end.

(** A run of [updateInventory] calls, each with the value to publish and
    the response of the bus. *)
Fixpoint updateInventory_run (calls : list (bool * bool)) (fan : Fan) : Fan :=
  match calls with
  | [] => fan
  | (functional, is_method_error) :: rest =>
      updateInventory_run rest (updateInventory functional is_method_error fan).1
  end.

(** The state last published with success by such a run; [published] is
    the one before it. *)
Fixpoint last_published (published : bool) (calls : list (bool * bool)) : bool :=
  match calls with
  | [] => published
  | (functional, is_method_error) :: rest =>
      last_published (if is_method_error then published else functional) rest
  end.

(** [Fan::findTargetSpeed] *)
Definition findTargetSpeed (fan : Fan) : Z :=
  match List.find sensor_hasTarget (_sensors fan) with
  | Some s => sensor_target s
  | None => 0
  end.

(** [Fan::tachChanged()]: [tachChanged(TachSensor&)] on every sensor in
    turn; [trusted i] and [is_method_error i] are what the trust manager
    and the bus answer during the call for sensor [i]. *)
Definition tachChanged_all (trusted is_method_error : nat -> bool) (fan : Fan)
  : Fan * list Notify :=
  foldl (fun (st : Fan * list Notify) (i : nat) =>
           let '(fan', responses) := tachChanged i (trusted i) (is_method_error i) st.1 in
           (fan', st.2 ++ responses))
    (fan, []) (seq 0 (length (_sensors fan))).

Inductive Mode : Type := init | monitor.

(** The [FanDefinition] tuple; each sensor definition is given as the
    [TachSensor] its constructor builds, or [None] when the constructor
    throws [InvalidSensorError]. *)
Record FanDefinition : Type := mkFanDefinition {
  fanNameField : string;
  fanDeviationField : Z;
  numSensorFailsForNonfuncField : nat;
  sensorListField : list (option TachSensor)
}.

(** The constructor [Fan::Fan].  [uninitialized] is the value the member
    [_functional] holds before the first assignment; [inventory_error] is
    the response to the Notify of the constructor. *)
Definition create (mode : Mode) (def : FanDefinition) (uninitialized : bool)
    (inventory_error : bool) (trusted is_method_error : nat -> bool)
  : Fan * list Notify :=
  let fan0 :=
    mkFan (fanNameField def) (fanDeviationField def)
      (numSensorFailsForNonfuncField def) uninitialized [] in
  let '(fan1, responses1) := updateInventory true inventory_error fan0 in
  match mode with
  | init => (fan1, responses1)
  | monitor =>
      let fan2 := set_sensors (omap (fun s : option TachSensor => s) (sensorListField def)) fan1 in
      let '(fan3, responses3) := tachChanged_all trusted is_method_error fan2 in
      (fan3, responses1 ++ responses3)
  end.

End Monitor.

(* ===================================================================== *)
(** ** presence/json_config.cpp *)
(* ===================================================================== *)

Module Presence.

(** A JSON value as [process] uses it: a string, or a value of any other
    JSON type. *)
Inductive Json : Type :=
  | json_string (s : string)
  | json_other.

(** The conversion of a JSON value to [std::string], which initialising
    the tuple of a fan from [member["name"]] and [member["path"]] goes
    through: the JSON library throws its [type_error], which is not a
    [std::runtime_error], unless the value is a string. *)
Definition get_string (j : Json) : result string :=
  match j with
  | json_string s => Ok s
  | json_other => Throw (other_exception "type must be string")
  end.

(** A member of the parsed configuration, reduced to the two attributes
    [process] reads: [None] when [member.contains] is false. *)
Record Member : Type := mkMember {
  member_name : option Json;
  member_path : option Json
}.

(** What the constructor finds at the path of the configuration file. *)
Inductive ConfFile : Type :=
  | absent                               (* fs::exists is false *)
  | unparsable                           (* json::parse throws *)
  | parsed (jsonConf : list Member).

(** [JsonConfig::process], from the fans collected so far. *)
Fixpoint process (jsonConf : list Member) (_fans : list (string * string))
  : result (list (string * string)) :=
  match jsonConf with
  | [] => Ok _fans
  | member :: rest =>
      match member_name member, member_path member with
      | Some name, Some path =>
          match get_string name, get_string path with
          | Ok name, Ok path => process rest (_fans ++ [(name, path)])
          | Throw e, _ => Throw e
          | _, Throw e => Throw e
          end
      | _, _ => Throw (runtime_error "Missing required fan presence properties")
      end
  end.

(** The constructor [JsonConfig::JsonConfig]: the fans of the object, or
    the exception that leaves the constructor. *)
Definition JsonConfig (confFile : ConfFile) : result (list (string * string)) :=
  match confFile with
  | absent => Throw (runtime_error "Unable to open JSON config file")
  | unparsable => Throw (runtime_error "Failed to parse JSON config file")
  | parsed jsonConf => process jsonConf []
  end.

End Presence.

(* ===================================================================== *)
(** ** Notions used in the statements *)
(* ===================================================================== *)

(** The speed fields of a zone. *)
Definition speeds (z : Zone.t) : Z * Z * Z * Z :=
  (Zone._fullSpeed z, Zone._defaultFloor z, Zone._floor z, Zone._target z).

(** The entry [_servTree[path][serv]] as the first part of
    [Manager::setOwner] leaves it. *)
Definition setOwner_named (serv intf : string) (isOwned : bool)
    (services : gmap string (bool * list string)) : bool * list string :=
  let intfs := (default (false, []) (services !! serv)).2 in
  (isOwned, if contains intfs intf then intfs else intfs ++ [intf]).

(** What [load] leaves alone until the staged configuration is moved into
    place: everything but the profiles and the active profiles. *)
Definition same_live {Event} (m1 m : Manager.t Event) : Prop :=
  Manager._zones m1 = Manager._zones m
  /\ Manager._events m1 = Manager._events m
  /\ Manager._timers m1 = Manager._timers m
  /\ Manager._signals m1 = Manager._signals m
  /\ Manager._loadAllowed m1 = Manager._loadAllowed m
  /\ Manager.allGroups m1 = Manager.allGroups m.

(** The state in which [sighupHandler] calls [load]: the profiles moved
    out and loading allowed. *)
Definition reload_start {Event} (m : Manager.t Event) : Manager.t Event :=
  Manager.set_loadAllowed true
    (Manager.set_activeProfiles [] (Manager.set_profiles [] m)).

(** The interfaces and properties [Zone::setInterfaces] accepts. *)
Definition valid_property (property : Zone.PropertyJson) : Prop :=
  Zone.pj_name property = Some Zone.currentProp
  \/ Zone.pj_name property = Some Zone.supportedProp.

Definition valid_interface (interface : Zone.InterfaceJson) : Prop :=
  Zone.ij_name interface = Some Zone.thermModeIntf
  /\ exists properties,
       Zone.ij_properties interface = Some properties
       /\ Forall valid_property properties.

(** Every entry of the cache of services [tree] is in [tree'] with the
    same owned flag and with its interfaces, in order, followed by the
    interfaces added. *)
Definition services_kept (tree tree' : gmap string (gmap string (bool * list string)))
  : Prop :=
  forall path services serv owned intfs,
    tree !! path = Some services ->
    services !! serv = Some (owned, intfs) ->
    exists services' added,
      tree' !! path = Some services'
      /\ services' !! serv = Some (owned, intfs ++ added).

(** Every property the cache of objects [objects] holds, [objects'] holds
    with the same value. *)
Definition properties_kept {V} (objects objects' : gmap string (gmap string (gmap string V)))
  : Prop :=
  forall path intf prop value,
    Manager.getProperty path intf prop objects = Some value ->
    Manager.getProperty path intf prop objects' = Some value.

(** What the cache holds for a property after the bus was asked for it:
    the value read, or nothing when the read threw. *)
Definition cached_read {V} (read : result V) : option V :=
  match read with
  | Ok value => Some value
  | Throw _ => None
  end.

(** An action that leaves the timers of the manager alone. *)
Definition keeps_timers {V Event}
    (action : Manager.t Event * Manager.Cache V -> Manager.t Event * Manager.Cache V)
  : Prop :=
  forall st, Manager._timers (action st).1 = Manager._timers st.1.

(** What one signal package does to the state when its handler is given
    the message [msg]: the handler, then the actions if the handler says
    the cache was updated. *)
Definition handlePkg {Message State} (msg : Message) (st : State)
    (pkg : Manager.SignalPkg Message State) : State :=
  let '(_, st1, updated) := Manager.signalHandler pkg msg st in
  if updated then Manager.runActions (Manager.signalActions pkg) st1 else st1.

(** The entries of [live] are those of [staged], key by key and in their
    order, each one as [enable] has left it. *)
Definition enabled_from {A} (enable : A -> result A)
    (live staged : list (Manager.configKey * A)) : Prop :=
  Forall2 (fun l s : Manager.configKey * A => l.1 = s.1 /\ enable s.2 = Ok l.2)
    live staged.

(** A member of the presence configuration that gives the fan [fan]: its
    name and its path are the two strings of the fan. *)
Definition member_gives (member : Presence.Member) (fan : string * string) : Prop :=
  Presence.member_name member = Some (Presence.json_string fan.1)
  /\ Presence.member_path member = Some (Presence.json_string fan.2).

(** The zone handler a configured property stands for, if any: the
    [Supported] property gives one with the values that are given, the
    [Current] property gives one only when it has a value; [persist] is
    false unless given. *)
Definition property_handlers (property : Zone.PropertyJson) : list Zone.ZoneHandler :=
  let persist := default false (Zone.pj_persist property) in
  match Zone.pj_name property with
  | Some name =>
      if String.eqb name Zone.currentProp then
        match Zone.pj_value property with
        | Some value => [Zone.setCurrent value persist]
        | None => []
        end
      else if String.eqb name Zone.supportedProp then
        [Zone.setSupported
           (omap (fun v : option string => v) (default [] (Zone.pj_values property)))
           persist]
      else []
  | None => []
  end.

Definition interface_handlers (interface : Zone.InterfaceJson) : list Zone.ZoneHandler :=
  flat_map property_handlers (default [] (Zone.ij_properties interface)).

(* ===================================================================== *)
(** ** Sample configurations *)
(* ===================================================================== *)

Module Samples.

(** The zone of the specification's scenarios: full speed 255, default
    floor 80, decrease interval 30, increase delay 5. *)
Definition cpu_json : Zone.ZoneJson :=
  Zone.mkZoneJson "cpu" None (Some 5) (Some 255) (Some 80) (Some 30) None.

Definition cpu_zone : Zone.t :=
  Zone.mkZone "cpu" [] 255 80 80 255 0 5 30 ∅ ∅ [] [].

(** The same zone once [Manager::load] has set its target to that of a fan
    running at 90. *)
Definition cpu_zone_at_90 : Zone.t :=
  Zone.mkZone "cpu" [] 255 80 80 90 0 5 30 ∅ ∅ []
    [Zone.mkFan "fan0" "cpu" 90].

(** Two objects of one service that both implement one interface. *)
Definition sensor_intf : string := "xyz.openbmc_project.Sensor.Value".
Definition hwmon : string := "xyz.openbmc_project.Hwmon".
Definition fan0_path : string := "/xyz/openbmc_project/sensors/fan_tach/fan0".
Definition fan1_path : string := "/xyz/openbmc_project/sensors/fan_tach/fan1".

Definition two_fans_tree : gmap string (gmap string (bool * list string)) :=
  <[fan0_path := {[hwmon := (true, [sensor_intf])]}]>
    {[fan1_path := {[hwmon := (true, [sensor_intf])]}]}.

(** The same service with an object manager above the two sensors; the
    cache holds a reading of the first sensor, and the managed objects the
    service reports carry a newer reading of it, one more property of it,
    and the second sensor.  Property values are integers here. *)
Definition sensors_path : string := "/xyz/openbmc_project/sensors".

Definition managed_tree : gmap string (gmap string (bool * list string)) :=
  <[sensors_path := {[hwmon := (true, [Manager.objectManagerIntf])]}]> two_fans_tree.

Definition cached_objects : gmap string (gmap string (gmap string Z)) :=
  {[fan0_path := {[sensor_intf := {["Value" := 1000]}]}]}.

Definition fetched_objects : gmap string (gmap string (gmap string Z)) :=
  <[fan0_path := {[sensor_intf := <["Unit" := 7]> {["Value" := 2000]}]}]>
    {[fan1_path := {[sensor_intf := {["Value" := 3000]}]}]}.

Definition managed_bus : Manager.Bus Z :=
  Manager.mkBus
    (fun _ _ _ => ∅)
    (fun _ _ _ _ => Throw (other_exception "no such property"))
    (fun service objMgrPath =>
       if String.eqb service hwmon && String.eqb objMgrPath sensors_path
       then fetched_objects else ∅).

Definition managed_cache : Manager.Cache Z :=
  Manager.mkCache managed_tree cached_objects.

(** A running configuration: one active profile, zones A and B, an event,
    a timer, a signal and a group.  An event is its name here. *)
Definition zone_A : Zone.t := Zone.mkZone "A" [] 255 80 80 255 200 5 30 ∅ ∅ [] [].
Definition zone_B : Zone.t := Zone.mkZone "B" [] 255 100 100 255 220 0 30 ∅ ∅ [] [].

Definition live_manager : Manager.t string :=
  Manager.mkManager
    [(("rainier", []), Manager.mkProfile "rainier" [] true)]
    ["rainier"]
    [(("A", []), zone_A); (("B", []), zone_B)]
    [(("fan_missing", []), "fan_missing")]
    [(Manager.repeating, "fan_missing")]
    ["PropertiesChanged"]
    false
    [(("fans", []), Manager.mkGroup "fans" [fan0_path; fan1_path] sensor_intf "Value")].

(** A reload whose profiles and zones load and whose events file is
    malformed. *)
Definition malformed_events_env : Manager.LoadEnv string :=
  Manager.mkLoadEnv
    (Ok "profiles.json")
    (fun _ => Ok [Ok (Manager.mkProfile "everest" [] true)])
    (fun _ => Ok [(("A", []), zone_A)])
    (fun _ => Ok [(("fan0", []), Zone.mkFan "fan0" "A" 180)])
    (fun _ => ([(("tachs", []), Manager.mkGroup "tachs" [fan0_path] sensor_intf "Value")],
               Throw (runtime_error "Failed to parse JSON config file")))
    Ok Ok.

(** A reload whose zones file gives [full_speed] as a string: reading it
    with [get<uint64_t>()] in [Zone::setFullSpeed] throws the JSON
    library's type error, which is not a [std::runtime_error]. *)
Definition type_error_env : Manager.LoadEnv string :=
  Manager.mkLoadEnv
    (Ok "profiles.json")
    (fun _ => Ok [Ok (Manager.mkProfile "everest" [] true)])
    (fun _ => Throw (other_exception "type must be number, but is string"))
    (fun _ => Ok [])
    (fun _ => ([], Ok []))
    Ok Ok.

(** The fan of scenario S5: three sensors, deviation 15, two failed
    sensors make the fan nonfunctional.  The first sensor has been marked
    nonfunctional already; the timer of the second is running. *)
Definition s5_fan : Monitor.Fan :=
  Monitor.mkFan "fan0" 15 2 true
    [ Monitor.mkTachSensor "fan0_0" false true 6000 8000 false;
      Monitor.mkTachSensor "fan0_1" true false 6000 8000 true;
      Monitor.mkTachSensor "fan0_2" true false 8000 8000 false ].

(** A zone configuration that serves the thermal mode interface. *)
Definition thermal_json : Zone.ZoneJson :=
  Zone.mkZoneJson "cpu" (Some ["rainier"]) None (Some 255) (Some 80) (Some 30)
    (Some [Zone.mkInterfaceJson (Some Zone.thermModeIntf)
             (Some [Zone.mkPropertyJson (Some Zone.supportedProp) None None
                      (Some [Some "DEFAULT"; None; Some "CUSTOM"]);
                    Zone.mkPropertyJson (Some Zone.currentProp) (Some true)
                      (Some "default") None])]).

(** The zone of the scenarios with a floor-change gate that is closed. *)
Definition gated_zone : Zone.t :=
  Zone.mkZone "cpu" [] 255 80 80 255 0 5 30
    (<["missing_owner" := false]> {["default" := true]}) ∅ [] [].

(** The thermal mode object of a zone: the mode is [DEFAULT], and two
    modes are supported. *)
Definition thermal_default : Zone.ThermalObject :=
  Zone.mkThermalObject "DEFAULT" ["default"; "Custom"].

(** A bus whose subtree holds the first sensor with one more interface
    and a third sensor the cache does not hold. *)
Definition item_intf : string := "xyz.openbmc_project.Inventory.Item".
Definition fan2_path : string := "/xyz/openbmc_project/sensors/fan_tach/fan2".

Definition subtree_bus : Manager.Bus Z :=
  Manager.mkBus
    (fun _ intf _ =>
       if String.eqb intf item_intf
       then <[fan0_path := {[hwmon := [sensor_intf; item_intf]]}]>
              {[fan2_path := {[hwmon := [item_intf]]}]}
       else ∅)
    (fun _ path _ _ =>
       if String.eqb path fan0_path then Ok 4200
       else Throw (other_exception "no such object"))
    (fun _ _ => ∅).

(** A group over the first two sensors and one that is not on the bus. *)
Definition tach_group : Manager.Group :=
  Manager.mkGroup "tachs" [fan0_path; fan1_path] sensor_intf "Value".

(** A profiles file with two entries of one key and one inactive
    profile. *)
Definition profiles_env : Manager.LoadEnv string :=
  Manager.mkLoadEnv
    (Ok "profiles.json")
    (fun _ => Ok [Ok (Manager.mkProfile "everest" [] true);
                  Ok (Manager.mkProfile "rainier" [] false);
                  Ok (Manager.mkProfile "everest" [] false)])
    (fun _ => Ok [(("A", ["everest"]), zone_A); (("B", []), zone_B)])
    (fun _ => Ok [(("fan0", []), Zone.mkFan "fan0" "B" 180);
                  (("fan1", []), Zone.mkFan "fan1" "C" 150)])
    (fun _ => ([], Ok [(("fan_missing", []), "fan_missing")]))
    Ok Ok.

(** Two packages on one signal; the message is the position read up to,
    and the state the log of what ran, with the position each handler was
    given.  The first handler reads two fields and reports no update, the
    second reads one and reports an update. *)
Definition first_pkg : Manager.SignalPkg nat (list (string * nat)) :=
  Manager.mkSignalPkg
    (fun pos log => ((pos + 2)%nat, log ++ [("handler 1", pos)], false))
    [Some (fun log => log ++ [("action 1", 0%nat)])].

Definition second_pkg : Manager.SignalPkg nat (list (string * nat)) :=
  Manager.mkSignalPkg
    (fun pos log => ((pos + 1)%nat, log ++ [("handler 2", pos)], true))
    [None; Some (fun log => log ++ [("action 2", 0%nat)])].

End Samples.

(* ===================================================================== *)
(** ** Properties *)
(* ===================================================================== *)

Lemma contains_In (v : list string) (x : string) :
  contains v x = true <-> In x v.
Proof.
  unfold contains. rewrite existsb_exists. split.
  - intros (y & Hy & Heq). apply String.eqb_eq in Heq. now subst.
  - intros H. exists x. split; [exact H | apply String.eqb_refl].
Qed.

Lemma contains_app (v w : list string) (x : string) :
  contains (v ++ w) x = contains v x || contains w x.
Proof. unfold contains. apply existsb_app. Qed.

(* --------------------------------------------------------------------- *)
(** *** Zone *)

Lemma sample_cpu_zone_created :
  Zone.create Samples.cpu_json = Ok Samples.cpu_zone.
Proof. reflexivity. Qed.

Lemma requestIncrease_id (targetDelta : Z) (z : Zone.t) :
  Zone.requestIncrease targetDelta z = z.
Proof. reflexivity. Qed.

(** C1 (the code at the failing input).  The zone of the scenarios with
    the target 90 and a requested increase of 30: the target the
    specification computes, [min (90 + 30) 255 = 120], exceeds the current
    target, yet [requestIncrease] returns the zone as it was, its target
    still 90 and its fan still at 90. *)
Theorem C1_requestIncrease_no_effect :
  let z := Samples.cpu_zone_at_90 in
  Z.min (Zone._target z + 30) (Zone._fullSpeed z) = 120
  /\ Zone._target z < 120
  /\ Zone.requestIncrease 30 z = z
  /\ Zone._target (Zone.requestIncrease 30 z) = 90
  /\ Zone._fans (Zone.requestIncrease 30 z) = [Zone.mkFan "fan0" "cpu" 90].
Proof. cbv zeta. repeat split. Qed.

Lemma setProperties_speeds propFuncs properties :
  forall z z', Zone.setProperties propFuncs properties z = Ok z' ->
               speeds z' = speeds z.
Proof.
  induction properties as [|property rest IH]; intros z z' H;
    cbn [Zone.setProperties] in H.
  - now inversion H.
  - destruct (Zone.pj_name property) as [name|]; [|discriminate].
    destruct (Zone.find_key name propFuncs) as [propFunc|]; [|discriminate].
    destruct (propFunc property _) as [zHandler|]; apply IH in H; exact H.
Qed.

Lemma setInterfaces_speeds interfaces :
  forall z z', Zone.setInterfaces interfaces z = Ok z' -> speeds z' = speeds z.
Proof.
  induction interfaces as [|interface rest IH]; intros z z' H;
    cbn [Zone.setInterfaces] in H.
  - now inversion H.
  - destruct (Zone.ij_name interface) as [name|]; [|discriminate].
    destruct (Zone.ij_properties interface) as [properties|]; [|discriminate].
    destruct (Zone.find_key name Zone._intfPropHandlers) as [propFuncs|];
      [|discriminate].
    destruct (Zone.setProperties propFuncs properties z) as [z1|e] eqn:Hp;
      [|discriminate].
    apply IH in H. rewrite H. eapply setProperties_speeds; eauto.
Qed.

(** A zone as the constructor leaves it: the target is the full speed and
    the floor the default floor. *)
Lemma create_speeds (jsonObj : Zone.ZoneJson) (z : Zone.t) :
  Zone.create jsonObj = Ok z ->
  Zone._target z = Zone._fullSpeed z /\ Zone._floor z = Zone._defaultFloor z.
Proof.
  unfold Zone.create, Zone.setFullSpeed, Zone.setDefaultFloor, Zone.setDecInterval.
  destruct (Zone.j_full_speed jsonObj) as [fs|]; [|discriminate].
  destruct (Zone.j_default_floor jsonObj) as [df|]; [|discriminate].
  destruct (Zone.j_decrease_interval jsonObj) as [di|]; [|discriminate].
  cbn [Zone.bind].
  destruct (Zone.j_interfaces jsonObj) as [interfaces|]; intros H.
  - apply setInterfaces_speeds in H. unfold speeds in H. cbn in H.
    inversion H as [[H1 H2 H3 H4]]. split; congruence.
  - inversion H. split; reflexivity.
Qed.

Lemma setFloor_fields (target : Z) (z : Zone.t) :
  Zone._fullSpeed (Zone.setFloor target z) = Zone._fullSpeed z
  /\ Zone._target (Zone.setFloor target z) = Zone._target z
  /\ (Zone._floor (Zone.setFloor target z) = target
      \/ Zone._floor (Zone.setFloor target z) = Zone._floor z).
Proof.
  unfold Zone.setFloor.
  destruct (forallb _ _); [|auto].
  destruct (_ <? _); cbn; auto.
Qed.

(** One pass of the decrease timer: the target is lowered by the decrease
    requested, or set to the floor, or left. *)
Lemma decreaseTimer_fields (now : Z) (s : Zone.state) :
  let z := Zone.zone s in
  let z' := Zone.zone (Zone.decreaseTimer now s) in
  Zone._fullSpeed z' = Zone._fullSpeed z
  /\ Zone._floor z' = Zone._floor z
  /\ ((exists d, 0 < d /\ Zone._target z' = Zone._target z - d
                 /\ Zone._floor z <= Zone._target z')
      \/ Zone._target z' = Zone._floor z
      \/ Zone._target z' = Zone._target z).
Proof.
  cbv zeta. unfold Zone.decreaseTimer. cbn [Zone.zone].
  set (d := default 0 (Zone.decrease_request s)).
  destruct ((0 <? d) && (Zone.increase_deadline s <=? now)
            && (Zone._floor (Zone.zone s) <=? Zone._target (Zone.zone s) - d))
    eqn:Hpass.
  - apply andb_prop in Hpass. destruct Hpass as [Hpass Hf].
    apply andb_prop in Hpass. destruct Hpass as [Hd _].
    apply Z.ltb_lt in Hd. apply Z.leb_le in Hf.
    cbn. split; [reflexivity|]. split; [reflexivity|].
    left. exists d. auto.
  - destruct (Z.ltb_spec (Zone._target (Zone.zone s) - d) (Zone._floor (Zone.zone s)))
      as [Hlt|Hge].
    + cbn. auto.
    + auto.
Qed.

(** A step keeps the full speed, and keeps the floor and the target at
    most [bound] when it is not a [setFloor] above [bound]. *)
Lemma step_le_bound (bound : Z) (s : Zone.state) (o : Zone.op) :
  Zone.floor_arg_le bound o ->
  Zone._floor (Zone.zone s) <= bound ->
  Zone._target (Zone.zone s) <= bound ->
  Zone._fullSpeed (Zone.zone (Zone.step s o)) = Zone._fullSpeed (Zone.zone s)
  /\ Zone._floor (Zone.zone (Zone.step s o)) <= bound
  /\ Zone._target (Zone.zone (Zone.step s o)) <= bound.
Proof.
  intros Ho Hf Ht.
  destruct o as [target|targetDelta|targetDelta|now];
    cbn [Zone.step Zone.zone Zone.requestDecrease Zone.requestIncrease
         Zone.floor_arg_le] in *.
  - destruct (setFloor_fields target (Zone.zone s)) as (H1 & H2 & [H3|H3]);
      rewrite H1, H2, H3; auto.
  - auto.
  - auto.
  - destruct (decreaseTimer_fields now s) as (H1 & H2 & H3). cbv zeta in *.
    rewrite H1, H2. split; [reflexivity|]. split; [exact Hf|].
    destruct H3 as [(d & Hd & H3 & _)|[H3|H3]]; lia.
Qed.

(** A step keeps the floor at most the target when it is not a
    [setFloor] above the target. *)
Lemma step_floor_le_target (s : Zone.state) (o : Zone.op) :
  Zone.floor_arg_le (Zone._target (Zone.zone s)) o ->
  Zone._floor (Zone.zone s) <= Zone._target (Zone.zone s) ->
  Zone._floor (Zone.zone (Zone.step s o)) <= Zone._target (Zone.zone (Zone.step s o)).
Proof.
  intros Ho Hf.
  destruct o as [target|targetDelta|targetDelta|now];
    cbn [Zone.step Zone.zone Zone.requestDecrease Zone.requestIncrease
         Zone.floor_arg_le] in *.
  - destruct (setFloor_fields target (Zone.zone s)) as (_ & H2 & [H3|H3]);
      rewrite H2, H3; auto.
  - exact Hf.
  - exact Hf.
  - destruct (decreaseTimer_fields now s) as (_ & H2 & H3). cbv zeta in *.
    rewrite H2. destruct H3 as [(d & Hd & _ & H3)|[H3|H3]]; lia.
Qed.

Lemma states_le_full (ops : list Zone.op) :
  forall s,
    Forall (Zone.floor_arg_le (Zone._fullSpeed (Zone.zone s))) ops ->
    Zone._floor (Zone.zone s) <= Zone._fullSpeed (Zone.zone s) ->
    Zone._target (Zone.zone s) <= Zone._fullSpeed (Zone.zone s) ->
    Forall (fun s' => Zone._target (Zone.zone s') <= Zone._fullSpeed (Zone.zone s'))
      (Zone.states s ops).
Proof.
  induction ops as [|o ops IH]; intros s Hops Hf Ht; cbn [Zone.states];
    constructor; inversion Hops as [|? ? Ho Hrest]; subst;
    destruct (step_le_bound _ s o Ho Hf Ht) as (H1 & H2 & H3).
  - rewrite H1. exact H3.
  - apply IH; rewrite H1; assumption.
Qed.

Lemma states_floor_le_target (ops : list Zone.op) :
  forall s,
    Zone.floors_le_target s ops ->
    Zone._floor (Zone.zone s) <= Zone._target (Zone.zone s) ->
    Forall (fun s' => Zone._floor (Zone.zone s') <= Zone._target (Zone.zone s'))
      (Zone.states s ops).
Proof.
  induction ops as [|o ops IH]; intros s Hops Hf; cbn [Zone.states];
    constructor; destruct Hops as [Ho Hrest];
    pose proof (step_floor_le_target s o Ho Hf) as H.
  - exact H.
  - apply IH; assumption.
Qed.

(** C2 (as amended).  A zone as the constructor builds it, with its
    default floor at most its full speed, goes through any sequence of
    [setFloor], [requestIncrease], requests for a decrease and passes of
    the decrease timer, with any increase deadline, every floor given to
    [setFloor] being at most the full speed.  After each step the target
    is at most the full speed; and as long as no [setFloor] is given a
    floor above the target of the moment, the floor is at most the target
    too, so that [floor <= target <= full_speed] holds after each step. *)
Theorem C2_target_bounds_after_each_step
    (jsonObj : Zone.ZoneJson) (z : Zone.t) (deadline : Z) (ops : list Zone.op) :
  Zone.create jsonObj = Ok z ->
  Zone._defaultFloor z <= Zone._fullSpeed z ->
  Forall (Zone.floor_arg_le (Zone._fullSpeed z)) ops ->
  Forall (fun s => Zone._target (Zone.zone s) <= Zone._fullSpeed (Zone.zone s))
    (Zone.states (Zone.mkState z None deadline) ops)
  /\ (Zone.floors_le_target (Zone.mkState z None deadline) ops ->
      Forall (fun s => Zone.target_bounds (Zone.zone s))
        (Zone.states (Zone.mkState z None deadline) ops)).
Proof.
  intros Hc Hd Hops. destruct (create_speeds _ _ Hc) as [Ht Hf].
  assert (Hfull : Forall (fun s => Zone._target (Zone.zone s)
                                   <= Zone._fullSpeed (Zone.zone s))
                    (Zone.states (Zone.mkState z None deadline) ops)).
  { apply states_le_full; cbn [Zone.zone]; [exact Hops | lia | lia]. }
  split; [exact Hfull|].
  intros Hfloors.
  assert (Hfl : Forall (fun s => Zone._floor (Zone.zone s) <= Zone._target (Zone.zone s))
                  (Zone.states (Zone.mkState z None deadline) ops)).
  { apply states_floor_le_target; cbn [Zone.zone]; [exact Hfloors | lia]. }
  clear - Hfull Hfl.
  induction Hfull as [|s l H1 _ IH]; inversion Hfl; subst; constructor.
  - split; assumption.
  - apply IH. assumption.
Qed.

Lemma C2_target_bounds_witness :
  let ops := [ Zone.op_requestDecrease 100; Zone.op_decreaseTimer 30;
               Zone.op_setFloor 120; Zone.op_requestIncrease 40;
               Zone.op_requestDecrease 50; Zone.op_decreaseTimer 60 ] in
  let s := Zone.mkState Samples.cpu_zone None 0 in
  Zone.create Samples.cpu_json = Ok Samples.cpu_zone
  /\ Zone._defaultFloor Samples.cpu_zone <= Zone._fullSpeed Samples.cpu_zone
  /\ Forall (Zone.floor_arg_le (Zone._fullSpeed Samples.cpu_zone)) ops
  /\ Zone.floors_le_target s ops
  /\ map (fun s' => Zone._target (Zone.zone s')) (Zone.states s ops)
     = [255; 155; 155; 155; 155; 120]
  /\ Forall (fun s' => Zone.target_bounds (Zone.zone s')) (Zone.states s ops).
Proof.
  cbv zeta.
  assert (Hd : Zone._defaultFloor Samples.cpu_zone <= Zone._fullSpeed Samples.cpu_zone)
    by (cbn; lia).
  assert (Hops : Forall (Zone.floor_arg_le (Zone._fullSpeed Samples.cpu_zone))
                   [ Zone.op_requestDecrease 100; Zone.op_decreaseTimer 30;
                     Zone.op_setFloor 120; Zone.op_requestIncrease 40;
                     Zone.op_requestDecrease 50; Zone.op_decreaseTimer 60 ])
    by (repeat constructor; cbn; lia).
  assert (Hfloors : Zone.floors_le_target (Zone.mkState Samples.cpu_zone None 0)
                      [ Zone.op_requestDecrease 100; Zone.op_decreaseTimer 30;
                        Zone.op_setFloor 120; Zone.op_requestIncrease 40;
                        Zone.op_requestDecrease 50; Zone.op_decreaseTimer 60 ])
    by (vm_compute; intuition discriminate).
  refine (conj eq_refl (conj Hd (conj Hops (conj Hfloors (conj eq_refl _))))).
  exact (proj2 (C2_target_bounds_after_each_step Samples.cpu_json Samples.cpu_zone 0
                  _ eq_refl Hd Hops)
               Hfloors).
Defined.

(** C2 (counterexample to the claim as stated).  The zone of the scenarios,
    freshly constructed, after [setFloor 300]: the floor is 300 and the
    target 255, so [floor <= target] fails after the first step. *)
Lemma C2_floor_above_full_speed :
  Zone.create Samples.cpu_json = Ok Samples.cpu_zone
  /\ ~ Forall (fun s => Zone.target_bounds (Zone.zone s))
         (Zone.states (Zone.mkState Samples.cpu_zone None 0) [Zone.op_setFloor 300]).
Proof.
  split; [reflexivity|].
  intros H. inversion H as [|z l Hb _]; subst.
  destruct Hb as [Hb _]. vm_compute in Hb. apply Hb. reflexivity.
Qed.

(** The two conditions on the floors are both needed for the target to
    stay at most the full speed: a pass of the decrease timer sets a
    target that is below the floor to the floor.  With the default floor
    300 above the full speed 255, and after [setFloor 300] on the zone of
    the scenarios, the pass leaves the target at 300. *)
Lemma decreaseTimer_target_above_full_speed :
  (exists z,
     Zone.create (Zone.mkZoneJson "cpu" None (Some 5) (Some 255) (Some 300) (Some 30) None)
     = Ok z
     /\ map (fun s => Zone._target (Zone.zone s))
          (Zone.states (Zone.mkState z None 0) [Zone.op_decreaseTimer 30])
        = [300])
  /\ map (fun s => Zone._target (Zone.zone s))
       (Zone.states (Zone.mkState Samples.cpu_zone None 0)
          [Zone.op_setFloor 300; Zone.op_decreaseTimer 30])
     = [255; 300].
Proof. split; [eexists; split; reflexivity | reflexivity]. Qed.

(** The last condition of the amended claim sets aside what [setFloor]
    does when the floor it is given is above the target: it hands the
    difference to [requestIncrease], whose body is empty (C1).  On the
    zone of the scenarios, once a decrease of 100 has brought the target
    to 155, [setFloor 200] leaves the floor at 200 and the target at
    155. *)
Lemma setFloor_above_target_after_decrease :
  map (fun s => (Zone._floor (Zone.zone s), Zone._target (Zone.zone s)))
    (Zone.states (Zone.mkState Samples.cpu_zone None 0)
       [Zone.op_requestDecrease 100; Zone.op_decreaseTimer 30; Zone.op_setFloor 200])
  = [(80, 255); (80, 155); (200, 155)].
Proof. reflexivity. Qed.

Lemma propsPersisted_at_lookup (intf : string) (m : gmap string (list string)) :
  (Zone.propsPersisted_at intf m).1 !! intf = Some (default [] (m !! intf))
  /\ (Zone.propsPersisted_at intf m).2 = default [] (m !! intf).
Proof.
  unfold Zone.propsPersisted_at. destruct (m !! intf) as [l|] eqn:Hl; cbn.
  - split; [exact Hl | reflexivity].
  - split; [apply lookup_insert_eq | reflexivity].
Qed.

(** C9.  [setPersisted intf prop] leaves the list of persisted properties of
    [intf] as it was unless [prop] is in it already, in which case [prop]
    is appended once more; so when [isPersisted intf prop] is false before
    the call it is false after it. *)
Theorem C9_setPersisted_appends_only_when_present
    (intf prop : string) (z : Zone.t) :
  let before := default [] (Zone._propsPersisted z !! intf) in
  Zone._propsPersisted (Zone.setPersisted intf prop z) !! intf
    = Some (if contains before prop then before ++ [prop] else before)
  /\ (Zone.isPersisted intf prop z = false ->
      Zone.isPersisted intf prop (Zone.setPersisted intf prop z) = false).
Proof.
  cbv zeta.
  assert (Hl : Zone._propsPersisted (Zone.setPersisted intf prop z) !! intf
               = Some (if contains (default [] (Zone._propsPersisted z !! intf)) prop
                       then default [] (Zone._propsPersisted z !! intf) ++ [prop]
                       else default [] (Zone._propsPersisted z !! intf))).
  { unfold Zone.setPersisted.
    destruct (propsPersisted_at_lookup intf (Zone._propsPersisted z)) as [H1 H2].
    destruct (Zone.propsPersisted_at intf (Zone._propsPersisted z)) as [m l].
    cbn in H1, H2. subst l.
    destruct (contains _ prop); cbn; [apply lookup_insert_eq | exact H1]. }
  split; [exact Hl|].
  unfold Zone.isPersisted at 2. rewrite Hl.
  unfold Zone.isPersisted.
  destruct (Zone._propsPersisted z !! intf) as [l|]; intros H.
  - change (default [] (Some l)) with l. rewrite H. exact H.
  - reflexivity.
Qed.

Lemma C9_setPersisted_witness :
  Zone.isPersisted Zone.thermModeIntf Zone.currentProp Samples.cpu_zone = false
  /\ Zone.isPersisted Zone.thermModeIntf Zone.currentProp
       (Zone.setPersisted Zone.thermModeIntf Zone.currentProp Samples.cpu_zone)
     = false.
Proof.
  split; [reflexivity|].
  apply (C9_setPersisted_appends_only_when_present
           Zone.thermModeIntf Zone.currentProp Samples.cpu_zone).
  reflexivity.
Defined.

(* --------------------------------------------------------------------- *)
(** *** Manager: profile compatibility *)

(** C4.  [inConfig input comp] is true exactly when the names are equal
    and either [input] names no profile or some profile of [input] is a
    profile of [comp] and is an active profile. *)
Theorem C4_inConfig_iff (activeProfs : list string) (input comp : Manager.configKey) :
  Manager.inConfig activeProfs input comp = true
  <-> input.1 = comp.1
      /\ (input.2 = []
          \/ exists profile, In profile input.2 /\ In profile comp.2
                             /\ In profile activeProfs).
Proof.
  unfold Manager.inConfig.
  destruct (String.eqb input.1 comp.1) eqn:Hname; cbn [negb].
  - apply String.eqb_eq in Hname.
    destruct input.2 as [|p ps] eqn:Hin.
    + split; [intros _; split; [exact Hname | left; reflexivity] | reflexivity].
    + rewrite existsb_exists. split.
      * intros (l & Hl & Hex). apply existsb_exists in Hex.
        destruct Hex as (r & Hr & Hlr).
        destruct (String.eqb l r) eqn:Heq; cbn [negb] in Hlr; [|discriminate].
        apply String.eqb_eq in Heq. subst r.
        apply contains_In in Hlr.
        split; [exact Hname | right; exists l; auto].
      * intros [_ [Hnil | (profile & H1 & H2 & H3)]]; [discriminate|].
        exists profile. split; [exact H1|].
        apply existsb_exists. exists profile. split; [exact H2|].
        rewrite String.eqb_refl. cbn [negb]. now apply contains_In.
  - apply String.eqb_neq in Hname. split; [discriminate | intros [H _]; contradiction].
Qed.

(* --------------------------------------------------------------------- *)
(** *** Manager: the cache of services and objects *)

Lemma setOwner_lookup_path (path serv intf : string) (isOwned : bool)
    (tree : gmap string (gmap string (bool * list string))) :
  Manager.setOwner path serv intf isOwned tree !! path
  = Some (<[serv := setOwner_named serv intf isOwned (default ∅ (tree !! path))]>
            (default ∅ (tree !! path))).
Proof.
  unfold Manager.setOwner. cbv zeta.
  rewrite map_lookup_imap, lookup_insert_eq. cbn [mbind option_bind].
  rewrite String.eqb_refl. unfold setOwner_named. cbv zeta. cbn [fst snd].
  destruct (contains _ intf); reflexivity.
Qed.

Lemma setOwner_lookup_other (path serv intf : string) (isOwned : bool)
    (tree : gmap string (gmap string (bool * list string))) (p : string) :
  p <> path ->
  Manager.setOwner path serv intf isOwned tree !! p
  = map_imap (fun itServ entry =>
                Some (Manager.setOwner_entry serv intf isOwned itServ entry))
      <$> tree !! p.
Proof.
  intros Hp. unfold Manager.setOwner. cbv zeta.
  rewrite map_lookup_imap, lookup_insert_ne by congruence.
  destruct (tree !! p) as [services|]; [|reflexivity].
  cbn [mbind option_bind fmap option_fmap option_map].
  apply String.eqb_neq in Hp. rewrite Hp. reflexivity.
Qed.

(** C5.  After [setOwner path serv intf isOwned] the entry of [path] and
    [serv] exists, lists [intf] and has the owned flag [isOwned]; and every
    entry of the cache, at whatever path, whose service is [serv] and whose
    interfaces hold [intf] has the owned flag [isOwned]. *)
Theorem C5_setOwner_cascade (path serv intf : string) (isOwned : bool)
    (tree : gmap string (gmap string (bool * list string))) :
  (exists services intfs,
      Manager.setOwner path serv intf isOwned tree !! path = Some services
      /\ services !! serv = Some (isOwned, intfs)
      /\ In intf intfs)
  /\ (forall (p : string) (services : gmap string (bool * list string))
             (owned : bool) (intfs : list string),
        Manager.setOwner path serv intf isOwned tree !! p = Some services ->
        services !! serv = Some (owned, intfs) ->
        In intf intfs ->
        owned = isOwned).
Proof.
  split.
  - eexists. eexists. split; [apply setOwner_lookup_path|].
    rewrite lookup_insert_eq. unfold setOwner_named. cbv zeta.
    split; [reflexivity|].
    destruct (contains _ intf) eqn:Hc.
    + now apply contains_In.
    + apply in_or_app. right. now left.
  - intros p services owned intfs Hp Hs Hin.
    destruct (decide (p = path)) as [->|Hne].
    + rewrite setOwner_lookup_path in Hp. inversion Hp; subst services.
      rewrite lookup_insert_eq in Hs. unfold setOwner_named in Hs.
      cbv zeta in Hs. now inversion Hs.
    + rewrite setOwner_lookup_other in Hp by exact Hne.
      destruct (tree !! p) as [cached|]; [|discriminate].
      cbn in Hp. inversion Hp; subst services. clear Hp.
      rewrite map_lookup_imap in Hs.
      destruct (cached !! serv) as [entry|]; [|discriminate].
      cbn [mbind option_bind] in Hs. unfold Manager.setOwner_entry in Hs.
      rewrite String.eqb_refl in Hs. cbn [negb] in Hs.
      destruct (contains entry.2 intf) eqn:Hc.
      * now inversion Hs.
      * inversion Hs as [He]. rewrite He in Hc. cbn [snd] in Hc.
        apply contains_In in Hin. congruence.
Qed.

Lemma C5_setOwner_cascade_witness :
  let tree' :=
    Manager.setOwner Samples.fan0_path Samples.hwmon Samples.sensor_intf false
      Samples.two_fans_tree in
  tree' !! Samples.fan1_path = Some {[Samples.hwmon := (false, [Samples.sensor_intf])]}
  /\ ({[Samples.hwmon := (false, [Samples.sensor_intf])]}
        : gmap string (bool * list string)) !! Samples.hwmon
     = Some (false, [Samples.sensor_intf])
  /\ In Samples.sensor_intf [Samples.sensor_intf]
  /\ false = false.
Proof.
  cbv zeta.
  assert (H1 : Manager.setOwner Samples.fan0_path Samples.hwmon Samples.sensor_intf
                 false Samples.two_fans_tree !! Samples.fan1_path
               = Some {[Samples.hwmon := (false, [Samples.sensor_intf])]})
    by (vm_compute; reflexivity).
  assert (H2 : ({[Samples.hwmon := (false, [Samples.sensor_intf])]}
                  : gmap string (bool * list string)) !! Samples.hwmon
               = Some (false, [Samples.sensor_intf]))
    by (vm_compute; reflexivity).
  assert (H3 : In Samples.sensor_intf [Samples.sensor_intf]) by (left; reflexivity).
  refine (conj H1 (conj H2 (conj H3 _))).
  exact (proj2 (C5_setOwner_cascade Samples.fan0_path Samples.hwmon
                  Samples.sensor_intf false Samples.two_fans_tree)
               Samples.fan1_path _ false _ H1 H2 H3).
Defined.

Lemma foldl_fixed {A B} (f : A -> B -> A) (a : A) (l : list B) :
  (forall x, x ∈ l -> f a x = a) -> foldl f a l = a.
Proof.
  induction l as [|x l IH]; intros H; cbn; [reflexivity|].
  rewrite (H x) by (left; reflexivity).
  apply IH. intros y Hy. apply H. now right.
Qed.

Lemma elem_of_in_key_order {A} (m : gmap string A) (x : string * A) :
  x ∈ in_key_order m -> m !! x.1 = Some x.2.
Proof.
  unfold in_key_order. rewrite merge_sort_Permutation.
  destruct x as [k a]. apply elem_of_map_to_list.
Qed.

(** Walking a cached interface against itself changes nothing. *)
Lemma addObjects_properties_id {V} (itIntf : gmap string V) :
  foldl Manager.addObjects_property itIntf (in_key_order itIntf) = itIntf.
Proof.
  apply foldl_fixed. intros property Hin.
  apply elem_of_in_key_order in Hin.
  unfold Manager.addObjects_property. rewrite Hin.
  now apply insert_id.
Qed.

Lemma addObjects_interfaces_id {V} (itPath : gmap string (gmap string V)) :
  foldl Manager.addObjects_interface itPath (in_key_order itPath) = itPath.
Proof.
  apply foldl_fixed. intros interface Hin.
  apply elem_of_in_key_order in Hin.
  unfold Manager.addObjects_interface. rewrite Hin.
  rewrite addObjects_properties_id. now apply insert_id.
Qed.

(** For a path the cache holds already, the body of the loop of
    [Manager::addObjects] leaves the cache as it was, whatever the managed
    object fetched for that path holds. *)
Lemma addObjects_object_cached {V}
    (objects : gmap string (gmap string (gmap string V)))
    (path : string) (fetched itPath : gmap string (gmap string V)) :
  objects !! path = Some itPath ->
  Manager.addObjects_object objects (path, fetched) = objects.
Proof.
  intros H. unfold Manager.addObjects_object. cbn [fst snd].
  rewrite H, addObjects_interfaces_id. now apply insert_id.
Qed.

Lemma addObjects_object_new {V}
    (objects : gmap string (gmap string (gmap string V)))
    (path : string) (fetched : gmap string (gmap string V)) :
  objects !! path = None ->
  Manager.addObjects_object objects (path, fetched) = <[path := fetched]> objects.
Proof.
  intros H. unfold Manager.addObjects_object. cbn [fst snd].
  now rewrite H.
Qed.

(** C6 (the code at the failing input).  The service of the first sensor
    exposes an object manager, whose managed objects hold the value 2000
    and a further property [Unit] for the sensor cached with the value
    1000, and a second sensor the cache does not hold.  After
    [addObjects] the cached value is still 1000 and [Unit] is absent: the
    fetched object of a cached path is not merged.  The second sensor is
    inserted whole. *)
Theorem C6_addObjects_keeps_cached_path :
  let '(cache, r) :=
    Manager.addObjects Samples.managed_bus Samples.fan0_path Samples.sensor_intf
      "Value" Samples.managed_cache in
  r = Ok tt
  /\ Manager.getProperty Samples.fan0_path Samples.sensor_intf "Value"
       Samples.fetched_objects = Some 2000
  /\ Manager.getProperty Samples.fan0_path Samples.sensor_intf "Value"
       (Manager._objects cache) = Some 1000
  /\ Manager.getProperty Samples.fan0_path Samples.sensor_intf "Unit"
       Samples.fetched_objects = Some 7
  /\ Manager.getProperty Samples.fan0_path Samples.sensor_intf "Unit"
       (Manager._objects cache) = None
  /\ Manager.getProperty Samples.fan1_path Samples.sensor_intf "Value"
       (Manager._objects cache) = Some 3000.
Proof. vm_compute. repeat split. Qed.

(* --------------------------------------------------------------------- *)
(** *** Manager: reload *)

(** Unfolding of the operations of [Manager.M]. *)
Ltac unM :=
  unfold mbind, Manager.M_bind, Manager.bindM, Manager.modify, Manager.get,
    Manager.lift, Manager.ret, Manager.throw, Manager.try_catch_runtime_error,
    Manager.loadEvents in *.

Section Reload.

Context {Event : Type}.
Implicit Types (m : Manager.t Event) (env : Manager.LoadEnv Event).

Lemma same_live_refl m : same_live m m.
Proof. repeat split. Qed.

Lemma same_live_trans m1 m2 m3 :
  same_live m1 m2 -> same_live m2 m3 -> same_live m1 m3.
Proof. unfold same_live. intuition congruence. Qed.

Lemma emplaceProfiles_same_live (entries : list (result Manager.Profile)) :
  forall m, same_live (Manager.emplaceProfiles entries m).1 m.
Proof.
  induction entries as [|entry rest IH]; intros m; cbn [Manager.emplaceProfiles].
  - apply same_live_refl.
  - unM. destruct entry as [obj|e]; [|apply same_live_refl].
    eapply same_live_trans; [apply IH|]. repeat split.
Qed.

Lemma setProfiles_same_live env m :
  same_live (Manager.setProfiles env m).1 m.
Proof.
  unfold Manager.setProfiles. unM.
  destruct (Manager.profilesConfFile env) as [confFile|e];
    [|apply same_live_refl].
  destruct (String.eqb confFile ""); [repeat split|].
  destruct (Manager.profilesConf env confFile) as [entries|e];
    [|repeat split].
  pose proof (emplaceProfiles_same_live entries (Manager.set_profiles [] m)) as H.
  destruct (Manager.emplaceProfiles entries (Manager.set_profiles [] m))
    as [m1 [[]|e]]; cbn [fst] in *;
    (eapply same_live_trans; [|exact H]); repeat split.
Qed.

Lemma enableAll_total {A} (enable : A -> result A) (c : list (Manager.configKey * A)) :
  (forall a, is_Ok (enable a) = true) ->
  (Manager.enableAll enable c).2 = Ok tt.
Proof.
  intros Hen. induction c as [|[k a] rest IH]; cbn; [reflexivity|].
  specialize (Hen a). destruct (enable a) as [a'|e]; [|discriminate].
  destruct (Manager.enableAll enable rest) as [rest' r]. exact IH.
Qed.

(** A [std::runtime_error] that leaves [load] while the configuration is
    staged leaves everything but the profiles as it was. *)
Lemma load_runtime_error_same_live env m m1 (what : string) :
  Manager._loadAllowed m = true ->
  (forall z, is_Ok (Manager.zoneEnable env z) = true) ->
  (forall e, is_Ok (Manager.eventEnable env e) = true) ->
  Manager.load env m = (m1, Throw (runtime_error what)) ->
  same_live m1 m.
Proof.
  intros Hallowed Hzone Hevent. unfold Manager.load. unM. rewrite Hallowed.
  pose proof (setProfiles_same_live env m) as Hsp.
  destruct (Manager.setProfiles env m) as [mp [[]|e]]; cbn [fst] in Hsp.
  2:{ intros H. inversion H; subst. exact Hsp. }
  destruct (Manager.zonesConf env (Manager._activeProfiles mp)) as [zones0|e].
  2:{ intros H. inversion H; subst. exact Hsp. }
  destruct (Manager.fansConf env (Manager._activeProfiles mp)) as [fans|e].
  2:{ intros H. inversion H; subst. exact Hsp. }
  cbv zeta.
  destruct (Manager.eventsConf env _) as [groups [events|e]].
  - pose proof (enableAll_total (Manager.zoneEnable env)) as Hz.
    cbn [Manager._zones Manager.set_zones Manager.set_allGroups].
    match goal with |- context [Manager.enableAll (Manager.zoneEnable env) ?c] =>
      specialize (Hz c Hzone);
      destruct (Manager.enableAll (Manager.zoneEnable env) c) as [zs rz] end.
    cbn [snd] in Hz. subst rz.
    pose proof (enableAll_total (Manager.eventEnable env)) as He.
    cbn [Manager._events Manager.set_events Manager.set_signals
         Manager.set_timers Manager.set_zones].
    match goal with |- context [Manager.enableAll (Manager.eventEnable env) ?c] =>
      specialize (He c Hevent);
      destruct (Manager.enableAll (Manager.eventEnable env) c) as [es re] end.
    cbn [snd] in He. subst re. discriminate.
  - destruct e as [w|w]; cbn [is_runtime_error]; intros H; inversion H; subst.
    eapply same_live_trans; [|exact Hsp]. repeat split.
Qed.

Lemma sighupHandler_unfold env m :
  Manager.sighupHandler env m
  = match Manager.load env (reload_start m) with
    | (m1, Throw e) =>
        if is_runtime_error e
        then (Manager.set_activeProfiles (Manager._activeProfiles m)
                (Manager.set_profiles (Manager._profiles m)
                   (Manager.set_loadAllowed false m1)), Ok tt)
        else (m1, Throw e)
    | r => r
    end.
Proof.
  unfold Manager.sighupHandler. unM. unfold reload_start.
  cbn [Manager._activeProfiles Manager.set_profiles].
  destruct (Manager.load env _) as [m1 [[]|e]]; [reflexivity|].
  destruct (is_runtime_error e); reflexivity.
Qed.

(** C3 (as amended).  When the [load] of a reload throws a
    [std::runtime_error] while the profiles, zones, fans or events are
    loaded (the enabling of zones and events, which comes after the staged
    zones are moved into place, does not throw), [sighupHandler] returns
    normally with the profiles, the active profiles, the registered
    groups, the zones and the events as they were before the reload, and
    with loading disallowed: a further [load] changes nothing. *)
Theorem C3_reload_keeps_configuration env m m1 (what : string) :
  (forall z, is_Ok (Manager.zoneEnable env z) = true) ->
  (forall e, is_Ok (Manager.eventEnable env e) = true) ->
  Manager.load env (reload_start m) = (m1, Throw (runtime_error what)) ->
  let m' := (Manager.sighupHandler env m).1 in
  (Manager.sighupHandler env m).2 = Ok tt
  /\ Manager._profiles m' = Manager._profiles m
  /\ Manager._activeProfiles m' = Manager._activeProfiles m
  /\ Manager.allGroups m' = Manager.allGroups m
  /\ Manager._zones m' = Manager._zones m
  /\ Manager._events m' = Manager._events m
  /\ Manager._loadAllowed m' = false
  /\ (forall env', Manager.load env' m' = (m', Ok tt)).
Proof.
  intros Hzone Hevent Hload. cbv zeta.
  rewrite sighupHandler_unfold, Hload. cbn [is_runtime_error fst snd].
  apply load_runtime_error_same_live in Hload; [|reflexivity|assumption..].
  destruct Hload as (Hz & He & _ & _ & _ & Hg).
  repeat split; try assumption.
Qed.

End Reload.

Lemma C3_reload_keeps_configuration_witness :
  let env := Samples.malformed_events_env in
  let m := Samples.live_manager in
  let m' := (Manager.sighupHandler env m).1 in
  (Manager.load env (reload_start m)).2
    = Throw (runtime_error "Failed to parse JSON config file")
  /\ (Manager.sighupHandler env m).2 = Ok tt
  /\ Manager._profiles m' = Manager._profiles m
  /\ Manager._activeProfiles m' = Manager._activeProfiles m
  /\ Manager.allGroups m' = Manager.allGroups m
  /\ Manager._zones m' = Manager._zones m
  /\ Manager._events m' = Manager._events m
  /\ Manager._loadAllowed m' = false
  /\ (forall env', Manager.load env' m' = (m', Ok tt)).
Proof.
  cbv zeta. split; [vm_compute; reflexivity|].
  apply (C3_reload_keeps_configuration Samples.malformed_events_env
           Samples.live_manager
           (Manager.load Samples.malformed_events_env
              (reload_start Samples.live_manager)).1
           "Failed to parse JSON config file").
  - intros z. reflexivity.
  - intros e. reflexivity.
  - vm_compute. reflexivity.
Defined.

(** C3 (counterexample to the claim as stated).  A reload whose [load]
    throws an exception that is not a [std::runtime_error]: the exception
    leaves [sighupHandler], the profiles and the active profiles are those
    of the new configuration and not the ones before the reload, and
    loading is still allowed. *)
Lemma C3_reload_other_exception :
  let env := Samples.type_error_env in
  let m := Samples.live_manager in
  let '(m', r) := Manager.sighupHandler env m in
  (Manager.load env (reload_start m)).2
    = Throw (other_exception "type must be number, but is string")
  /\ r = Throw (other_exception "type must be number, but is string")
  /\ Manager._profiles m' <> Manager._profiles m
  /\ Manager._activeProfiles m' <> Manager._activeProfiles m
  /\ Manager._loadAllowed m' = true.
Proof.
  vm_compute. repeat split; discriminate.
Qed.

(* --------------------------------------------------------------------- *)
(** *** Manager: power state *)

Lemma Forall2_poweron_targets (zones : list (Manager.configKey * Zone.t)) :
  Forall2 (fun before after : Manager.configKey * Zone.t =>
             after.1 = before.1
             /\ Zone._target after.2 = Zone._poweronTarget before.2)
    zones
    (map (fun entry : Manager.configKey * Zone.t =>
            (entry.1, Zone.setTarget (Zone.getPoweronTarget entry.2) entry.2))
       zones).
Proof.
  induction zones as [|entry rest IH]; cbn [map]; constructor.
  - split; reflexivity.
  - exact IH.
Qed.

(** C8.  [powerStateChanged true] with no zone throws (the fatal error) and
    changes nothing; with at least one zone it returns normally, every
    zone has its power-on target as target, in the same container order
    and under the same keys, and every event has had [powerOn] called.
    [powerStateChanged false] returns normally, every event has had
    [powerOff] called and the zones are as they were. *)
Theorem C8_powerStateChanged {Event : Type} (powerOn powerOff : Event -> Event)
    (m : Manager.t Event) :
  let on := Manager.powerStateChanged powerOn powerOff true m in
  let off := Manager.powerStateChanged powerOn powerOff false m in
  match Manager._zones m with
  | [] => on = (m, Throw (runtime_error "No configured zones found at poweron"))
  | _ :: _ =>
      on.2 = Ok tt
      /\ Forall2 (fun before after : Manager.configKey * Zone.t =>
                    after.1 = before.1
                    /\ Zone._target after.2 = Zone._poweronTarget before.2)
           (Manager._zones m) (Manager._zones on.1)
      /\ Manager._events on.1
         = map (fun entry : Manager.configKey * Event => (entry.1, powerOn entry.2))
             (Manager._events m)
  end
  /\ off.2 = Ok tt
  /\ Manager._zones off.1 = Manager._zones m
  /\ Manager._events off.1
     = map (fun entry : Manager.configKey * Event => (entry.1, powerOff entry.2))
         (Manager._events m).
Proof.
  cbv zeta. unfold Manager.powerStateChanged. unM. split.
  - destruct (Manager._zones m) as [|zone rest] eqn:Hz; [reflexivity|].
    cbn [fst snd Manager._zones Manager.set_zones Manager.set_events
         Manager._events].
    rewrite Hz. repeat split. apply Forall2_poweron_targets.
  - repeat split.
Qed.

(* --------------------------------------------------------------------- *)
(** *** Fan monitor *)

Lemma timerExpired_sensors (sensor : nat) (is_method_error : bool) (fan : Monitor.Fan) :
  Monitor._sensors (Monitor.timerExpired sensor is_method_error fan).1
  = alter (Monitor.setFunctional false) sensor (Monitor._sensors fan).
Proof.
  unfold Monitor.timerExpired, Monitor.updateInventory. cbv zeta.
  destruct (_ && _); [destruct is_method_error|]; reflexivity.
Qed.

(** C7 (as amended).  On expiry of the timer of a sensor of the fan, the
    sensor is marked nonfunctional and the others are left as they were.
    With [failed] the number of nonfunctional sensors after that: a Notify
    of [Functional = false] is sent to the inventory exactly when the fan
    was functional and [failed] is at least the fan's threshold; the fan
    goes from functional to nonfunctional exactly when, in addition, the
    response to that Notify is not a method error; and when [failed] is
    below the threshold the fan's functional state is unchanged. *)
Theorem C7_timerExpired (sensor : nat) (is_method_error : bool) (fan : Monitor.Fan) :
  (sensor < length (Monitor._sensors fan))%nat ->
  let fan' := (Monitor.timerExpired sensor is_method_error fan).1 in
  let calls := (Monitor.timerExpired sensor is_method_error fan).2 in
  let failed := Monitor.numFailed fan' in
  let threshold := Monitor._numSensorFailsForNonFunc fan in
  (Monitor.sensor_functional <$> Monitor._sensors fan' !! sensor) = Some false
  /\ (forall other, other <> sensor ->
        Monitor._sensors fan' !! other = Monitor._sensors fan !! other)
  /\ (calls = [Monitor.mkNotify (Monitor._name fan) false is_method_error]
      <-> Monitor._functional fan = true /\ (threshold <= failed)%nat)
  /\ (calls = []
      <-> ~ (Monitor._functional fan = true /\ (threshold <= failed)%nat))
  /\ (Monitor._functional fan = true /\ Monitor._functional fan' = false
      <-> Monitor._functional fan = true /\ (threshold <= failed)%nat
          /\ is_method_error = false)
  /\ ((failed < threshold)%nat ->
      Monitor._functional fan' = Monitor._functional fan).
Proof.
  intros Hlt. cbv zeta.
  pose proof (timerExpired_sensors sensor is_method_error fan) as Hs.
  assert (Hn : Monitor.numFailed (Monitor.timerExpired sensor is_method_error fan).1
               = Monitor.count_if (fun s => negb (Monitor.sensor_functional s))
                   (alter (Monitor.setFunctional false) sensor (Monitor._sensors fan))).
  { unfold Monitor.numFailed. now rewrite Hs. }
  rewrite Hn, Hs. clear Hn Hs.
  split; [|split].
  - rewrite list_lookup_alter_eq.
    destruct (lookup_lt_is_Some_2 _ _ Hlt) as [s Hsome]. now rewrite Hsome.
  - intros other Hne. now rewrite list_lookup_alter_ne by congruence.
  - unfold Monitor.timerExpired, Monitor.updateInventory,
      Monitor.tooManySensorsNonfunctional, Monitor.numFailed. cbv zeta.
    cbn [Monitor._functional Monitor.set_sensors Monitor._sensors
         Monitor._numSensorFailsForNonFunc Monitor._name].
    set (failed := Monitor.count_if _ _).
    destruct (Monitor._functional fan) eqn:Hf;
      destruct (Nat.leb_spec (Monitor._numSensorFailsForNonFunc fan) failed) as [Hle|Hgt];
      destruct is_method_error;
      cbn [andb fst snd Monitor._functional Monitor.set_functional
           Monitor.set_sensors];
      repeat split; intros;
      cbn [Monitor._functional Monitor.set_functional Monitor.set_sensors] in *;
      intuition (try congruence; try lia).
Qed.

Lemma C7_timerExpired_witness :
  let fan' := (Monitor.timerExpired 1 false Samples.s5_fan).1 in
  (1 < length (Monitor._sensors Samples.s5_fan))%nat
  /\ (Monitor.sensor_functional <$> Monitor._sensors fan' !! 1%nat) = Some false
  /\ Monitor._functional Samples.s5_fan = true
  /\ Monitor._functional fan' = false.
Proof.
  cbv zeta.
  assert (Hlt : (1 < length (Monitor._sensors Samples.s5_fan))%nat) by (cbn; lia).
  destruct (C7_timerExpired 1 false Samples.s5_fan Hlt)
    as (Hmarked & _ & _ & _ & Htransition & _).
  refine (conj Hlt (conj Hmarked _)).
  apply Htransition. repeat split. cbn. lia.
Defined.

(** C7 (counterexample to the claim as stated).  The fan of scenario S5,
    functional, with one sensor failed already; the timer of a second
    sensor expires and the response to the Notify is a method error.  Two
    sensors are nonfunctional, which is the threshold, the Notify of
    [Functional = false] has been sent, and the fan is functional still:
    it does not go nonfunctional exactly when it was functional and the
    threshold is reached. *)
Lemma C7_method_error_keeps_functional :
  let fan := Samples.s5_fan in
  let fan' := (Monitor.timerExpired 1 true fan).1 in
  (Monitor.timerExpired 1 true fan).2 = [Monitor.mkNotify "fan0" false true]
  /\ ~ (Monitor._functional fan = true /\ Monitor._functional fan' = false
        <-> Monitor._functional fan = true
            /\ (Monitor._numSensorFailsForNonFunc fan <= Monitor.numFailed fan')%nat).
Proof.
  cbv zeta. split; [reflexivity|].
  intros [_ H].
  assert (Hreached : Monitor._functional Samples.s5_fan = true
                     /\ (Monitor._numSensorFailsForNonFunc Samples.s5_fan
                         <= Monitor.numFailed
                              (Monitor.timerExpired 1 true Samples.s5_fan).1)%nat)
    by (split; [reflexivity | cbn; lia]).
  destruct (H Hreached) as [_ Hfalse]. cbn in Hfalse. discriminate.
Qed.

Lemma updateInventory_run_functional (calls : list (bool * bool)) :
  forall fan,
    Monitor._functional (Monitor.updateInventory_run calls fan)
    = Monitor.last_published (Monitor._functional fan) calls.
Proof.
  induction calls as [|[functional is_method_error] rest IH]; intros fan;
    cbn [Monitor.updateInventory_run Monitor.last_published]; [reflexivity|].
  rewrite IH. unfold Monitor.updateInventory.
  destruct is_method_error; reflexivity.
Qed.

(** C10.  [updateInventory functional] sends one Notify with the value
    [functional]; when the response is a method error the fan is left as
    it was, and otherwise only its [_functional] flag changes and becomes
    [functional].  So after any run of such calls the flag is the value of
    the last Notify that succeeded (or the flag before the run when none
    did). *)
Theorem C10_updateInventory (functional is_method_error : bool) (fan : Monitor.Fan) :
  let fan' := (Monitor.updateInventory functional is_method_error fan).1 in
  (Monitor.updateInventory functional is_method_error fan).2
    = [Monitor.mkNotify (Monitor._name fan) functional is_method_error]
  /\ (if is_method_error then fan' = fan
      else fan' = Monitor.set_functional functional fan
           /\ Monitor._functional fan' = functional)
  /\ (forall calls : list (bool * bool),
        Monitor._functional (Monitor.updateInventory_run calls fan)
        = Monitor.last_published (Monitor._functional fan) calls).
Proof.
  cbv zeta. unfold Monitor.updateInventory.
  split; [|split].
  - destruct is_method_error; reflexivity.
  - destruct is_method_error; [reflexivity | split; reflexivity].
  - intros calls. apply updateInventory_run_functional.
Qed.

(* --------------------------------------------------------------------- *)
(** *** Zone: the constructor *)

Lemma setProperties_frame propFuncs properties :
  forall z z', Zone.setProperties propFuncs properties z = Ok z' ->
               Zone.set_zoneHandlers [] z' = Zone.set_zoneHandlers [] z.
Proof.
  induction properties as [|property rest IH]; intros z z' H;
    cbn [Zone.setProperties] in H.
  - now inversion H.
  - destruct (Zone.pj_name property) as [name|]; [|discriminate].
    destruct (Zone.find_key name propFuncs) as [propFunc|]; [|discriminate].
    destruct (propFunc property _) as [zHandler|]; apply IH in H; exact H.
Qed.

Lemma setInterfaces_frame interfaces :
  forall z z', Zone.setInterfaces interfaces z = Ok z' ->
               Zone.set_zoneHandlers [] z' = Zone.set_zoneHandlers [] z.
Proof.
  induction interfaces as [|interface rest IH]; intros z z' H;
    cbn [Zone.setInterfaces] in H.
  - now inversion H.
  - destruct (Zone.ij_name interface) as [name|]; [|discriminate].
    destruct (Zone.ij_properties interface) as [properties|]; [|discriminate].
    destruct (Zone.find_key name Zone._intfPropHandlers) as [propFuncs|];
      [|discriminate].
    destruct (Zone.setProperties propFuncs properties z) as [z1|e] eqn:Hp;
      [|discriminate].
    apply IH in H. rewrite H. eapply setProperties_frame; eauto.
Qed.

Lemma create_postcondition (jsonObj : Zone.ZoneJson) (z : Zone.t) :
  Zone.create jsonObj = Ok z ->
  exists full_speed default_floor decrease_interval,
    Zone.j_full_speed jsonObj = Some full_speed
    /\ Zone.j_default_floor jsonObj = Some default_floor
    /\ Zone.j_decrease_interval jsonObj = Some decrease_interval
    /\ Zone.set_zoneHandlers [] z
       = Zone.mkZone (Zone.j_name jsonObj) (default [] (Zone.j_profiles jsonObj))
           (u64 full_speed) (u64 default_floor) (u64 default_floor) (u64 full_speed)
           0 (u64 (default 0 (Zone.j_increase_delay jsonObj)))
           (u64 decrease_interval) ∅ ∅ [] [].
Proof.
  unfold Zone.create, Zone.setFullSpeed, Zone.setDefaultFloor, Zone.setDecInterval.
  destruct (Zone.j_full_speed jsonObj) as [fs|]; [|discriminate].
  destruct (Zone.j_default_floor jsonObj) as [df|]; [|discriminate].
  destruct (Zone.j_decrease_interval jsonObj) as [di|]; [|discriminate].
  cbn [Zone.bind]. intros H. exists fs, df, di. repeat split.
  assert (Hd : match Zone.j_increase_delay jsonObj with
               | Some d => u64 d | None => 0 end
               = u64 (default 0 (Zone.j_increase_delay jsonObj)))
    by (destruct (Zone.j_increase_delay jsonObj); reflexivity).
  rewrite Hd in H.
  destruct (Zone.j_interfaces jsonObj) as [interfaces|].
  - apply setInterfaces_frame in H. rewrite H. reflexivity.
  - inversion H. reflexivity.
Qed.

(** X1.  A zone the constructor returns was given all of [full_speed],
    [default_floor] and [decrease_interval]; its target is the full speed,
    its floor the default floor, its increase delay the configured one or
    zero, and it has no fan, no floor-change entry and no persisted
    property: apart from the handlers of the configured interfaces it is
    this zone. *)
Theorem X1_create_fields (jsonObj : Zone.ZoneJson) (z : Zone.t) :
  Zone.create jsonObj = Ok z ->
  exists full_speed default_floor decrease_interval,
    Zone.j_full_speed jsonObj = Some full_speed
    /\ Zone.j_default_floor jsonObj = Some default_floor
    /\ Zone.j_decrease_interval jsonObj = Some decrease_interval
    /\ Zone.set_zoneHandlers [] z
       = Zone.mkZone (Zone.j_name jsonObj) (default [] (Zone.j_profiles jsonObj))
           (u64 full_speed) (u64 default_floor) (u64 default_floor) (u64 full_speed)
           0 (u64 (default 0 (Zone.j_increase_delay jsonObj)))
           (u64 decrease_interval) ∅ ∅ [] [].
Proof. apply create_postcondition. Qed.

Lemma X1_create_fields_witness :
  exists z, Zone.create Samples.thermal_json = Ok z
            /\ Zone._target z = 255 /\ Zone._floor z = 80
            /\ Zone._incDelay z = 0 /\ Zone._profiles z = ["rainier"].
Proof.
  eexists. split; [reflexivity|].
  destruct (X1_create_fields Samples.thermal_json _ eq_refl)
    as (fs & df & di & Hfs & Hdf & Hdi & Hz).
  apply (f_equal (fun z => (Zone._target z, Zone._floor z, Zone._incDelay z,
                            Zone._profiles z))) in Hz.
  cbn in Hz. inversion Hfs; inversion Hdf; subst.
  inversion Hz. repeat split.
Defined.

Lemma setProperties_accepts (properties : list Zone.PropertyJson) :
  forall z,
    is_Ok (Zone.setProperties
             [(Zone.currentProp, Zone.current); (Zone.supportedProp, Zone.supported)]
             properties z) = true
    <-> Forall valid_property properties.
Proof.
  induction properties as [|property rest IH]; intros z;
    cbn [Zone.setProperties].
  - split; [constructor | reflexivity].
  - unfold valid_property at 1.
    destruct (Zone.pj_name property) as [name|] eqn:Hname.
    2:{ split; [discriminate|]. intros H. inversion H as [|? ? Hv]; subst.
        unfold valid_property in Hv. rewrite Hname in Hv.
        destruct Hv; discriminate. }
    cbn [Zone.find_key].
    destruct (String.eqb name Zone.currentProp) eqn:Hc.
    { apply String.eqb_eq in Hc. subst name.
      destruct (Zone.current property _); rewrite IH; split;
        try (intros H; constructor;
             [unfold valid_property; rewrite Hname; now left | exact H]);
        intros H; now inversion H. }
    destruct (String.eqb name Zone.supportedProp) eqn:Hs.
    { apply String.eqb_eq in Hs. subst name.
      destruct (Zone.supported property _); rewrite IH; split;
        try (intros H; constructor;
             [unfold valid_property; rewrite Hname; now right | exact H]);
        intros H; now inversion H. }
    apply String.eqb_neq in Hc, Hs.
    split; [discriminate|]. intros H. inversion H as [|? ? Hv]; subst.
    unfold valid_property in Hv. rewrite Hname in Hv.
    destruct Hv as [Hv|Hv]; inversion Hv; congruence.
Qed.

Lemma setInterfaces_accepts (interfaces : list Zone.InterfaceJson) :
  forall z,
    is_Ok (Zone.setInterfaces interfaces z) = true
    <-> Forall valid_interface interfaces.
Proof.
  induction interfaces as [|interface rest IH]; intros z;
    cbn [Zone.setInterfaces].
  - split; [constructor | reflexivity].
  - destruct (Zone.ij_name interface) as [name|] eqn:Hname.
    2:{ split; [discriminate|]. intros H. inversion H as [|? ? [Hv _]]; subst.
        congruence. }
    destruct (Zone.ij_properties interface) as [properties|] eqn:Hprops.
    2:{ split; [discriminate|]. intros H.
        inversion H as [|? ? [_ (ps & Hv & _)]]; subst. congruence. }
    unfold Zone._intfPropHandlers. cbn [Zone.find_key].
    destruct (String.eqb name Zone.thermModeIntf) eqn:Ht.
    + apply String.eqb_eq in Ht. subst name.
      pose proof (setProperties_accepts properties z) as Hp.
      destruct (Zone.setProperties _ properties z) as [z1|e]; cbn [is_Ok] in *.
      * rewrite IH. split.
        -- intros H. constructor; [|exact H].
           split; [exact Hname|]. exists properties. split; [exact Hprops|].
           now apply Hp.
        -- intros H. now inversion H.
      * split; [discriminate|]. intros H.
        inversion H as [|? ? [_ (ps & Hv & Hall)]]; subst.
        rewrite Hprops in Hv. inversion Hv; subst ps.
        apply Hp in Hall. discriminate.
    + apply String.eqb_neq in Ht. split; [discriminate|]. intros H.
      inversion H as [|? ? [Hv _]]; subst. congruence.
Qed.

(** X2.  A zone the constructor returns was configured with
    [full_speed], [default_floor] and [decrease_interval], and with no
    interface but the thermal mode interface, each one given with its
    name and its properties, and each property given with a name that is
    [Current] or [Supported]: a configuration that fails one of these is
    refused. *)
Theorem X2_create_refuses (jsonObj : Zone.ZoneJson) (z : Zone.t) :
  Zone.create jsonObj = Ok z ->
  is_Some (Zone.j_full_speed jsonObj)
  /\ is_Some (Zone.j_default_floor jsonObj)
  /\ is_Some (Zone.j_decrease_interval jsonObj)
  /\ Forall valid_interface (default [] (Zone.j_interfaces jsonObj)).
Proof.
  unfold Zone.create, Zone.setFullSpeed, Zone.setDefaultFloor, Zone.setDecInterval.
  destruct (Zone.j_full_speed jsonObj) as [fs|]; [|discriminate].
  destruct (Zone.j_default_floor jsonObj) as [df|]; [|discriminate].
  destruct (Zone.j_decrease_interval jsonObj) as [di|]; [|discriminate].
  cbn [Zone.bind]. intros H.
  split; [eauto|]. split; [eauto|]. split; [eauto|].
  destruct (Zone.j_interfaces jsonObj) as [interfaces|]; cbn [default from_option id];
    [|constructor].
  apply (setInterfaces_accepts interfaces) with (z := Zone.set_decInterval (u64 di)
      (Zone.set_floor (u64 df) (Zone.set_defaultFloor (u64 df)
         (Zone.set_target (u64 fs) (Zone.set_fullSpeed (u64 fs)
            (Zone.mkZone (Zone.j_name jsonObj) (default [] (Zone.j_profiles jsonObj))
               0 0 0 0 0
               (match Zone.j_increase_delay jsonObj with Some d => u64 d | None => 0 end)
               0 ∅ ∅ [] [])))))).
  now rewrite H.
Qed.

Lemma X2_create_refuses_witness :
  exists z,
    Zone.create Samples.thermal_json = Ok z
    /\ Forall valid_interface (default [] (Zone.j_interfaces Samples.thermal_json)).
Proof.
  eexists. split; [reflexivity|].
  exact (proj2 (proj2 (proj2
           (X2_create_refuses Samples.thermal_json _ eq_refl)))).
Defined.

(* --------------------------------------------------------------------- *)
(** *** Zone: floor, persisted properties, thermal mode *)

Lemma floorChange_all_allowed (floorChange : gmap string bool) :
  forallb (fun entry : string * bool => entry.2) (map_to_list floorChange) = true
  <-> forall key, floorChange !! key <> Some false.
Proof.
  rewrite forallb_forall. split.
  - intros H key Hk. apply elem_of_map_to_list in Hk.
    apply list_elem_of_In in Hk. apply H in Hk. discriminate.
  - intros H [key b] Hin. apply list_elem_of_In in Hin.
    apply elem_of_map_to_list in Hin. destruct b; [reflexivity|].
    now apply H in Hin.
Qed.

(** X3.  [setFloor] leaves the zone untouched as soon as one entry of the
    floor-change map is false, and sets the floor to the given value when
    no entry is false (in particular when the map is empty). *)
Theorem X3_setFloor_gates (target : Z) (z : Zone.t) :
  ((exists key, Zone._floorChange z !! key = Some false) ->
   Zone.setFloor target z = z)
  /\ ((forall key, Zone._floorChange z !! key <> Some false) ->
      Zone._floor (Zone.setFloor target z) = target).
Proof.
  unfold Zone.setFloor. split.
  - intros [key Hk].
    destruct (forallb _ _) eqn:Hall; [|reflexivity].
    pose proof (proj1 (floorChange_all_allowed _) Hall key) as Hkey.
    contradiction.
  - intros H. apply (proj2 (floorChange_all_allowed _)) in H. rewrite H. cbv zeta.
    destruct (_ <? _); reflexivity.
Qed.

Lemma X3_setFloor_gates_witness :
  Zone.setFloor 120 Samples.gated_zone = Samples.gated_zone
  /\ Zone._floor (Zone.setFloor 120 Samples.cpu_zone) = 120.
Proof.
  split.
  - apply (X3_setFloor_gates 120 Samples.gated_zone).
    exists "missing_owner". vm_compute. reflexivity.
  - apply (X3_setFloor_gates 120 Samples.cpu_zone).
    intros key. vm_compute. discriminate.
Defined.

Lemma contains_singleton (x y : string) : contains [y] x = String.eqb x y.
Proof. unfold contains. cbn. apply orb_false_r. Qed.

Lemma setPersisted_keeps_isPersisted (intf prop intf' prop' : string) (z : Zone.t) :
  Zone.isPersisted intf' prop' (Zone.setPersisted intf prop z)
  = Zone.isPersisted intf' prop' z.
Proof.
  unfold Zone.isPersisted, Zone.setPersisted, Zone.propsPersisted_at.
  destruct (decide (intf' = intf)) as [->|Hne].
  - destruct (Zone._propsPersisted z !! intf) as [l|] eqn:Hl.
    + destruct (contains l prop) eqn:Hc; cbn; [|now rewrite Hl].
      rewrite lookup_insert_eq, contains_app, contains_singleton.
      destruct (String.eqb prop' prop) eqn:He; [|apply orb_false_r].
      apply String.eqb_eq in He. subst prop'. now rewrite Hc.
    + cbn. now rewrite lookup_insert_eq.
  - destruct (Zone._propsPersisted z !! intf) as [l|] eqn:Hl.
    + destruct (contains l prop); cbn; [|reflexivity].
      now rewrite lookup_insert_ne by congruence.
    + cbn. now rewrite lookup_insert_ne by congruence.
Qed.

(** X4.  [setPersisted] changes no answer of [isPersisted]: for every
    interface and property asked about, [isPersisted] returns after
    [setPersisted intf prop] what it returned before. *)
Theorem X4_setPersisted_isPersisted (intf prop intf' prop' : string) (z : Zone.t) :
  Zone.isPersisted intf' prop' (Zone.setPersisted intf prop z)
  = Zone.isPersisted intf' prop' z.
Proof. apply setPersisted_keeps_isPersisted. Qed.

(** A run of [setPersisted] calls. *)
Lemma setPersisted_run_isPersisted (calls : list (string * string)) :
  forall (z : Zone.t) (intf' prop' : string),
    Zone.isPersisted intf' prop'
      (foldl (fun z call => Zone.setPersisted call.1 call.2 z) z calls)
    = Zone.isPersisted intf' prop' z.
Proof.
  induction calls as [|call rest IH]; intros z intf' prop'; cbn [foldl];
    [reflexivity|].
  rewrite IH. apply setPersisted_keeps_isPersisted.
Qed.

Lemma create_propsPersisted (jsonObj : Zone.ZoneJson) (z : Zone.t) :
  Zone.create jsonObj = Ok z -> Zone._propsPersisted z = ∅.
Proof.
  intros H. apply create_postcondition in H.
  destruct H as (fs & df & di & _ & _ & _ & Hz).
  apply (f_equal Zone._propsPersisted) in Hz. exact Hz.
Qed.

(** X5.  On a zone the constructor has built, whatever [setPersisted]
    calls are made, [isPersisted] answers false for every interface and
    property, and so [Zone::current] never writes the [CurrentMode] file
    of the zone. *)
Theorem X5_current_mode_never_saved (jsonObj : Zone.ZoneJson) (z : Zone.t)
    (calls : list (string * string)) :
  Zone.create jsonObj = Ok z ->
  let z' := foldl (fun z call => Zone.setPersisted call.1 call.2 z) z calls in
  (forall intf prop, Zone.isPersisted intf prop z' = false)
  /\ (forall value thermal, (Zone.current_mode value z' thermal).2 = None).
Proof.
  intros Hc. cbv zeta.
  assert (Hno : forall intf prop,
             Zone.isPersisted intf prop
               (foldl (fun z call => Zone.setPersisted call.1 call.2 z) z calls)
             = false).
  { intros intf prop. rewrite setPersisted_run_isPersisted.
    unfold Zone.isPersisted. now rewrite (create_propsPersisted _ _ Hc). }
  split; [exact Hno|].
  intros value thermal. unfold Zone.current_mode. cbv zeta.
  rewrite Hno. destruct (_ && _); reflexivity.
Qed.

Lemma X5_current_mode_never_saved_witness :
  Zone.create Samples.cpu_json = Ok Samples.cpu_zone
  /\ (Zone.current_mode "custom"
        (Zone.setPersisted Zone.thermModeIntf Zone.currentProp Samples.cpu_zone)
        Samples.thermal_default)
     = (Zone.mkThermalObject "CUSTOM" ["default"; "Custom"], "CUSTOM", None).
Proof.
  split; [reflexivity|].
  pose proof (proj2 (X5_current_mode_never_saved Samples.cpu_json Samples.cpu_zone
                       [(Zone.thermModeIntf, Zone.currentProp)] eq_refl)
                "custom" Samples.thermal_default) as Hsaved.
  cbn [foldl fst snd] in Hsaved.
  destruct (Zone.current_mode "custom" _ Samples.thermal_default)
    as [[thermal' returned] saved] eqn:Hcall.
  cbn [snd] in Hsaved. subst saved.
  vm_compute in Hcall. inversion Hcall. reflexivity.
Defined.

Lemma toupper_idempotent (c : Ascii.ascii) :
  Zone.toupper (Zone.toupper c) = Zone.toupper c.
Proof. destruct c as [[] [] [] [] [] [] [] []]; reflexivity. Qed.

Lemma upper_idempotent (s : string) : Zone.upper (Zone.upper s) = Zone.upper s.
Proof.
  induction s as [|c s IH]; cbn [Zone.upper]; [reflexivity|].
  now rewrite toupper_idempotent, IH.
Qed.

(** X6.  [Zone::current value] returns the mode the thermal object holds
    after the call and never changes the supported modes.  The mode either
    stays as it was or becomes [value] in upper case, and the latter only
    when some supported mode equals [value] up to the case of letters.
    Writing the same value once more changes nothing and saves
    nothing, and the case of the letters of [value] makes no
    difference. *)
Theorem X6_current_mode (value : string) (z : Zone.t) (thermal : Zone.ThermalObject) :
  let thermal' := (Zone.current_mode value z thermal).1.1 in
  let returned := (Zone.current_mode value z thermal).1.2 in
  returned = Zone.thermal_current thermal'
  /\ Zone.thermal_supported thermal' = Zone.thermal_supported thermal
  /\ (thermal' = thermal
      \/ Zone.thermal_current thermal' = Zone.upper value
         /\ exists mode, In mode (Zone.thermal_supported thermal)
                         /\ Zone.upper mode = Zone.upper value)
  /\ Zone.current_mode value z thermal' = (thermal', returned, None)
  /\ Zone.current_mode (Zone.upper value) z thermal
     = Zone.current_mode value z thermal.
Proof.
  cbv zeta. unfold Zone.current_mode. cbv zeta. rewrite upper_idempotent.
  destruct (String.eqb (Zone.upper value) (Zone.thermal_current thermal)) eqn:Hsame;
    cbn [negb andb fst snd].
  - rewrite Hsame. cbn [negb andb]. repeat split. now left.
  - destruct (existsb _ (Zone.thermal_supported thermal)) eqn:Hsup;
      cbn [fst snd Zone.thermal_current Zone.thermal_supported].
    + rewrite String.eqb_refl. cbn [negb andb]. repeat split.
      right. split; [reflexivity|].
      apply existsb_exists in Hsup. destruct Hsup as (mode & Hin & Heq).
      apply String.eqb_eq in Heq. exists mode. split; [exact Hin | now symmetry].
    + rewrite Hsame, Hsup. cbn [negb andb]. repeat split. now left.
Qed.

(* --------------------------------------------------------------------- *)
(** *** Manager: services *)

Lemma find_service_with_Some (intf : string)
    (services : list (string * (bool * list string))) service :
  Manager.find_service_with intf services = Some service ->
  service ∈ services /\ contains service.2.2 intf = true.
Proof.
  induction services as [|x rest IH]; cbn [Manager.find_service_with];
    [discriminate|].
  destruct (contains x.2.2 intf) eqn:Hc.
  - intros H. inversion H; subst. split; [left | exact Hc].
  - intros H. apply IH in H. destruct H as [Hin Hs]. split; [now right | exact Hs].
Qed.

Lemma find_service_with_None (intf : string)
    (services : list (string * (bool * list string))) :
  Manager.find_service_with intf services = None ->
  forall service, service ∈ services -> contains service.2.2 intf = false.
Proof.
  induction services as [|x rest IH]; cbn [Manager.find_service_with];
    intros H service Hin.
  - inversion Hin.
  - destruct (contains x.2.2 intf) eqn:Hc; [discriminate|].
    inversion Hin; subst; [exact Hc | now apply IH].
Qed.

Lemma elem_of_in_key_order_iff {A} (m : gmap string A) (k : string) (a : A) :
  (k, a) ∈ in_key_order m <-> m !! k = Some a.
Proof.
  unfold in_key_order. rewrite merge_sort_Permutation.
  apply elem_of_map_to_list.
Qed.

(** X7.  A service name [findService] returns, when it is not the empty
    string, is the name of a service cached at the path whose interfaces
    hold the one asked for.  And when [findService] returns the empty
    string although a service at the path holds the interface, a service
    with the empty name holds it. *)
Theorem X7_findService (path intf : string)
    (tree : gmap string (gmap string (bool * list string))) :
  (Manager.findService path intf tree <> "" ->
   exists services owned intfs,
     tree !! path = Some services
     /\ services !! Manager.findService path intf tree = Some (owned, intfs)
     /\ In intf intfs)
  /\ (Manager.findService path intf tree = "" ->
      forall services serv owned intfs,
        tree !! path = Some services ->
        services !! serv = Some (owned, intfs) ->
        In intf intfs ->
        exists owned' intfs',
          services !! "" = Some (owned', intfs') /\ In intf intfs').
Proof.
  unfold Manager.findService.
  destruct (tree !! path) as [services|] eqn:Hp.
  2:{ split; [intros H; now contradiction H | discriminate]. }
  destruct (Manager.find_service_with intf (in_key_order services))
    as [[name [owned intfs]]|] eqn:Hf.
  - apply find_service_with_Some in Hf. destruct Hf as [Hin Hc].
    apply elem_of_in_key_order_iff in Hin. apply contains_In in Hc.
    cbn [fst snd] in *. split.
    + intros _. exists services, owned, intfs. auto.
    + intros Hname services' serv owned' intfs' Hs _ _.
      inversion Hs; subst. exists owned, intfs. auto.
  - split; [intros H; now contradiction H|].
    intros _ services' serv owned intfs Hs Hserv Hin. inversion Hs; subst services'.
    apply elem_of_in_key_order_iff in Hserv.
    apply (find_service_with_None _ _ Hf) in Hserv. cbn [snd] in Hserv.
    apply contains_In in Hin. congruence.
Qed.

Lemma X7_findService_witness :
  Manager.findService Samples.fan0_path Samples.sensor_intf Samples.two_fans_tree
    = Samples.hwmon
  /\ exists services owned intfs,
       Samples.two_fans_tree !! Samples.fan0_path = Some services
       /\ services !! Samples.hwmon = Some (owned, intfs)
       /\ In Samples.sensor_intf intfs.
Proof.
  assert (Hname : Manager.findService Samples.fan0_path Samples.sensor_intf
                    Samples.two_fans_tree = Samples.hwmon)
    by (vm_compute; reflexivity).
  split; [exact Hname|].
  assert (Hne : Manager.findService Samples.fan0_path Samples.sensor_intf
                  Samples.two_fans_tree <> "")
    by (rewrite Hname; discriminate).
  destruct (proj1 (X7_findService Samples.fan0_path Samples.sensor_intf
                     Samples.two_fans_tree) Hne)
    as (services & owned & intfs & H1 & H2 & H3).
  rewrite Hname in H2. exists services, owned, intfs. auto.
Defined.

(** X8.  When no other service cached at the path holds the interface,
    [hasOwner path intf] after [setOwner path serv intf isOwned] is
    [isOwned], and [findService path intf] is [serv]: what [setOwner]
    records is what the two lookups read back. *)
Theorem X8_setOwner_hasOwner (path serv intf : string) (isOwned : bool)
    (tree : gmap string (gmap string (bool * list string))) :
  (forall services other owned intfs,
      tree !! path = Some services ->
      services !! other = Some (owned, intfs) ->
      In intf intfs ->
      other = serv) ->
  Manager.hasOwner path intf (Manager.setOwner path serv intf isOwned tree) = isOwned
  /\ Manager.findService path intf (Manager.setOwner path serv intf isOwned tree) = serv.
Proof.
  intros Honly. unfold Manager.hasOwner, Manager.findService.
  rewrite setOwner_lookup_path.
  set (services := default ∅ (tree !! path)).
  set (named := setOwner_named serv intf isOwned services).
  assert (Hnamed : contains named.2 intf = true).
  { unfold named, setOwner_named. cbv zeta. cbn [snd].
    destruct (contains (default (false, []) (services !! serv)).2 intf) eqn:Hc;
      [exact Hc|].
    rewrite contains_app, contains_singleton, String.eqb_refl. apply orb_true_r. }
  destruct (Manager.find_service_with intf (in_key_order (<[serv := named]> services)))
    as [[name entry]|] eqn:Hf.
  - apply find_service_with_Some in Hf. destruct Hf as [Hin Hc].
    apply elem_of_in_key_order_iff in Hin. cbn [fst snd] in *.
    destruct (decide (name = serv)) as [->|Hne].
    + rewrite lookup_insert_eq in Hin. inversion Hin; subst entry.
      split; reflexivity.
    + rewrite lookup_insert_ne in Hin by congruence.
      exfalso. apply Hne. unfold services in Hin.
      destruct (tree !! path) as [cached|] eqn:Hp; cbn [from_option id] in Hin;
        [|now rewrite lookup_empty in Hin].
      destruct entry as [owned intfs].
      eapply Honly; [reflexivity | exact Hin | now apply contains_In].
  - exfalso.
    assert (Hin : (serv, named) ∈ in_key_order (<[serv := named]> services))
      by (apply elem_of_in_key_order_iff, lookup_insert_eq).
    apply (find_service_with_None _ _ Hf) in Hin. cbn [snd] in Hin. congruence.
Qed.

Lemma X8_setOwner_hasOwner_witness :
  let tree := Manager.setOwner Samples.fan0_path Samples.hwmon Samples.sensor_intf
                false Samples.two_fans_tree in
  Manager.hasOwner Samples.fan0_path Samples.sensor_intf Samples.two_fans_tree = true
  /\ Manager.hasOwner Samples.fan0_path Samples.sensor_intf tree = false
  /\ Manager.findService Samples.fan0_path Samples.sensor_intf tree = Samples.hwmon.
Proof.
  cbv zeta. split; [vm_compute; reflexivity|].
  apply (X8_setOwner_hasOwner Samples.fan0_path Samples.hwmon Samples.sensor_intf
           false Samples.two_fans_tree).
  intros services other owned intfs Hs Ho _.
  assert (Hfan0 : Samples.two_fans_tree !! Samples.fan0_path
                  = Some {[Samples.hwmon := (true, [Samples.sensor_intf])]})
    by (vm_compute; reflexivity).
  rewrite Hfan0 in Hs. inversion Hs; subst services.
  apply lookup_singleton_Some in Ho. now destruct Ho.
Defined.

Lemma findPaths_foldl (serv intf : string)
    (entries : list (string * gmap string (bool * list string))) :
  forall paths : list string,
    let found :=
      foldl (fun paths (path : string * gmap string (bool * list string)) =>
               match path.2 !! serv with
               | Some itServ =>
                   if contains itServ.2 intf then
                     if contains paths path.1 then paths else paths ++ [path.1]
                   else paths
               | None => paths
               end)
        paths entries in
    (NoDup paths -> NoDup found)
    /\ (forall p, In p found
                  <-> In p paths
                      \/ exists services owned intfs,
                           (p, services) ∈ entries
                           /\ services !! serv = Some (owned, intfs)
                           /\ In intf intfs).
Proof.
  induction entries as [|[k services] rest IH]; intros paths; cbv zeta;
    cbn [foldl fst snd].
  - split; [auto|]. intros p. split; [auto|].
    intros [H | (sv & o & l & Hin & _)]; [exact H | inversion Hin].
  - destruct (services !! serv) as [[owned intfs]|] eqn:Hs.
    + cbn [snd]. destruct (contains intfs intf) eqn:Hc.
      * destruct (contains paths k) eqn:Hk.
        -- destruct (IH paths) as [Hnd Hmem]. split; [exact Hnd|].
           intros p. rewrite Hmem. split.
           ++ intros [H | (sv & o & l & Hin & Hrest)]; [now left|].
              right. exists sv, o, l. split; [now right | exact Hrest].
           ++ intros [H | (sv & o & l & Hin & Hsv & Hl)]; [now left|].
              inversion Hin; subst.
              ** left. now apply contains_In.
              ** right. exists sv, o, l. auto.
        -- destruct (IH (paths ++ [k])) as [Hnd Hmem]. split.
           ++ intros H. apply Hnd. apply NoDup_app. repeat split.
              ** exact H.
              ** intros x Hx Hx'. apply list_elem_of_In in Hx.
                 apply list_elem_of_singleton in Hx'. subst x.
                 apply contains_In in Hx. congruence.
              ** apply NoDup_singleton.
           ++ intros p. rewrite Hmem, in_app_iff. split.
              ** intros [[H | H] | (sv & o & l & Hin & Hrest)].
                 --- now left.
                 --- destruct H as [<-|[]]. right.
                     exists services, owned, intfs.
                     split; [left | split; [exact Hs | now apply contains_In]].
                 --- right. exists sv, o, l. split; [now right | exact Hrest].
              ** intros [H | (sv & o & l & Hin & Hsv & Hl)]; [now left; left|].
                 inversion Hin; subst.
                 --- left. right. now left.
                 --- right. exists sv, o, l. auto.
      * destruct (IH paths) as [Hnd Hmem]. split; [exact Hnd|].
        intros p. rewrite Hmem. split.
        -- intros [H | (sv & o & l & Hin & Hrest)]; [now left|].
           right. exists sv, o, l. split; [now right | exact Hrest].
        -- intros [H | (sv & o & l & Hin & Hsv & Hl)]; [now left|].
           inversion Hin; subst.
           ++ rewrite Hs in Hsv. inversion Hsv; subst.
              apply contains_In in Hl. congruence.
           ++ right. exists sv, o, l. auto.
    + destruct (IH paths) as [Hnd Hmem]. split; [exact Hnd|].
      intros p. rewrite Hmem. split.
      * intros [H | (sv & o & l & Hin & Hrest)]; [now left|].
        right. exists sv, o, l. split; [now right | exact Hrest].
      * intros [H | (sv & o & l & Hin & Hsv & Hl)]; [now left|].
        inversion Hin; subst; [congruence|].
        right. exists sv, o, l. auto.
Qed.

(** X9.  [findPaths serv intf] lists every path of the cache at which the
    service [serv] is cached with the interface [intf], lists nothing
    else, and lists no path twice. *)
Theorem X9_findPaths (serv intf : string)
    (tree : gmap string (gmap string (bool * list string))) :
  NoDup (Manager.findPaths serv intf tree)
  /\ (forall path,
        In path (Manager.findPaths serv intf tree)
        <-> exists services owned intfs,
              tree !! path = Some services
              /\ services !! serv = Some (owned, intfs)
              /\ In intf intfs).
Proof.
  unfold Manager.findPaths.
  destruct (findPaths_foldl serv intf (in_key_order tree) []) as [Hnd Hmem].
  cbv zeta in Hnd, Hmem. split; [apply Hnd, NoDup_nil_2|].
  intros path. rewrite Hmem. split.
  - intros [[] | (sv & o & l & Hin & Hrest)].
    apply elem_of_in_key_order_iff in Hin. exists sv, o, l. auto.
  - intros (sv & o & l & Hp & Hrest). right. exists sv, o, l.
    split; [now apply elem_of_in_key_order_iff | exact Hrest].
Qed.

Lemma services_kept_refl (tree : gmap string (gmap string (bool * list string))) :
  services_kept tree tree.
Proof.
  intros path services serv owned intfs Hp Hs. exists services, [].
  rewrite app_nil_r. auto.
Qed.

Lemma services_kept_trans (t1 t2 t3 : gmap string (gmap string (bool * list string))) :
  services_kept t1 t2 -> services_kept t2 t3 -> services_kept t1 t3.
Proof.
  intros H12 H23 path services serv owned intfs Hp Hs.
  destruct (H12 _ _ _ _ _ Hp Hs) as (sv2 & a2 & Hp2 & Hs2).
  destruct (H23 _ _ _ _ _ Hp2 Hs2) as (sv3 & a3 & Hp3 & Hs3).
  exists sv3, (a2 ++ a3). rewrite app_assoc. auto.
Qed.

Lemma add_interfaces_app (fetched : list string) :
  forall cached, exists added,
    Manager.add_interfaces cached fetched = cached ++ added.
Proof.
  unfold Manager.add_interfaces.
  induction fetched as [|itIntf rest IH]; intros cached; cbn [foldl].
  - exists []. now rewrite app_nil_r.
  - destruct (contains cached itIntf); [apply IH|].
    destruct (IH (cached ++ [itIntf])) as [added H].
    exists ([itIntf] ++ added). now rewrite H, app_assoc.
Qed.

(** The services of one path: each cached one keeps its flag and has its
    interfaces extended. *)
Lemma addServices_serv_kept (intf : string) (fetched : list (string * list string)) :
  forall (cached : gmap string (bool * list string)) serv owned intfs,
    cached !! serv = Some (owned, intfs) ->
    exists added,
      foldl (Manager.addServices_serv intf) cached fetched !! serv
      = Some (owned, intfs ++ added).
Proof.
  induction fetched as [|itServ rest IH]; intros cached serv owned intfs Hs;
    cbn [foldl].
  - exists []. now rewrite app_nil_r.
  - unfold Manager.addServices_serv at 2.
    destruct (cached !! itServ.1) as [servIter|] eqn:Hit.
    + destruct (decide (itServ.1 = serv)) as [He|Hne].
      * rewrite He in Hit. rewrite Hit in Hs. inversion Hs; subst servIter.
        cbn [fst snd].
        destruct (add_interfaces_app itServ.2 intfs) as [added1 Hadd].
        destruct (IH (<[itServ.1 := (owned, Manager.add_interfaces intfs itServ.2)]> cached)
                    serv owned (intfs ++ added1)) as [added2 H2].
        { rewrite He, lookup_insert_eq, Hadd. reflexivity. }
        exists (added1 ++ added2). rewrite H2, app_assoc. reflexivity.
      * apply IH. now rewrite lookup_insert_ne.
    + apply IH. rewrite lookup_insert_ne; [exact Hs|]. congruence.
Qed.

Lemma addServices_new_path_other (intf path : string)
    (fetched : list (string * list string)) :
  forall (tree : gmap string (gmap string (bool * list string))) other,
    other <> path ->
    foldl (fun (tr : gmap string (gmap string (bool * list string)))
               (serv : string * list string) =>
             <[path := <[serv.1 := (true, [intf])]> (default ∅ (tr !! path))]> tr)
      tree fetched !! other
    = tree !! other.
Proof.
  induction fetched as [|serv rest IH]; intros tree other Hne; cbn [foldl];
    [reflexivity|].
  rewrite IH by exact Hne. now rewrite lookup_insert_ne by congruence.
Qed.

Lemma addServices_path_kept (intf : string)
    (tree : gmap string (gmap string (bool * list string)))
    (itPath : string * gmap string (list string)) :
  services_kept tree (Manager.addServices_path intf tree itPath).
Proof.
  intros path services serv owned intfs Hp Hs.
  unfold Manager.addServices_path.
  destruct (tree !! itPath.1) as [cached|] eqn:Hit.
  - destruct (decide (itPath.1 = path)) as [He|Hne].
    + rewrite He in Hit. rewrite Hit in Hp. inversion Hp; subst cached.
      destruct (addServices_serv_kept intf (in_key_order itPath.2)
                  services serv owned intfs Hs) as [added Hadd].
      eexists. exists added. rewrite He, lookup_insert_eq. split; [reflexivity|].
      exact Hadd.
    + exists services, []. rewrite lookup_insert_ne by exact Hne.
      rewrite app_nil_r. auto.
  - assert (Hne : path <> itPath.1) by congruence.
    exists services, []. rewrite addServices_new_path_other by exact Hne.
    rewrite app_nil_r. auto.
Qed.

Lemma addServices_kept {V} (bus : Manager.Bus V) (intf : string) (depth : Z)
    (tree : gmap string (gmap string (bool * list string))) :
  services_kept tree (Manager.addServices bus intf depth tree).
Proof.
  unfold Manager.addServices.
  generalize (in_key_order (Manager.getSubTreeRaw bus "/" intf depth)).
  intros fetched. revert tree.
  induction fetched as [|itPath rest IH]; intros tree; cbn [foldl].
  - apply services_kept_refl.
  - eapply services_kept_trans; [apply addServices_path_kept | apply IH].
Qed.

Lemma getService_keeps_services {V} (bus : Manager.Bus V)
    (path serv intf : string) (depth : Z)
    (tree : gmap string (gmap string (bool * list string))) :
  services_kept tree (Manager.addServices bus intf depth tree)
  /\ services_kept tree (Manager.getService bus path intf tree).1
  /\ services_kept tree (Manager.getPaths bus serv intf tree).1.
Proof.
  split; [apply addServices_kept|]. split.
  - unfold Manager.getService. cbv zeta.
    destruct (String.eqb _ ""); cbn [fst];
      [apply addServices_kept | apply services_kept_refl].
  - unfold Manager.getPaths. cbv zeta.
    destruct (Manager.findPaths serv intf tree); cbn [fst];
      [apply addServices_kept | apply services_kept_refl].
Qed.

(** X10.  [addServices], and [getService] and [getPaths] which call it on
    a miss, never drop or demote what the cache of services holds: every
    cached service is still cached at its path with the same owned flag,
    and its interfaces are the ones it had, in the same order, followed by
    the interfaces added. *)
Theorem X10_addServices_keeps_services {V} (bus : Manager.Bus V)
    (path serv intf : string) (depth : Z)
    (tree : gmap string (gmap string (bool * list string))) :
  services_kept tree (Manager.addServices bus intf depth tree)
  /\ services_kept tree (Manager.getService bus path intf tree).1
  /\ services_kept tree (Manager.getPaths bus serv intf tree).1.
Proof. apply getService_keeps_services. Qed.

Lemma X10_addServices_keeps_services_witness :
  Manager.addServices Samples.subtree_bus Samples.item_intf 0 Samples.two_fans_tree
    !! Samples.fan0_path
  = Some {[Samples.hwmon := (true, [Samples.sensor_intf; Samples.item_intf])]}
  /\ exists services' added,
       Manager.addServices Samples.subtree_bus Samples.item_intf 0
         Samples.two_fans_tree !! Samples.fan0_path = Some services'
       /\ services' !! Samples.hwmon = Some (true, [Samples.sensor_intf] ++ added).
Proof.
  split; [vm_compute; reflexivity|].
  apply (proj1 (X10_addServices_keeps_services Samples.subtree_bus
                  Samples.fan0_path Samples.hwmon Samples.item_intf 0
                  Samples.two_fans_tree)
           Samples.fan0_path {[Samples.hwmon := (true, [Samples.sensor_intf])]}
           Samples.hwmon true [Samples.sensor_intf]).
  - vm_compute. reflexivity.
  - vm_compute. reflexivity.
Defined.

(* --------------------------------------------------------------------- *)
(** *** Manager: objects *)

Lemma getProperty_setProperty {V} (path intf prop : string) (value : V)
    (objects : gmap string (gmap string (gmap string V))) (p i q : string) :
  Manager.getProperty p i q (Manager.setProperty path intf prop value objects)
  = if decide (p = path /\ i = intf /\ q = prop) then Some value
    else Manager.getProperty p i q objects.
Proof.
  unfold Manager.getProperty, Manager.setProperty. cbv zeta.
  destruct (decide (p = path)) as [->|Hp].
  - rewrite lookup_insert_eq.
    destruct (decide (i = intf)) as [->|Hi].
    + rewrite lookup_insert_eq.
      destruct (decide (q = prop)) as [->|Hq].
      * rewrite lookup_insert_eq. now rewrite decide_True.
      * rewrite lookup_insert_ne by congruence.
        rewrite decide_False by tauto.
        destruct (objects !! path) as [intfs|]; cbn [from_option id];
          [|now rewrite lookup_empty].
        destruct (intfs !! intf) as [props|]; cbn [from_option id];
          [reflexivity | apply lookup_empty].
    + rewrite lookup_insert_ne by congruence.
      rewrite decide_False by tauto.
      destruct (objects !! path) as [intfs|]; cbn [from_option id];
        [reflexivity | now rewrite lookup_empty].
  - rewrite lookup_insert_ne by congruence. now rewrite decide_False by tauto.
Qed.

Lemma properties_kept_refl {V} (objects : gmap string (gmap string (gmap string V))) :
  properties_kept objects objects.
Proof. intros path intf prop value H. exact H. Qed.

Lemma addObjects_object_kept {V}
    (objects : gmap string (gmap string (gmap string V)))
    (object : string * gmap string (gmap string V)) :
  properties_kept objects (Manager.addObjects_object objects object).
Proof.
  destruct object as [k fetched].
  destruct (objects !! k) as [itPath|] eqn:Hk.
  - rewrite (addObjects_object_cached _ _ _ _ Hk). apply properties_kept_refl.
  - rewrite (addObjects_object_new _ _ _ Hk).
    intros path intf prop value H. unfold Manager.getProperty in *.
    destruct (decide (path = k)) as [->|Hne].
    + now rewrite Hk in H.
    + now rewrite lookup_insert_ne by congruence.
Qed.

Lemma addObjects_objects_kept {V}
    (fetched : list (string * gmap string (gmap string V))) :
  forall objects, properties_kept objects (foldl Manager.addObjects_object objects fetched).
Proof.
  induction fetched as [|object rest IH]; intros objects; cbn [foldl].
  - apply properties_kept_refl.
  - intros path intf prop value H. apply IH. now apply addObjects_object_kept.
Qed.

(** X11.  [addObjects path intf prop] changes no cached property other
    than the one it is called for: a property the cache of objects holds
    under another path, interface or name is held with the same value
    after the call, whether the call reads the property itself, fetches
    the managed objects, finds no service or ends with an exception of the
    bus.  The cache of services keeps all it held. *)
Theorem X11_addObjects_keeps_other_properties {V} (bus : Manager.Bus V)
    (path intf prop : string) (c : Manager.Cache V) :
  (forall p i q value,
      ~ (p = path /\ i = intf /\ q = prop) ->
      Manager.getProperty p i q (Manager._objects c) = Some value ->
      Manager.getProperty p i q
        (Manager._objects (Manager.addObjects bus path intf prop c).1)
      = Some value)
  /\ services_kept (Manager._servTree c)
       (Manager._servTree (Manager.addObjects bus path intf prop c).1).
Proof.
  unfold Manager.addObjects.
  pose proof (proj1 (proj2 (getService_keeps_services bus path "" intf 0
                              (Manager._servTree c)))) as Hs1.
  destruct (Manager.getService bus path intf (Manager._servTree c))
    as [tree1 service]. cbn [fst] in Hs1.
  destruct (String.eqb service ""); cbn [fst Manager._objects Manager._servTree].
  { split; [auto | exact Hs1]. }
  pose proof (proj2 (proj2 (getService_keeps_services bus path service
                              Manager.objectManagerIntf 0 tree1))) as Hs2.
  destruct (Manager.getPaths bus service Manager.objectManagerIntf tree1)
    as [tree2 objMgrPaths]. cbn [fst] in Hs2.
  assert (Hs : services_kept (Manager._servTree c) tree2)
    by (eapply services_kept_trans; eauto).
  destruct objMgrPaths as [|objMgrPath rest].
  - destruct (Manager.getPropertyVariant bus service path intf prop) as [variant|e];
      cbn [fst Manager._objects Manager._servTree]; (split; [|exact Hs]); [|auto].
    intros p i q value Hne H.
    change (Manager.getProperty p i q
              (Manager.setProperty path intf prop variant (Manager._objects c))
            = Some value).
    rewrite getProperty_setProperty. now rewrite decide_False.
  - cbn [fst Manager._objects Manager._servTree]. split; [|exact Hs].
    intros p i q value _.
    generalize (objMgrPath :: rest). intros paths. generalize (Manager._objects c).
    induction paths as [|objMgr paths IH]; intros objects H; cbn [foldl];
      [exact H|].
    apply IH. now apply addObjects_objects_kept.
Qed.

(** X12.  The outcomes of [addObjects path intf prop].  When no service
    is found for the path and interface (the lookup gives the empty
    name), the cache of objects is left as it was and the call returns.
    When the service is found and exposes no object manager, the property
    is read from the bus: a value read is what [getProperty path intf
    prop] returns afterwards, and an exception of the read leaves the call
    with the cache of objects as it was. *)
Theorem X12_addObjects_outcomes {V} (bus : Manager.Bus V)
    (path intf prop : string) (c : Manager.Cache V) :
  let '(tree1, service) := Manager.getService bus path intf (Manager._servTree c) in
  let '(tree2, objMgrPaths) :=
    Manager.getPaths bus service Manager.objectManagerIntf tree1 in
  let '(c', r) := Manager.addObjects bus path intf prop c in
  (service = "" -> c' = Manager.mkCache tree1 (Manager._objects c) /\ r = Ok tt)
  /\ (service <> "" -> objMgrPaths = [] ->
      Manager._servTree c' = tree2
      /\ match Manager.getPropertyVariant bus service path intf prop with
         | Ok variant =>
             r = Ok tt
             /\ Manager.getProperty path intf prop (Manager._objects c') = Some variant
         | Throw e => r = Throw e /\ Manager._objects c' = Manager._objects c
         end).
Proof.
  unfold Manager.addObjects.
  destruct (Manager.getService bus path intf (Manager._servTree c))
    as [tree1 service].
  destruct (String.eqb service "") eqn:Hempty.
  - apply String.eqb_eq in Hempty. subst service.
    destruct (Manager.getPaths bus "" Manager.objectManagerIntf tree1)
      as [tree2 objMgrPaths].
    split; [auto | intros H; now contradiction H].
  - apply String.eqb_neq in Hempty.
    destruct (Manager.getPaths bus service Manager.objectManagerIntf tree1)
      as [tree2 objMgrPaths].
    destruct objMgrPaths as [|objMgrPath rest].
    + destruct (Manager.getPropertyVariant bus service path intf prop)
        as [variant|e] eqn:Hget.
      * split; [intros H; contradiction|]. intros _ _.
        cbn [Manager._servTree Manager._objects].
        repeat split.
        change (Manager.getProperty path intf prop
                  (Manager.setProperty path intf prop variant (Manager._objects c))
                = Some variant).
        rewrite getProperty_setProperty. now rewrite decide_True.
      * split; [intros H; contradiction|]. intros _ _.
        repeat split.
    + split; [intros H; contradiction | discriminate].
Qed.

Lemma X12_addObjects_outcomes_witness :
  let c := Manager.mkCache Samples.two_fans_tree Samples.cached_objects in
  let c' := (Manager.addObjects Samples.subtree_bus Samples.fan0_path
               Samples.sensor_intf "Value" c).1 in
  Manager.getService Samples.subtree_bus Samples.fan0_path Samples.sensor_intf
    Samples.two_fans_tree = (Samples.two_fans_tree, Samples.hwmon)
  /\ Manager.getPaths Samples.subtree_bus Samples.hwmon Manager.objectManagerIntf
       Samples.two_fans_tree = (Samples.two_fans_tree, [])
  /\ Manager.getProperty Samples.fan0_path Samples.sensor_intf "Value"
       Samples.cached_objects = Some 1000
  /\ Manager.getProperty Samples.fan0_path Samples.sensor_intf "Value"
       (Manager._objects c') = Some 4200.
Proof.
  cbv zeta.
  assert (Hserv : Manager.getService Samples.subtree_bus Samples.fan0_path
                    Samples.sensor_intf Samples.two_fans_tree
                  = (Samples.two_fans_tree, Samples.hwmon))
    by (vm_compute; reflexivity).
  assert (Hpaths : Manager.getPaths Samples.subtree_bus Samples.hwmon
                     Manager.objectManagerIntf Samples.two_fans_tree
                   = (Samples.two_fans_tree, []))
    by (vm_compute; reflexivity).
  refine (conj Hserv (conj Hpaths (conj _ _))); [vm_compute; reflexivity|].
  pose proof (X12_addObjects_outcomes Samples.subtree_bus Samples.fan0_path
                Samples.sensor_intf "Value"
                (Manager.mkCache Samples.two_fans_tree Samples.cached_objects))
    as H.
  cbn [Manager._servTree] in H. rewrite Hserv, Hpaths in H.
  destruct (Manager.addObjects _ _ _ _ _) as [c' r].
  destruct H as [_ H].
  assert (Hne : Samples.hwmon <> "") by discriminate.
  destruct (H Hne eq_refl) as [_ Hget].
  assert (Hbus : Manager.getPropertyVariant Samples.subtree_bus Samples.hwmon
                   Samples.fan0_path Samples.sensor_intf "Value" = Ok 4200)
    by (vm_compute; reflexivity).
  rewrite Hbus in Hget. exact (proj2 Hget).
Defined.

Lemma getProperty_eraseProperty {V} (path intf prop : string)
    (objects : gmap string (gmap string (gmap string V))) (p i q : string) :
  Manager.getProperty p i q (Manager.eraseProperty path intf prop objects)
  = if decide (p = path /\ i = intf /\ q = prop) then None
    else Manager.getProperty p i q objects.
Proof.
  unfold Manager.getProperty, Manager.eraseProperty.
  destruct (objects !! path) as [intfs|] eqn:Hp.
  2:{ case_decide as H; [|reflexivity]. destruct H as (-> & _ & _). now rewrite Hp. }
  destruct (intfs !! intf) as [props|] eqn:Hi.
  2:{ case_decide as H; [|reflexivity]. destruct H as (-> & -> & _).
      now rewrite Hp, Hi. }
  destruct (decide (p = path)) as [->|Hnp].
  - rewrite lookup_insert_eq, Hp.
    destruct (decide (i = intf)) as [->|Hni].
    + rewrite lookup_insert_eq, Hi.
      destruct (decide (q = prop)) as [->|Hnq].
      * rewrite lookup_delete_eq. now rewrite decide_True.
      * rewrite lookup_delete_ne by congruence. now rewrite decide_False by tauto.
    + rewrite lookup_insert_ne by congruence. now rewrite decide_False by tauto.
  - rewrite lookup_insert_ne by congruence. now rewrite decide_False by tauto.
Qed.

Lemma addGroup_member_getProperty {V} (bus : Manager.Bus V) (intf prop : string)
    (c : Manager.Cache V) (member : string) (p i q : string) :
  exists service,
    Manager.getProperty p i q
      (Manager._objects (Manager.addGroup_member bus intf prop c member))
    = if decide (p = member /\ i = intf /\ q = prop)
      then cached_read (Manager.getPropertyVariant bus service member intf prop)
      else Manager.getProperty p i q (Manager._objects c).
Proof.
  unfold Manager.addGroup_member.
  destruct (Manager.getService bus member intf (Manager._servTree c))
    as [tree service].
  exists service.
  destruct (Manager.getPropertyVariant bus service member intf prop) as [variant|e];
    cbn [Manager._objects cached_read].
  - apply getProperty_setProperty.
  - apply getProperty_eraseProperty.
Qed.

Lemma addGroup_members_getProperty {V} (bus : Manager.Bus V) (intf prop : string)
    (members : list string) :
  forall (c : Manager.Cache V) (p i q : string),
    let c' := foldl (Manager.addGroup_member bus intf prop) c members in
    if decide (p ∈ members /\ i = intf /\ q = prop)
    then exists service,
           Manager.getProperty p i q (Manager._objects c')
           = cached_read (Manager.getPropertyVariant bus service p intf prop)
    else Manager.getProperty p i q (Manager._objects c')
         = Manager.getProperty p i q (Manager._objects c).
Proof.
  induction members as [|member rest IH]; intros c p i q; cbv zeta; cbn [foldl].
  - rewrite decide_False; [reflexivity|]. intros [H _]. inversion H.
  - specialize (IH (Manager.addGroup_member bus intf prop c member) p i q).
    cbv zeta in IH.
    destruct (addGroup_member_getProperty bus intf prop c member p i q)
      as [service Hstep].
    destruct (decide (p ∈ rest /\ i = intf /\ q = prop)) as [Hrest|Hrest].
    + rewrite decide_True; [exact IH|].
      destruct Hrest as (H & ? & ?). repeat split; auto. now right.
    + rewrite IH, Hstep.
      destruct (decide (p = member /\ i = intf /\ q = prop)) as [Hm|Hm].
      * destruct Hm as (-> & -> & ->).
        rewrite decide_True by (repeat split; left).
        exists service. reflexivity.
      * rewrite decide_False; [reflexivity|].
        intros (Hin & ? & ?). inversion Hin; subst; tauto.
Qed.

(** X13.  [addGroup] brings the cache of objects up to date with the bus
    for the members of the group: afterwards the cache holds, for each
    member, the value read from the bus for the property of the group, and
    holds nothing for it when the read threw.  Every other property of the
    cache is as it was. *)
Theorem X13_addGroup {V} (bus : Manager.Bus V) (group : Manager.Group)
    (c : Manager.Cache V) :
  let objects' := Manager._objects (Manager.addGroup bus group c) in
  let intf := Manager.group_interface group in
  let prop := Manager.group_property group in
  (forall member,
      In member (Manager.group_members group) ->
      exists service,
        Manager.getProperty member intf prop objects'
        = cached_read (Manager.getPropertyVariant bus service member intf prop))
  /\ (forall p i q,
        ~ (In p (Manager.group_members group) /\ i = intf /\ q = prop) ->
        Manager.getProperty p i q objects'
        = Manager.getProperty p i q (Manager._objects c)).
Proof.
  cbv zeta. unfold Manager.addGroup. split.
  - intros member Hin.
    pose proof (addGroup_members_getProperty bus (Manager.group_interface group)
                  (Manager.group_property group) (Manager.group_members group)
                  c member (Manager.group_interface group)
                  (Manager.group_property group)) as H.
    cbv zeta in H. rewrite decide_True in H; [exact H|].
    repeat split. now apply list_elem_of_In.
  - intros p i q Hne.
    pose proof (addGroup_members_getProperty bus (Manager.group_interface group)
                  (Manager.group_property group) (Manager.group_members group)
                  c p i q) as H.
    cbv zeta in H. rewrite decide_False in H; [exact H|].
    intros (Hin & ? & ?). apply Hne. repeat split; auto.
    now apply list_elem_of_In.
Qed.

Lemma X13_addGroup_witness :
  let c := Manager.mkCache Samples.two_fans_tree Samples.cached_objects in
  let objects' := Manager._objects (Manager.addGroup Samples.subtree_bus
                                      Samples.tach_group c) in
  In Samples.fan1_path (Manager.group_members Samples.tach_group)
  /\ Manager.getProperty Samples.fan0_path Samples.sensor_intf "Value" objects'
     = Some 4200
  /\ Manager.getProperty Samples.fan1_path Samples.sensor_intf "Value" objects'
     = None
  /\ exists service,
       Manager.getProperty Samples.fan1_path Samples.sensor_intf "Value" objects'
       = cached_read (Manager.getPropertyVariant Samples.subtree_bus service
                        Samples.fan1_path Samples.sensor_intf "Value").
Proof.
  cbv zeta.
  assert (Hin : In Samples.fan1_path (Manager.group_members Samples.tach_group))
    by (right; left; reflexivity).
  refine (conj Hin (conj _ (conj _ _))); [vm_compute; reflexivity..|].
  exact (proj1 (X13_addGroup Samples.subtree_bus Samples.tach_group
                  (Manager.mkCache Samples.two_fans_tree Samples.cached_objects))
           Samples.fan1_path Hin).
Defined.

(* --------------------------------------------------------------------- *)
(** *** Manager: timers *)

Lemma TimerType_eqb_eq (a b : Manager.TimerType) :
  Manager.TimerType_eqb a b = true <-> a = b.
Proof. destruct a, b; cbn; split; congruence. Qed.

Lemma eraseTimer_first (data : Manager.TimerData)
    (before after : list (Manager.TimerType * string)) :
  (Manager.timer_type data, Manager.timer_name data) ∉ before ->
  Manager.eraseTimer data
    (before ++ (Manager.timer_type data, Manager.timer_name data) :: after)
  = before ++ after.
Proof.
  induction before as [|timer before IH]; intros Hnot; cbn [app Manager.eraseTimer].
  - cbn [fst snd].
    rewrite (proj2 (TimerType_eqb_eq _ _) eq_refl), String.eqb_refl. reflexivity.
  - destruct (Manager.TimerType_eqb (Manager.timer_type data) timer.1
              && String.eqb (Manager.timer_name data) timer.2) eqn:Heq.
    + exfalso. apply Hnot. apply andb_true_iff in Heq. destruct Heq as [H1 H2].
      apply TimerType_eqb_eq in H1. apply String.eqb_eq in H2.
      destruct timer as [ty name]. cbn [fst snd] in *. subst. left.
    + f_equal. apply IH. intros H. apply Hnot. now right.
Qed.

Lemma eraseTimer_absent (data : Manager.TimerData)
    (timers : list (Manager.TimerType * string)) :
  (Manager.timer_type data, Manager.timer_name data) ∉ timers ->
  Manager.eraseTimer data timers = timers.
Proof.
  induction timers as [|timer timers IH]; intros Hnot; cbn [Manager.eraseTimer];
    [reflexivity|].
  destruct (Manager.TimerType_eqb (Manager.timer_type data) timer.1
            && String.eqb (Manager.timer_name data) timer.2) eqn:Heq.
  - exfalso. apply Hnot. apply andb_true_iff in Heq. destruct Heq as [H1 H2].
    apply TimerType_eqb_eq in H1. apply String.eqb_eq in H2.
    destruct timer as [ty name]. cbn [fst snd] in *. subst. left.
  - f_equal. apply IH. intros H. apply Hnot. now right.
Qed.

Lemma actions_keep_timers {V Event}
    (actions : list (Manager.t Event * Manager.Cache V ->
                     Manager.t Event * Manager.Cache V)) :
  Forall keeps_timers actions ->
  forall st, Manager._timers (foldl (fun st action => action st) st actions).1
             = Manager._timers st.1.
Proof.
  induction 1 as [|action actions Hk _ IH]; intros st; cbn [foldl];
    [reflexivity|].
  now rewrite IH, Hk.
Qed.

Lemma timerExpired_timers {V Event} (bus : Manager.Bus V) (data : Manager.TimerData)
    (actions : list (Manager.t Event * Manager.Cache V ->
                     Manager.t Event * Manager.Cache V))
    (mc : Manager.t Event * Manager.Cache V) :
  Forall keeps_timers actions ->
  Manager._timers (Manager.timerExpired bus data actions mc).1
  = match Manager.timer_type data with
    | Manager.oneshot => Manager.eraseTimer data (Manager._timers mc.1)
    | Manager.repeating => Manager._timers mc.1
    end.
Proof.
  intros Hk. unfold Manager.timerExpired. cbv zeta.
  destruct (Manager.timer_type data); cbn [fst Manager._timers Manager.set_timers];
    rewrite (actions_keep_timers actions Hk);
    destruct (Manager.timer_updateCache data); reflexivity.
Qed.

(** X14.  When the actions of a timer leave the timers alone, the expiry
    of a repeating timer leaves the list of timers as it was, and the
    expiry of a oneshot timer removes the first timer of its type and
    name and no other: the timers before it and the timers after it stay,
    in their order; when no timer has its type and name the list is left
    as it was. *)
Theorem X14_timerExpired_timers {V Event} (bus : Manager.Bus V)
    (data : Manager.TimerData)
    (actions : list (Manager.t Event * Manager.Cache V ->
                     Manager.t Event * Manager.Cache V))
    (mc : Manager.t Event * Manager.Cache V) :
  Forall keeps_timers actions ->
  let identity := (Manager.timer_type data, Manager.timer_name data) in
  let timers' := Manager._timers (Manager.timerExpired bus data actions mc).1 in
  (Manager.timer_type data = Manager.repeating ->
   timers' = Manager._timers mc.1)
  /\ (Manager.timer_type data = Manager.oneshot ->
      (identity ∉ Manager._timers mc.1 -> timers' = Manager._timers mc.1)
      /\ (forall before after,
            Manager._timers mc.1 = before ++ identity :: after ->
            identity ∉ before ->
            timers' = before ++ after)).
Proof.
  intros Hk. cbv zeta. rewrite (timerExpired_timers bus data actions mc Hk).
  split.
  - intros Hty. now rewrite Hty.
  - intros Hty.
    replace (match Manager.timer_type data with
             | Manager.oneshot => Manager.eraseTimer data (Manager._timers mc.1)
             | Manager.repeating => Manager._timers mc.1
             end)
      with (Manager.eraseTimer data (Manager._timers mc.1))
      by (now rewrite Hty).
    split.
    + apply eraseTimer_absent.
    + intros before after Hsplit Hnot. rewrite Hsplit.
      now apply eraseTimer_first.
Qed.

Lemma X14_timerExpired_timers_witness :
  let data := Manager.mkTimerData Manager.oneshot "fan_missing" false [] in
  let m := Manager.set_timers
             [(Manager.repeating, "fan_missing"); (Manager.oneshot, "fan_missing");
              (Manager.oneshot, "fan_missing")] Samples.live_manager in
  Manager._timers
    (Manager.timerExpired Samples.subtree_bus data []
       (m, Manager.mkCache Samples.two_fans_tree Samples.cached_objects)).1
  = [(Manager.repeating, "fan_missing"); (Manager.oneshot, "fan_missing")].
Proof.
  cbv zeta.
  pose proof (X14_timerExpired_timers Samples.subtree_bus
                (Manager.mkTimerData Manager.oneshot "fan_missing" false []) []
                (Manager.set_timers
                   [(Manager.repeating, "fan_missing");
                    (Manager.oneshot, "fan_missing");
                    (Manager.oneshot, "fan_missing")] Samples.live_manager,
                 Manager.mkCache Samples.two_fans_tree Samples.cached_objects)
                (Forall_nil_2 _)) as H.
  cbv zeta in H. destruct H as [_ H]. destruct (H eq_refl) as [_ Hsplit].
  apply (Hsplit [(Manager.repeating, "fan_missing")]
           [(Manager.oneshot, "fan_missing")] eq_refl).
  intros Hin. apply list_elem_of_singleton in Hin. discriminate.
Defined.

(** X15.  A oneshot timer added by [addTimer] is gone once it has
    expired: when the manager holds no timer of the same type and name and
    the actions leave the timers alone, [timerExpired] after [addTimer]
    gives back the list of timers the manager had. *)
Theorem X15_addTimer_timerExpired {V Event} (bus : Manager.Bus V)
    (data : Manager.TimerData)
    (actions : list (Manager.t Event * Manager.Cache V ->
                     Manager.t Event * Manager.Cache V))
    (m : Manager.t Event) (c : Manager.Cache V) :
  Manager.timer_type data = Manager.oneshot ->
  (Manager.timer_type data, Manager.timer_name data) ∉ Manager._timers m ->
  Forall keeps_timers actions ->
  Manager._timers (Manager.timerExpired bus data actions (Manager.addTimer data m, c)).1
  = Manager._timers m.
Proof.
  intros Hty Hnot Hk. rewrite (timerExpired_timers bus data actions _ Hk), Hty.
  cbn [fst Manager.addTimer Manager._timers Manager.set_timers].
  rewrite eraseTimer_first by exact Hnot. apply app_nil_r.
Qed.

Lemma X15_addTimer_timerExpired_witness :
  let data := Manager.mkTimerData Manager.oneshot "fan_missing" false [] in
  Manager._timers Samples.live_manager = [(Manager.repeating, "fan_missing")]
  /\ Manager._timers
       (Manager.timerExpired Samples.subtree_bus data []
          (Manager.addTimer data Samples.live_manager,
           Manager.mkCache Samples.two_fans_tree Samples.cached_objects)).1
     = [(Manager.repeating, "fan_missing")].
Proof.
  cbv zeta. split; [reflexivity|].
  apply (X15_addTimer_timerExpired Samples.subtree_bus
           (Manager.mkTimerData Manager.oneshot "fan_missing" false []) []
           Samples.live_manager).
  - reflexivity.
  - intros Hin. apply list_elem_of_singleton in Hin. discriminate.
  - constructor.
Defined.

(* --------------------------------------------------------------------- *)
(** *** Manager: profiles and loading *)

Lemma profiles_compare_eq (l1 l2 : list string) :
  Manager.profiles_compare l1 l2 = Eq -> l1 = l2.
Proof.
  revert l2. induction l1 as [|x l1 IH]; intros [|y l2];
    cbn [Manager.profiles_compare]; try discriminate; [reflexivity|].
  destruct (String.compare x y) eqn:Hc; try discriminate.
  apply String.compare_eq_iff in Hc. subst y. intros H. f_equal. now apply IH.
Qed.

Lemma configKey_compare_eq (k1 k2 : Manager.configKey) :
  Manager.configKey_compare k1 k2 = Eq -> k1 = k2.
Proof.
  unfold Manager.configKey_compare. destruct k1 as [n1 p1], k2 as [n2 p2].
  cbn [fst snd]. destruct (String.compare n1 n2) eqn:Hc; try discriminate.
  apply String.compare_eq_iff in Hc. subst n2. intros H.
  f_equal. now apply profiles_compare_eq.
Qed.

Lemma emplace_In {A} (k : Manager.configKey) (a : A)
    (m : list (Manager.configKey * A)) (entry : Manager.configKey * A) :
  In entry (Manager.emplace k a m) -> entry = (k, a) \/ In entry m.
Proof.
  induction m as [|[k' a'] m IH]; cbn [Manager.emplace].
  - intros [H|[]]. now left.
  - destruct (Manager.configKey_compare k k').
    + intros H. now right.
    + intros [H|H]; [now left | now right].
    + intros [H|H]; [right; now left|].
      apply IH in H. destruct H as [H|H]; [now left | right; now right].
Qed.

(** [emplace] on a map of configuration entries never removes or
    replaces an entry: every entry of the map is still in it, and the new
    entry has been inserted unless an entry with the same key was there,
    in which case the map is left as it was. *)
Lemma emplace_keeps_entries {A} (k : Manager.configKey) (a : A)
    (m : list (Manager.configKey * A)) :
  (forall entry, In entry m -> In entry (Manager.emplace k a m))
  /\ (In (k, a) (Manager.emplace k a m)
      \/ Manager.emplace k a m = m /\ exists a', In (k, a') m)
  /\ (forall entry, In entry (Manager.emplace k a m) ->
                    entry = (k, a) \/ In entry m).
Proof.
  split; [|split; [|apply emplace_In]].
  - induction m as [|[k' a'] m IH]; cbn [Manager.emplace]; intros entry Hin.
    + inversion Hin.
    + destruct (Manager.configKey_compare k k').
      * exact Hin.
      * now right.
      * destruct Hin as [H|H]; [now left | right; now apply IH].
  - induction m as [|[k' a'] m IH]; cbn [Manager.emplace].
    + left. now left.
    + destruct (Manager.configKey_compare k k') eqn:Hc.
      * apply configKey_compare_eq in Hc. subst k'.
        right. split; [reflexivity|]. exists a'. now left.
      * left. now left.
      * destruct IH as [H | [Heq [a'' H]]].
        -- left. now right.
        -- right. split; [now rewrite Heq|]. exists a''. now right.
Qed.

Lemma emplaceProfiles_profiles {Event} (entries : list (result Manager.Profile)) :
  forall (m m' : Manager.t Event),
    Manager.emplaceProfiles entries m = (m', Ok tt) ->
    forall k p,
      In (k, p) (Manager._profiles m') ->
      In (k, p) (Manager._profiles m)
      \/ k = (Manager.profile_name p, Manager.profile_profiles p)
         /\ In (Ok p) entries.
Proof.
  induction entries as [|entry rest IH]; intros m m' H k p Hin;
    cbn [Manager.emplaceProfiles] in H.
  - inversion H; subst. now left.
  - unM. destruct entry as [obj|e]; [|discriminate].
    destruct (IH _ _ H k p Hin) as [Hold | [Hk Hnew]].
    + cbn [Manager._profiles Manager.set_profiles] in Hold.
      apply emplace_In in Hold. destruct Hold as [Heq | Hold]; [|now left].
      inversion Heq; subst. right. split; [reflexivity | now left].
    + right. split; [exact Hk | now right].
Qed.

Lemma activeProfiles_foldl (profiles : list (Manager.configKey * Manager.Profile)) :
  forall (active : list string) (name : string),
    In name
      (foldl (fun active (profile : Manager.configKey * Manager.Profile) =>
                if Manager.profile_active profile.2 then active ++ [profile.1.1]
                else active)
         active profiles)
    <-> In name active
        \/ exists k p, In (k, p) profiles /\ k.1 = name
                       /\ Manager.profile_active p = true.
Proof.
  induction profiles as [|[k p] rest IH]; intros active name; cbn [foldl fst snd].
  - split; [auto|]. intros [H | (k & p & [] & _)]. exact H.
  - rewrite IH. destruct (Manager.profile_active p) eqn:Hp.
    + rewrite in_app_iff. split.
      * intros [[H | [H|[]]] | (k' & p' & Hin & Hrest)].
        -- now left.
        -- right. exists k, p. split; [now left | auto].
        -- right. exists k', p'. split; [now right | exact Hrest].
      * intros [H | (k' & p' & [Heq | Hin] & Hname & Hact)].
        -- left. now left.
        -- inversion Heq; subst. left. right. now left.
        -- right. exists k', p'. auto.
    + split.
      * intros [H | (k' & p' & Hin & Hrest)]; [now left|].
        right. exists k', p'. split; [now right | exact Hrest].
      * intros [H | (k' & p' & [Heq | Hin] & Hname & Hact)]; [now left | |].
        -- inversion Heq; subst. congruence.
        -- right. exists k', p'. auto.
Qed.

(** X16.  When [setProfiles] returns, every profile the manager holds was
    built from an entry of the profiles file now read and is kept under
    its own name and profiles (none when no file was found); and the
    active profiles are exactly the names of the profiles held that are
    active. *)
Theorem X16_setProfiles {Event} (env : Manager.LoadEnv Event)
    (m m' : Manager.t Event) :
  Manager.setProfiles env m = (m', Ok tt) ->
  (forall k p,
      In (k, p) (Manager._profiles m') ->
      k = (Manager.profile_name p, Manager.profile_profiles p)
      /\ exists confFile entries,
           Manager.profilesConfFile env = Ok confFile
           /\ confFile <> ""
           /\ Manager.profilesConf env confFile = Ok entries
           /\ In (Ok p) entries)
  /\ (forall name,
        In name (Manager._activeProfiles m')
        <-> exists p, In ((name, Manager.profile_profiles p), p) (Manager._profiles m')
                      /\ Manager.profile_active p = true).
Proof.
  unfold Manager.setProfiles. unM.
  destruct (Manager.profilesConfFile env) as [confFile|e] eqn:Hfile; [|discriminate].
  set (body := if String.eqb confFile "" then _ else _).
  destruct (body (Manager.set_profiles [] m)) as [m1 [[]|e]] eqn:Hbody;
    [|discriminate].
  intros H. inversion H; subst m'. clear H.
  cbn [Manager._profiles Manager._activeProfiles Manager.set_activeProfiles].
  assert (Hprofiles : forall k p,
             In (k, p) (Manager._profiles m1) ->
             k = (Manager.profile_name p, Manager.profile_profiles p)
             /\ exists file entries,
                  Ok confFile = Ok file
                  /\ file <> ""
                  /\ Manager.profilesConf env file = Ok entries
                  /\ In (Ok p) entries).
  { unfold body in Hbody. destruct (String.eqb confFile "") eqn:Hempty.
    - inversion Hbody; subst m1. intros k p [].
    - apply String.eqb_neq in Hempty.
      destruct (Manager.profilesConf env confFile) as [entries|e] eqn:Hconf;
        [|discriminate].
      intros k p Hin.
      destruct (emplaceProfiles_profiles entries _ _ Hbody k p Hin)
        as [[] | [Hk Hnew]].
      split; [exact Hk|]. exists confFile, entries. auto. }
  split; [exact Hprofiles|].
  intros name. rewrite activeProfiles_foldl. split.
  - intros [[] | (k & p & Hin & Hname & Hact)].
    destruct (Hprofiles k p Hin) as [Hk _]. subst k. cbn [fst] in Hname. subst name.
    exists p. auto.
  - intros (p & Hin & Hact). right. exists (name, Manager.profile_profiles p), p.
    auto.
Qed.

Lemma X16_setProfiles_witness :
  let m' := (Manager.setProfiles Samples.profiles_env Samples.live_manager).1 in
  Manager.setProfiles Samples.profiles_env Samples.live_manager = (m', Ok tt)
  /\ Manager._activeProfiles m' = ["everest"]
  /\ (In "everest" (Manager._activeProfiles m')
      <-> exists p, In (("everest", Manager.profile_profiles p), p)
                      (Manager._profiles m')
                    /\ Manager.profile_active p = true).
Proof.
  cbv zeta.
  assert (H : Manager.setProfiles Samples.profiles_env Samples.live_manager
              = ((Manager.setProfiles Samples.profiles_env Samples.live_manager).1,
                 Ok tt))
    by (vm_compute; reflexivity).
  refine (conj H (conj _ _)); [vm_compute; reflexivity|].
  exact (proj2 (X16_setProfiles Samples.profiles_env Samples.live_manager _ H)
           "everest").
Defined.

Lemma moveFan_keys (activeProfs : list string) (fan : Manager.configKey * Zone.Fan)
    (zones : list (Manager.configKey * Zone.t)) :
  map fst (Manager.moveFan activeProfs fan zones) = map fst zones.
Proof.
  induction zones as [|zone rest IH]; cbn [Manager.moveFan map]; [reflexivity|].
  destruct (Manager.inConfig _ _ _); cbn [map fst]; [reflexivity | now rewrite IH].
Qed.

Lemma enableAll_Ok {A} (enable : A -> result A)
    (c : list (Manager.configKey * A)) :
  forall c', Manager.enableAll enable c = (c', Ok tt) -> enabled_from enable c' c.
Proof.
  induction c as [|[k a] rest IH]; intros c'; cbn [Manager.enableAll].
  - intros H. inversion H. constructor.
  - destruct (enable a) as [a'|e] eqn:Ha; [|discriminate].
    destruct (Manager.enableAll enable rest) as [rest' r].
    intros H. inversion H; subst. constructor; [now split | now apply IH].
Qed.

Lemma load_returns {Event} (env : Manager.LoadEnv Event) (m m' : Manager.t Event) :
  Manager._loadAllowed m = true ->
  Manager.load env m = (m', Ok tt) ->
  Manager._loadAllowed m' = false
  /\ Manager._profiles m' = Manager._profiles (Manager.setProfiles env m).1
  /\ Manager._activeProfiles m' = Manager._activeProfiles (Manager.setProfiles env m).1
  /\ exists zones fans events,
       Manager.zonesConf env (Manager._activeProfiles m') = Ok zones
       /\ Manager.fansConf env (Manager._activeProfiles m') = Ok fans
       /\ Manager.eventsConf env
            (foldl (fun zs fan => Manager.moveFan (Manager._activeProfiles m') fan zs)
               zones fans)
          = (Manager.allGroups m', Ok events)
       /\ enabled_from (Manager.zoneEnable env) (Manager._zones m')
            (foldl (fun zs fan => Manager.moveFan (Manager._activeProfiles m') fan zs)
               zones fans)
       /\ enabled_from (Manager.eventEnable env) (Manager._events m') events.
Proof.
  intros Hallowed. unfold Manager.load. unM. rewrite Hallowed.
  destruct (Manager.setProfiles env m) as [mp [[]|e]]; [|discriminate].
  destruct (Manager.zonesConf env (Manager._activeProfiles mp)) as [zones0|e] eqn:Hz;
    [|discriminate].
  destruct (Manager.fansConf env (Manager._activeProfiles mp)) as [fans|e] eqn:Hf;
    [|discriminate].
  cbv zeta.
  set (staged := foldl (fun zs fan => Manager.moveFan (Manager._activeProfiles mp) fan zs)
                   zones0 fans).
  destruct (Manager.eventsConf env staged) as [groups [events|e]] eqn:Hev.
  2:{ destruct (is_runtime_error e); discriminate. }
  cbn [Manager._zones Manager.set_zones Manager.set_allGroups].
  pose proof (enableAll_Ok (Manager.zoneEnable env) staged) as Hzk.
  destruct (Manager.enableAll (Manager.zoneEnable env) staged) as [zs [[]|e]];
    [|discriminate].
  cbn [Manager._events Manager.set_events Manager.set_signals
       Manager.set_timers Manager.set_zones].
  pose proof (enableAll_Ok (Manager.eventEnable env) events) as Hek.
  destruct (Manager.enableAll (Manager.eventEnable env) events) as [es [[]|e]];
    [|discriminate].
  intros H. inversion H; subst m'. clear H.
  cbn [Manager._loadAllowed Manager.set_loadAllowed Manager._activeProfiles
       Manager._profiles
       Manager._zones Manager._events Manager.set_events Manager.set_signals
       Manager.set_timers Manager.set_zones Manager.set_allGroups
       Manager.allGroups fst] in *.
  split; [reflexivity|]. split; [reflexivity|]. split; [reflexivity|].
  exists zones0, fans, events.
  split; [exact Hz|]. split; [exact Hf|]. split; [exact Hev|].
  split; [now apply Hzk | now apply Hek].
Qed.

(** X17.  A [load] that is allowed and returns has moved the new
    configuration into place.  The profiles and the active profiles are
    those [setProfiles] has loaded.  The zones and the fans were read
    under these active profiles; the zones of the manager are, key by key
    and in their order, the zones read after each fan was moved into its
    zone, each one as [Zone::enable] has left it.  The events are, key by
    key and in their order, the events built for these zones, each one as
    [Event::enable] has left it, and the registered groups are those
    registered while the events were built.  Loading is disallowed, so
    that a further [load] changes nothing. *)
Theorem X17_load_returns {Event} (env : Manager.LoadEnv Event)
    (m m' : Manager.t Event) :
  Manager._loadAllowed m = true ->
  Manager.load env m = (m', Ok tt) ->
  Manager._profiles m' = Manager._profiles (Manager.setProfiles env m).1
  /\ Manager._activeProfiles m' = Manager._activeProfiles (Manager.setProfiles env m).1
  /\ (exists zones fans events,
        Manager.zonesConf env (Manager._activeProfiles m') = Ok zones
        /\ Manager.fansConf env (Manager._activeProfiles m') = Ok fans
        /\ Manager.eventsConf env
             (foldl (fun zs fan => Manager.moveFan (Manager._activeProfiles m') fan zs)
                zones fans)
           = (Manager.allGroups m', Ok events)
        /\ enabled_from (Manager.zoneEnable env) (Manager._zones m')
             (foldl (fun zs fan => Manager.moveFan (Manager._activeProfiles m') fan zs)
                zones fans)
        /\ enabled_from (Manager.eventEnable env) (Manager._events m') events)
  /\ Manager._loadAllowed m' = false
  /\ (forall env', Manager.load env' m' = (m', Ok tt)).
Proof.
  intros Hallowed Hload.
  destruct (load_returns env m m' Hallowed Hload) as (Hdis & Hp & Ha & Hconf).
  split; [exact Hp|]. split; [exact Ha|]. split; [exact Hconf|].
  split; [exact Hdis|].
  intros env'. unfold Manager.load. unM. now rewrite Hdis.
Qed.

Lemma X17_load_returns_witness :
  let m := reload_start Samples.live_manager in
  let m' := (Manager.load Samples.profiles_env m).1 in
  Manager.load Samples.profiles_env m = (m', Ok tt)
  /\ Manager._activeProfiles m' = ["everest"]
  /\ map fst (Manager._zones m') = [("A", ["everest"]); ("B", [])]
  /\ (exists zones fans events,
        Manager.zonesConf Samples.profiles_env (Manager._activeProfiles m') = Ok zones
        /\ Manager.fansConf Samples.profiles_env (Manager._activeProfiles m') = Ok fans
        /\ Manager.eventsConf Samples.profiles_env
             (foldl (fun zs fan => Manager.moveFan (Manager._activeProfiles m') fan zs)
                zones fans)
           = (Manager.allGroups m', Ok events)
        /\ enabled_from (Manager.zoneEnable Samples.profiles_env) (Manager._zones m')
             (foldl (fun zs fan => Manager.moveFan (Manager._activeProfiles m') fan zs)
                zones fans)
        /\ enabled_from (Manager.eventEnable Samples.profiles_env)
             (Manager._events m') events)
  /\ Manager._loadAllowed m' = false
  /\ (forall env', Manager.load env' m' = (m', Ok tt)).
Proof.
  cbv zeta.
  assert (H : Manager.load Samples.profiles_env (reload_start Samples.live_manager)
              = ((Manager.load Samples.profiles_env
                    (reload_start Samples.live_manager)).1, Ok tt))
    by (vm_compute; reflexivity).
  refine (conj H (conj _ (conj _ _))); [vm_compute; reflexivity..|].
  exact (proj2 (proj2 (X17_load_returns Samples.profiles_env
                         (reload_start Samples.live_manager) _ eq_refl H))).
Defined.

(** X18.  Whenever [sighupHandler] returns, loading is disallowed: after
    a reload that succeeded as after one that failed with a
    [std::runtime_error], a [load] changes nothing until the next
    SIGHUP. *)
Theorem X18_sighupHandler_disallows_load {Event} (env : Manager.LoadEnv Event)
    (m m' : Manager.t Event) :
  Manager.sighupHandler env m = (m', Ok tt) ->
  Manager._loadAllowed m' = false
  /\ (forall env', Manager.load env' m' = (m', Ok tt)).
Proof.
  rewrite sighupHandler_unfold. intros H.
  assert (Hdis : Manager._loadAllowed m' = false).
  { destruct (Manager.load env (reload_start m)) as [m1 [[]|e]] eqn:Hload.
    - inversion H; subst m1.
      now destruct (load_returns env (reload_start m) m' eq_refl Hload).
    - destruct (is_runtime_error e); [|discriminate].
      inversion H. reflexivity. }
  split; [exact Hdis|].
  intros env'. unfold Manager.load. unM. now rewrite Hdis.
Qed.

Lemma X18_sighupHandler_disallows_load_witness :
  let m' := (Manager.sighupHandler Samples.profiles_env Samples.live_manager).1 in
  Manager.sighupHandler Samples.profiles_env Samples.live_manager = (m', Ok tt)
  /\ Manager._activeProfiles m' = ["everest"]
  /\ Manager._loadAllowed m' = false
  /\ (forall env', Manager.load env' m' = (m', Ok tt)).
Proof.
  cbv zeta.
  assert (H : Manager.sighupHandler Samples.profiles_env Samples.live_manager
              = ((Manager.sighupHandler Samples.profiles_env Samples.live_manager).1,
                 Ok tt))
    by (vm_compute; reflexivity).
  refine (conj H (conj _ _)); [vm_compute; reflexivity|].
  exact (X18_sighupHandler_disallows_load Samples.profiles_env _ _ H).
Defined.

Lemma moveFan_first (activeProfs : list string) (fan : Manager.configKey * Zone.Fan)
    (before : list (Manager.configKey * Zone.t)) (zone : Manager.configKey * Zone.t)
    (after : list (Manager.configKey * Zone.t)) :
  (forall z, In z before ->
             Manager.inConfig activeProfs (Zone.fan_zone fan.2, fan.1.2) z.1 = false) ->
  Manager.inConfig activeProfs (Zone.fan_zone fan.2, fan.1.2) zone.1 = true ->
  Manager.moveFan activeProfs fan (before ++ zone :: after)
  = before
    ++ (zone.1,
        Zone.addFan fan.2
          (if negb (Zone.getTarget zone.2 =? Zone.fan_target fan.2)
              && negb (Zone.fan_target fan.2 =? 0)
           then Zone.setTarget (Zone.fan_target fan.2) zone.2
           else zone.2))
    :: after.
Proof.
  intros Hbefore Hzone.
  induction before as [|z before IH]; cbn [app Manager.moveFan].
  - now rewrite Hzone.
  - rewrite (Hbefore z) by now left. f_equal. apply IH.
    intros z' Hz'. apply Hbefore. now right.
Qed.

(** X19.  [load] gives a fan to the first zone, in the order of the map
    of zones, whose key is compatible with the zone the fan names and the
    profiles of the fan, and to no other; with no such zone the fan is
    dropped and the zones are as they were.  The zone that receives the
    fan keeps its key and its place, has the fan appended to its fans, and
    takes the target of the fan unless that target is zero. *)
Theorem X19_moveFan (activeProfs : list string) (fan : Manager.configKey * Zone.Fan)
    (zones : list (Manager.configKey * Zone.t)) :
  let compatible (zone : Manager.configKey * Zone.t) :=
    Manager.inConfig activeProfs (Zone.fan_zone fan.2, fan.1.2) zone.1 in
  map fst (Manager.moveFan activeProfs fan zones) = map fst zones
  /\ ((forall zone, In zone zones -> compatible zone = false) ->
      Manager.moveFan activeProfs fan zones = zones)
  /\ (forall before zone after,
        zones = before ++ zone :: after ->
        (forall z, In z before -> compatible z = false) ->
        compatible zone = true ->
        exists zone' fans',
          Manager.moveFan activeProfs fan zones = before ++ (zone.1, zone') :: after
          /\ Zone._fans zone' = fans' ++ [fan.2]
          /\ map Zone.fan_name fans' = map Zone.fan_name (Zone._fans zone.2)
          /\ Zone._target zone'
             = (if Zone.fan_target fan.2 =? 0 then Zone._target zone.2
                else Zone.fan_target fan.2)).
Proof.
  cbv zeta. split; [apply moveFan_keys|]. split.
  - induction zones as [|zone rest IH]; intros Hnone; cbn [Manager.moveFan];
      [reflexivity|].
    rewrite (Hnone zone) by now left. f_equal. apply IH.
    intros z Hz. apply Hnone. now right.
  - intros before zone after -> Hbefore Hzone.
    rewrite (moveFan_first _ _ _ _ _ Hbefore Hzone).
    unfold Zone.getTarget.
    destruct (Zone._target zone.2 =? Zone.fan_target fan.2) eqn:Heq;
      destruct (Zone.fan_target fan.2 =? 0) eqn:Hzero; cbn [negb andb];
      eexists; eexists; (split; [reflexivity|]).
    + repeat split.
    + apply Z.eqb_eq in Heq. repeat split. exact Heq.
    + repeat split.
    + cbn [Zone.addFan Zone.setTarget Zone._fans Zone.set_fans Zone.set_target
           Zone._target]. split; [reflexivity|]. split; [|reflexivity].
      rewrite map_map. reflexivity.
Qed.

Lemma X19_moveFan_witness :
  let fan := (("fan0", []), Zone.mkFan "fan0" "B" 180) in
  let zones := [(("A", []), Samples.zone_A); (("B", []), Samples.zone_B)] in
  exists zone' fans',
    Manager.moveFan [] fan zones = [(("A", []), Samples.zone_A); (("B", []), zone')]
    /\ Zone._fans zone' = fans' ++ [fan.2]
    /\ map Zone.fan_name fans' = map Zone.fan_name (Zone._fans Samples.zone_B)
    /\ Zone._target zone' = 180.
Proof.
  cbv zeta.
  refine (proj2 (proj2 (X19_moveFan [] (("fan0", []), Zone.mkFan "fan0" "B" 180)
                          [(("A", []), Samples.zone_A); (("B", []), Samples.zone_B)]))
            [(("A", []), Samples.zone_A)] (("B", []), Samples.zone_B) [] eq_refl _ _).
  - intros z [<-|[]]. reflexivity.
  - reflexivity.
Defined.

(* --------------------------------------------------------------------- *)
(** *** Fan monitor: tach readings *)

Lemma u64_small (z : Z) : 0 <= z < 2 ^ 64 -> u64 z = z.
Proof. intros H. unfold u64, u64_modulus. now apply Z.mod_small. Qed.

Lemma u64_negative (z : Z) : - 2 ^ 63 <= z < 0 -> u64 z = z + 2 ^ 64.
Proof.
  intros H. unfold u64, u64_modulus.
  symmetry. apply (Z.mod_unique_pos z (2 ^ 64) (-1) (z + 2 ^ 64)); lia.
Qed.

(** X20.  With a deviation between 0 and 100 percent and a target that
    does not overflow when taken 200 times: a reading that is not negative
    is out of range exactly when it is below [target * (100 - deviation) /
    100] or above [target * (100 + deviation) / 100]; a reading equal to
    the target is never out of range; and a negative reading, cast to
    [uint64_t], is always out of range. *)
Theorem X20_outOfRange (fan : Monitor.Fan) (sensor : Monitor.TachSensor) :
  0 <= Monitor._deviation fan <= 100 ->
  0 <= Monitor.sensor_target sensor ->
  Monitor.sensor_target sensor * 200 < 2 ^ 64 ->
  let input := Monitor.sensor_input sensor in
  let target := Monitor.sensor_target sensor in
  let deviation := Monitor._deviation fan in
  (0 <= input < 2 ^ 63 ->
   (Monitor.outOfRange fan sensor = true
    <-> input < target * (100 - deviation) / 100
        \/ target * (100 + deviation) / 100 < input))
  /\ (input = target -> Monitor.outOfRange fan sensor = false)
  /\ (- 2 ^ 63 <= input < 0 -> Monitor.outOfRange fan sensor = true).
Proof.
  intros Hdev Htarget Hbound. cbv zeta.
  set (input := Monitor.sensor_input sensor).
  set (target := Monitor.sensor_target sensor) in *.
  set (deviation := Monitor._deviation fan) in *.
  assert (Hlow : 0 <= target * (100 - deviation) <= target * 100) by nia.
  assert (Hhigh : target * 100 <= target * (100 + deviation) <= target * 200) by nia.
  assert (Hmin : u64 (target * u64 (100 - deviation)) / 100
                 = target * (100 - deviation) / 100).
  { rewrite (u64_small (100 - deviation)) by lia. now rewrite u64_small by lia. }
  assert (Hmax : u64 (target * u64 (100 + deviation)) / 100
                 = target * (100 + deviation) / 100).
  { rewrite (u64_small (100 + deviation)) by lia. now rewrite u64_small by lia. }
  assert (Hmin_le : target * (100 - deviation) / 100 <= target).
  { apply Z.div_le_upper_bound; lia. }
  assert (Hmax_ge : target <= target * (100 + deviation) / 100).
  { apply Z.div_le_lower_bound; lia. }
  assert (Hmax_le : target * (100 + deviation) / 100 <= target * 2).
  { apply Z.div_le_upper_bound; lia. }
  unfold Monitor.outOfRange. cbv zeta. fold input target deviation.
  rewrite Hmin, Hmax.
  split; [|split].
  - intros Hin. rewrite (u64_small input) by lia.
    rewrite orb_true_iff, !Z.ltb_lt. reflexivity.
  - intros Heq. rewrite Heq, (u64_small target) by lia.
    apply orb_false_iff. split; apply Z.ltb_ge; assumption.
  - intros Hneg. rewrite (u64_negative input) by exact Hneg.
    apply orb_true_iff. right. apply Z.ltb_lt. lia.
Qed.

Lemma X20_outOfRange_witness :
  let fan := Samples.s5_fan in
  let slow := Monitor.mkTachSensor "fan0_0" true true 6000 8000 false in
  let stalled := Monitor.mkTachSensor "fan0_0" true true (-1) 8000 false in
  Monitor.outOfRange fan slow = true
  /\ 6000 < 8000 * (100 - 15) / 100
  /\ Monitor.outOfRange fan stalled = true.
Proof.
  cbv zeta.
  assert (Hdev : 0 <= Monitor._deviation Samples.s5_fan <= 100) by (cbn; lia).
  assert (Hslow : 6000 < 8000 * (100 - 15) / 100) by (vm_compute; reflexivity).
  refine (conj _ (conj Hslow _)).
  - apply (proj1 (X20_outOfRange Samples.s5_fan
                    (Monitor.mkTachSensor "fan0_0" true true 6000 8000 false)
                    Hdev ltac:(cbn; lia) ltac:(cbn; lia))).
    + cbn. lia.
    + left. exact Hslow.
  - apply (proj2 (proj2 (X20_outOfRange Samples.s5_fan
                           (Monitor.mkTachSensor "fan0_0" true true (-1) 8000 false)
                           Hdev ltac:(cbn; lia) ltac:(cbn; lia)))).
    cbn. lia.
Defined.

Lemma count_if_alter_same {A} (p : A -> bool) (f : A -> A) (i : nat) (l : list A) :
  (forall x, p (f x) = p x) ->
  Monitor.count_if p (alter f i l) = Monitor.count_if p l.
Proof.
  intros Hf. revert i. induction l as [|x l IH]; intros [|i]; cbn; try reflexivity.
  - now rewrite Hf.
  - change (list_alter f i l) with (alter f i l). rewrite IH. reflexivity.
Qed.

Lemma count_if_insert_false {A} (p : A -> bool) (x : A) (i : nat) (l : list A) :
  p x = false ->
  (Monitor.count_if p (<[i := x]> l) <= Monitor.count_if p l)%nat.
Proof.
  intros Hx. revert i. induction l as [|y l IH]; intros [|i];
    try (cbn; lia).
  - change (<[0%nat := x]> (y :: l)) with (x :: l).
    cbn [Monitor.count_if]. rewrite Hx. destruct (p y); lia.
  - change (<[S i := x]> (y :: l)) with (y :: <[i := x]> l).
    cbn [Monitor.count_if]. specialize (IH i). destruct (p y); lia.
Qed.

Ltac tach_cases :=
  repeat split; intros;
  try lia; try contradiction; try discriminate; try reflexivity; auto.

Lemma tachChanged_never_fails (sensor : nat) (trusted is_method_error : bool)
    (fan : Monitor.Fan) :
  let fan' := (Monitor.tachChanged sensor trusted is_method_error fan).1 in
  let responses := (Monitor.tachChanged sensor trusted is_method_error fan).2 in
  (Monitor.numFailed fan' <= Monitor.numFailed fan)%nat
  /\ (Monitor._functional fan = true -> Monitor._functional fan' = true)
  /\ (forall response, In response responses ->
                       Monitor.notify_functional response = true)
  /\ length (Monitor._sensors fan') = length (Monitor._sensors fan)
  /\ (trusted = false -> fan' = fan /\ responses = []).
Proof.
  cbv zeta. unfold Monitor.tachChanged.
  destruct trusted; cbn [negb]; [|tach_cases].
  destruct (Monitor._sensors fan !! sensor) as [s|] eqn:Hs; [|tach_cases].
  cbv zeta.
  destruct (Monitor.outOfRange fan s).
  - destruct (Monitor.sensor_functional s && negb (Monitor.sensor_timerRunning s));
      cbn [fst snd]; unfold Monitor.numFailed;
      cbn [Monitor._sensors Monitor.set_sensors Monitor._functional];
      [|tach_cases].
    rewrite count_if_alter_same by reflexivity. rewrite length_alter.
    tach_cases.
  - set (s2 := if Monitor.sensor_timerRunning s then _ else _).
    assert (Hs2 : negb (Monitor.sensor_functional s2) = false).
    { unfold s2. destruct (Monitor.sensor_timerRunning s);
        destruct (Monitor.sensor_functional s) eqn:Hf; cbn; try rewrite Hf;
        reflexivity. }
    pose proof (count_if_insert_false
                  (fun s => negb (Monitor.sensor_functional s)) s2 sensor
                  (Monitor._sensors fan) Hs2) as Hcount.
    unfold Monitor.updateInventory.
    destruct (negb _ && negb _) eqn:Hcond; [destruct is_method_error|];
      cbn [fst snd]; unfold Monitor.numFailed;
      cbn [Monitor._sensors Monitor.set_sensors Monitor._functional
           Monitor.set_functional Monitor.notify_functional];
      rewrite length_insert; tach_cases;
      match goal with
      | H : In _ [_] |- _ => destruct H as [<-|[]]; reflexivity
      | _ => idtac
      end.
Qed.

(** X21.  A tach reading never makes things worse: after [tachChanged]
    the number of nonfunctional sensors has not grown, a fan that was
    functional is functional still, the only Notify that can be sent is
    one of [Functional = true], and the fan has the sensors it had.  A
    reading of a sensor the trust manager does not trust changes
    nothing. *)
Theorem X21_tachChanged_never_fails (sensor : nat) (trusted is_method_error : bool)
    (fan : Monitor.Fan) :
  let fan' := (Monitor.tachChanged sensor trusted is_method_error fan).1 in
  let responses := (Monitor.tachChanged sensor trusted is_method_error fan).2 in
  (Monitor.numFailed fan' <= Monitor.numFailed fan)%nat
  /\ (Monitor._functional fan = true -> Monitor._functional fan' = true)
  /\ (forall response, In response responses ->
                       Monitor.notify_functional response = true)
  /\ length (Monitor._sensors fan') = length (Monitor._sensors fan)
  /\ (trusted = false -> fan' = fan /\ responses = []).
Proof. apply tachChanged_never_fails. Qed.

(** X22.  A trusted reading of a sensor of the fan.  Out of range: no
    Notify is sent, no functional flag changes, and the timer of the
    sensor runs afterwards exactly when it ran before or the sensor is
    functional.  In range: the sensor is functional afterwards and its
    timer is stopped; with [failed] the number of nonfunctional sensors
    after that, a Notify of [Functional = true] is sent exactly when the
    fan was nonfunctional and [failed] is below the threshold of the fan,
    and the fan is functional afterwards exactly when it was before or
    that Notify was sent and its response is not a method error.  No
    other sensor is touched. *)
Theorem X22_tachChanged_reading (sensor : nat) (is_method_error : bool)
    (fan : Monitor.Fan) (s : Monitor.TachSensor) :
  Monitor._sensors fan !! sensor = Some s ->
  let fan' := (Monitor.tachChanged sensor true is_method_error fan).1 in
  let responses := (Monitor.tachChanged sensor true is_method_error fan).2 in
  let failed := Monitor.numFailed fan' in
  let recovers :=
    negb (Monitor._functional fan)
    && (failed <? Monitor._numSensorFailsForNonFunc fan)%nat in
  (forall other, other <> sensor ->
                 Monitor._sensors fan' !! other = Monitor._sensors fan !! other)
  /\ if Monitor.outOfRange fan s then
       responses = []
       /\ Monitor._functional fan' = Monitor._functional fan
       /\ Monitor._sensors fan' !! sensor
          = Some (Monitor.setTimerRunning
                    (Monitor.sensor_timerRunning s || Monitor.sensor_functional s) s)
     else
       Monitor._sensors fan' !! sensor
         = Some (Monitor.setTimerRunning false (Monitor.setFunctional true s))
       /\ responses
          = (if recovers
             then [Monitor.mkNotify (Monitor._name fan) true is_method_error]
             else [])
       /\ Monitor._functional fan'
          = Monitor._functional fan || (recovers && negb is_method_error).
Proof.
  intros Hs. cbv zeta. unfold Monitor.tachChanged. cbn [negb]. rewrite Hs. cbv zeta.
  assert (Hlt : (sensor < length (Monitor._sensors fan))%nat)
    by (eapply lookup_lt_Some; eauto).
  destruct (Monitor.outOfRange fan s).
  - destruct s as [name functional hasTarget input target running].
    cbn [Monitor.sensor_functional Monitor.sensor_timerRunning].
    destruct functional, running; cbn [andb negb orb fst snd Monitor._sensors
      Monitor.set_sensors Monitor._functional Monitor.setTimerRunning
      Monitor.sensor_name Monitor.sensor_functional Monitor.sensor_hasTarget
      Monitor.sensor_input Monitor.sensor_target Monitor.sensor_timerRunning];
      (split; [intros other Hne; try reflexivity;
               now rewrite list_lookup_alter_ne by congruence|]);
      (split; [reflexivity|]); (split; [reflexivity|]);
      try exact Hs.
    rewrite list_lookup_alter_eq, Hs. reflexivity.
  - set (s2 := if Monitor.sensor_timerRunning s then _ else _).
    assert (Hs2 : s2 = Monitor.setTimerRunning false (Monitor.setFunctional true s)).
    { unfold s2. destruct s as [name functional hasTarget input target running].
      destruct functional, running; reflexivity. }
    rewrite Hs2. clear s2 Hs2.
    unfold Monitor.updateInventory, Monitor.tooManySensorsNonfunctional,
      Monitor.numFailed.
    cbn [Monitor._sensors Monitor.set_sensors Monitor._functional
         Monitor._numSensorFailsForNonFunc Monitor._name].
    set (failed := Monitor.count_if _ _).
    rewrite <- Nat.ltb_antisym.
    destruct (negb (Monitor._functional fan)
              && (failed <? Monitor._numSensorFailsForNonFunc fan)%nat) eqn:Hrec;
      [destruct is_method_error|];
      cbn [fst snd Monitor._sensors Monitor.set_sensors Monitor._functional
           Monitor.set_functional];
      fold failed; rewrite ?Hrec;
      (split; [intros other Hne; now rewrite list_lookup_insert_ne by congruence|]);
      (split; [now apply list_lookup_insert_eq|]);
      (split; [reflexivity|]);
      destruct (Monitor._functional fan); reflexivity.
Qed.

Lemma X22_tachChanged_reading_witness :
  let failed_fan := (Monitor.timerExpired 1 false Samples.s5_fan).1 in
  let reading := Monitor.mkTachSensor "fan0_1" false false 8000 8000 true in
  let fan := Monitor.set_sensors (<[1%nat := reading]> (Monitor._sensors failed_fan))
               failed_fan in
  Monitor._functional fan = false
  /\ Monitor._sensors fan !! 1%nat = Some reading
  /\ Monitor.outOfRange fan reading = false
  /\ Monitor._functional (Monitor.tachChanged 1 true false fan).1 = true.
Proof.
  cbv zeta.
  set (fan := Monitor.set_sensors _ _).
  set (reading := Monitor.mkTachSensor "fan0_1" false false 8000 8000 true).
  assert (Hs : Monitor._sensors fan !! 1%nat = Some reading) by reflexivity.
  assert (Hin : Monitor.outOfRange fan reading = false) by (vm_compute; reflexivity).
  refine (conj eq_refl (conj Hs (conj Hin _))).
  pose proof (proj2 (X22_tachChanged_reading 1 false fan reading Hs)) as H.
  cbv zeta in H. destruct H as (_ & _ & H).
  rewrite H. vm_compute. reflexivity.
Defined.

(* --------------------------------------------------------------------- *)
(** *** Fan monitor: construction and target *)

Lemma tachChanged_all_foldl (trusted is_method_error : nat -> bool)
    (indices : list nat) :
  forall st : Monitor.Fan * list Monitor.Notify,
    let st' :=
      foldl (fun (st : Monitor.Fan * list Monitor.Notify) (i : nat) =>
               let '(fan', responses) :=
                 Monitor.tachChanged i (trusted i) (is_method_error i) st.1 in
               (fan', st.2 ++ responses))
        st indices in
    length (Monitor._sensors st'.1) = length (Monitor._sensors st.1)
    /\ (Monitor.numFailed st'.1 <= Monitor.numFailed st.1)%nat
    /\ (Monitor._functional st.1 = true -> Monitor._functional st'.1 = true)
    /\ ((forall r, In r st.2 -> Monitor.notify_functional r = true) ->
        forall r, In r st'.2 -> Monitor.notify_functional r = true)
    /\ exists responses, st'.2 = st.2 ++ responses.
Proof.
  induction indices as [|i rest IH]; intros st; cbv zeta; cbn [foldl].
  - repeat split; auto. exists []. now rewrite app_nil_r.
  - pose proof (tachChanged_never_fails i (trusted i) (is_method_error i) st.1) as H.
    cbv zeta in H.
    destruct (Monitor.tachChanged i (trusted i) (is_method_error i) st.1)
      as [fan1 responses1]. cbn [fst snd] in H.
    destruct H as (Hn & Hf & Hr & Hl & _).
    specialize (IH (fan1, st.2 ++ responses1)). cbv zeta in IH. cbn [fst snd] in IH.
    destruct IH as (IHl & IHn & IHf & IHr & responses & IHa).
    repeat split.
    + congruence.
    + lia.
    + auto.
    + intros Hst. apply IHr. intros r Hin. apply in_app_iff in Hin.
      destruct Hin; auto.
    + exists (responses1 ++ responses). now rewrite IHa, app_assoc.
Qed.

(** X23.  The constructor of a monitored fan sends a Notify of
    [Functional = true] first, and every Notify it sends is one of
    [Functional = true].  When that first Notify is answered without a
    method error the fan is functional at the end of the constructor,
    whatever its sensors read.  In init mode the fan has no sensor;
    otherwise it has one sensor for each definition whose tach sensor
    could be built, an invalid sensor being left out. *)
Theorem X23_create (mode : Monitor.Mode) (def : Monitor.FanDefinition)
    (uninitialized inventory_error : bool) (trusted is_method_error : nat -> bool) :
  let fan :=
    (Monitor.create mode def uninitialized inventory_error trusted is_method_error).1 in
  let responses :=
    (Monitor.create mode def uninitialized inventory_error trusted is_method_error).2 in
  head responses
    = Some (Monitor.mkNotify (Monitor.fanNameField def) true inventory_error)
  /\ (forall r, In r responses -> Monitor.notify_functional r = true)
  /\ (inventory_error = false -> Monitor._functional fan = true)
  /\ length (Monitor._sensors fan)
     = match mode with
       | Monitor.init => 0%nat
       | Monitor.monitor =>
           length (omap (fun s : option Monitor.TachSensor => s)
                     (Monitor.sensorListField def))
       end.
Proof.
  cbv zeta. unfold Monitor.create, Monitor.updateInventory. cbv zeta.
  cbn [Monitor._name].
  destruct inventory_error; destruct mode; cbn [fst snd head];
    try (repeat split; auto; try discriminate;
         intros r [<-|[]]; reflexivity);
    unfold Monitor.tachChanged_all;
    match goal with
    | |- context [foldl ?f (?fan2, []) ?l] =>
        pose proof (tachChanged_all_foldl trusted is_method_error l (fan2, [])) as H;
        cbv zeta in H; cbn [fst snd] in H;
        destruct (foldl f (fan2, []) l) as [fan3 responses3]
    end;
    cbn [fst snd head app] in *;
    destruct H as (Hl & _ & Hf & Hr & _);
    (split; [reflexivity|]);
    (split; [intros r [<-|Hin]; [reflexivity | apply Hr; [intros ? [] | exact Hin]]|]);
    (split; [try discriminate; intros _; now apply Hf|]);
    rewrite Hl; reflexivity.
Qed.

(** X24.  [findTargetSpeed] is zero when no sensor of the fan has a
    target, and is otherwise the target of the first sensor, in the order
    of the sensors, that has one. *)
Theorem X24_findTargetSpeed (fan : Monitor.Fan) :
  ((forall s, In s (Monitor._sensors fan) -> Monitor.sensor_hasTarget s = false) ->
   Monitor.findTargetSpeed fan = 0)
  /\ (forall before s after,
        Monitor._sensors fan = before ++ s :: after ->
        (forall s', In s' before -> Monitor.sensor_hasTarget s' = false) ->
        Monitor.sensor_hasTarget s = true ->
        Monitor.findTargetSpeed fan = Monitor.sensor_target s).
Proof.
  unfold Monitor.findTargetSpeed. split.
  - intros Hnone.
    destruct (find Monitor.sensor_hasTarget (Monitor._sensors fan)) as [s|] eqn:Hf;
      [|reflexivity].
    apply find_some in Hf. destruct Hf as [Hin Hs].
    rewrite (Hnone s Hin) in Hs. discriminate.
  - intros before s after -> Hbefore Hs.
    induction before as [|s' before IH]; cbn [app find].
    + now rewrite Hs.
    + rewrite (Hbefore s') by now left. apply IH.
      intros s'' Hin. apply Hbefore. now right.
Qed.

Lemma X24_findTargetSpeed_witness :
  Monitor.findTargetSpeed Samples.s5_fan = 8000
  /\ Monitor.findTargetSpeed (Monitor.set_sensors [] Samples.s5_fan) = 0.
Proof.
  split.
  - apply (proj2 (X24_findTargetSpeed Samples.s5_fan) []
             (Monitor.mkTachSensor "fan0_0" false true 6000 8000 false)
             [ Monitor.mkTachSensor "fan0_1" true false 6000 8000 true;
               Monitor.mkTachSensor "fan0_2" true false 8000 8000 false ]
             eq_refl).
    + intros s' [].
    + reflexivity.
  - apply (proj1 (X24_findTargetSpeed (Monitor.set_sensors [] Samples.s5_fan))).
    intros s [].
Defined.

(* --------------------------------------------------------------------- *)
(** *** Fan presence configuration *)

Lemma process_Ok (jsonConf : list Presence.Member) :
  forall _fans fans,
    Presence.process jsonConf _fans = Ok fans
    <-> exists added,
          fans = _fans ++ added /\ Forall2 member_gives jsonConf added.
Proof.
  induction jsonConf as [|member rest IH]; intros _fans fans;
    cbn [Presence.process].
  - split.
    + intros H. inversion H; subst. exists []. rewrite app_nil_r.
      split; [reflexivity | constructor].
    + intros (added & -> & Hall). inversion Hall; subst. now rewrite app_nil_r.
  - unfold member_gives at 1.
    destruct (Presence.member_name member) as [[name|]|] eqn:Hn;
      destruct (Presence.member_path member) as [[path|]|] eqn:Hp;
      cbn [Presence.get_string].
    2-9: split; [discriminate|]; intros (added & _ & Hall);
         inversion Hall as [|? ? ? ? [H1 H2]]; subst; congruence.
    rewrite IH. split.
    + intros (added & -> & Hall). exists ((name, path) :: added).
      split; [now rewrite <- app_assoc|].
      constructor; [split; assumption | exact Hall].
    + intros (added & -> & Hall).
      inversion Hall as [|? [n p] ? added' [H1 H2] Hrest]; subst.
      cbn [fst snd] in *. exists added'.
      split; [|exact Hrest]. rewrite <- app_assoc.
      replace n with name by congruence. replace p with path by congruence.
      reflexivity.
Qed.

Lemma process_done (done : list Presence.Member) :
  forall (added : list (string * string)) rest _fans,
    Forall2 member_gives done added ->
    Presence.process (done ++ rest) _fans = Presence.process rest (_fans ++ added).
Proof.
  induction done as [|member done IH]; intros added rest _fans Hall;
    inversion Hall as [|? [name path] ? added' [Hn Hp] Hrest]; subst.
  - now rewrite app_nil_r.
  - cbn [app Presence.process fst snd] in *. rewrite Hn, Hp.
    cbn [Presence.get_string]. rewrite (IH added' rest _ Hrest).
    now rewrite <- app_assoc.
Qed.

(** X25.  The constructor of the presence configuration returns exactly
    when the file exists, parses, and every member of it has a name and a
    path that are both strings; the fans of the object are then the names
    and paths of the members, one per member and in their order.  A file
    that is missing or does not parse makes it throw a
    [std::runtime_error], and so does the first member that gives no fan
    when it lacks its name or its path; when that member has both and one
    of them is not a string, what leaves the constructor is the type
    error of the JSON library, which is not a [std::runtime_error]. *)
Theorem X25_JsonConfig :
  (forall confFile fans,
      Presence.JsonConfig confFile = Ok fans
      <-> exists jsonConf,
            confFile = Presence.parsed jsonConf
            /\ Forall2 member_gives jsonConf fans)
  /\ (exists what, Presence.JsonConfig Presence.absent = Throw (runtime_error what))
  /\ (exists what, Presence.JsonConfig Presence.unparsable = Throw (runtime_error what))
  /\ (forall done added member rest,
        Forall2 member_gives done added ->
        (forall fan, ~ member_gives member fan) ->
        exists what,
          Presence.JsonConfig (Presence.parsed (done ++ member :: rest))
          = Throw (match Presence.member_name member, Presence.member_path member with
                   | Some _, Some _ => other_exception what
                   | _, _ => runtime_error what
                   end)).
Proof.
  split; [|split; [|split]].
  - intros confFile fans.
    destruct confFile as [| |jsonConf]; cbn [Presence.JsonConfig].
    + split; [discriminate | intros (? & H & _); discriminate].
    + split; [discriminate | intros (? & H & _); discriminate].
    + rewrite process_Ok. split.
      * intros (added & -> & Hall). exists jsonConf. auto.
      * intros (jsonConf' & Heq & Hall). inversion Heq; subst jsonConf'.
        exists fans. auto.
  - eexists. reflexivity.
  - eexists. reflexivity.
  - intros done added member rest Hdone Hbad. cbn [Presence.JsonConfig].
    rewrite (process_done done added _ _ Hdone). cbn [Presence.process app].
    destruct (Presence.member_name member) as [[name|]|] eqn:Hn;
      destruct (Presence.member_path member) as [[path|]|] eqn:Hp;
      cbn [Presence.get_string]; try (eexists; reflexivity).
    exfalso. apply (Hbad (name, path)). split; assumption.
Qed.

Lemma X25_JsonConfig_witness :
  let front := Presence.mkMember (Some (Presence.json_string "fan0"))
                 (Some (Presence.json_string "/system/chassis/motherboard/fan0")) in
  let untyped := Presence.mkMember (Some Presence.json_other)
                   (Some (Presence.json_string "/system/chassis/motherboard/fan1")) in
  let unnamed := Presence.mkMember None
                   (Some (Presence.json_string "/system/chassis/motherboard/fan2")) in
  Presence.JsonConfig (Presence.parsed [front])
  = Ok [("fan0", "/system/chassis/motherboard/fan0")]
  /\ (exists what,
        Presence.JsonConfig (Presence.parsed [front; untyped; unnamed])
        = Throw (other_exception what))
  /\ (exists what,
        Presence.JsonConfig (Presence.parsed [front; unnamed; untyped])
        = Throw (runtime_error what)).
Proof.
  cbv zeta.
  pose proof X25_JsonConfig as (Hok & _ & _ & Hbad).
  assert (Hfront : Forall2 member_gives
                     [Presence.mkMember (Some (Presence.json_string "fan0"))
                        (Some (Presence.json_string "/system/chassis/motherboard/fan0"))]
                     [("fan0", "/system/chassis/motherboard/fan0")])
    by (repeat constructor).
  split; [|split].
  - apply Hok. eexists. split; [reflexivity | exact Hfront].
  - refine (Hbad _ _ (Presence.mkMember (Some Presence.json_other) _) [_] Hfront _).
    intros fan [H _]. discriminate.
  - refine (Hbad _ _ (Presence.mkMember None _) [_] Hfront _).
    intros fan [H _]. discriminate.
Defined.

(* --------------------------------------------------------------------- *)
(** *** Manager: signals *)

(** X26.  When rewinding gives back the message as it was before a
    handler read it, every handler of the packages of a signal is given
    the message from its start, whatever the handlers before it have read:
    the state [handleSignal] ends in is the one reached by running, for
    each package in turn, its handler on the message as received and then
    its actions if and only if the handler reported an update. *)
Theorem X26_handleSignal {Message State} (rewind : Message -> Message)
    (pkgs : list (Manager.SignalPkg Message State)) (msg : Message) (st : State) :
  (forall pkg m st', In pkg pkgs ->
                     rewind (Manager.signalHandler pkg m st').1.1 = rewind m) ->
  rewind msg = msg ->
  (Manager.handleSignal rewind pkgs msg st).2 = foldl (handlePkg msg) st pkgs.
Proof.
  intros Hrewind Hstart. revert st.
  induction pkgs as [|pkg rest IH]; intros st; cbn [Manager.handleSignal foldl];
    [reflexivity|].
  unfold handlePkg at 2.
  pose proof (Hrewind pkg msg st (or_introl eq_refl)) as Hr.
  destruct (Manager.signalHandler pkg msg st) as [[msg1 st1] updated].
  cbn [fst snd] in Hr.
  destruct rest as [|pkg' rest']; [reflexivity|].
  rewrite Hr, Hstart. apply IH.
  intros p m st' Hin. apply Hrewind. now right.
Qed.

Lemma X26_handleSignal_witness :
  (Manager.handleSignal (fun _ => 0%nat) [Samples.first_pkg; Samples.second_pkg]
     0%nat []).2
  = [("handler 1", 0%nat); ("handler 2", 0%nat); ("action 2", 0%nat)].
Proof.
  rewrite (X26_handleSignal (fun _ => 0%nat)
             [Samples.first_pkg; Samples.second_pkg] 0%nat []
             (fun _ _ _ _ => eq_refl) eq_refl).
  reflexivity.
Defined.

(* --------------------------------------------------------------------- *)
(** *** Zone: handlers of the configured interfaces *)

Lemma setProperties_handlers (properties : list Zone.PropertyJson) :
  forall z z',
    Zone.setProperties
      [(Zone.currentProp, Zone.current); (Zone.supportedProp, Zone.supported)]
      properties z = Ok z' ->
    Zone._zoneHandlers z'
    = Zone._zoneHandlers z ++ flat_map property_handlers properties.
Proof.
  induction properties as [|property rest IH]; intros z z' H;
    cbn [Zone.setProperties flat_map] in *.
  - inversion H. now rewrite app_nil_r.
  - unfold property_handlers at 1. cbv zeta.
    destruct (Zone.pj_name property) as [name|]; [|discriminate].
    cbn [Zone.find_key] in H.
    destruct (String.eqb name Zone.currentProp).
    + unfold Zone.current in H.
      destruct (Zone.pj_value property) as [value|]; apply IH in H; rewrite H;
        cbn [Zone._zoneHandlers Zone.set_zoneHandlers app];
        [now rewrite <- app_assoc | reflexivity].
    + destruct (String.eqb name Zone.supportedProp); [|discriminate].
      unfold Zone.supported in H. cbv zeta in H. apply IH in H. rewrite H.
      cbn [Zone._zoneHandlers Zone.set_zoneHandlers]. rewrite <- app_assoc.
      cbn [app]. destruct (Zone.pj_values property); reflexivity.
Qed.

Lemma setInterfaces_handlers (interfaces : list Zone.InterfaceJson) :
  forall z z',
    Zone.setInterfaces interfaces z = Ok z' ->
    Zone._zoneHandlers z'
    = Zone._zoneHandlers z ++ flat_map interface_handlers interfaces.
Proof.
  induction interfaces as [|interface rest IH]; intros z z' H;
    cbn [Zone.setInterfaces flat_map] in *.
  - inversion H. now rewrite app_nil_r.
  - unfold interface_handlers at 1.
    destruct (Zone.ij_name interface) as [name|]; [|discriminate].
    destruct (Zone.ij_properties interface) as [properties|]; [|discriminate].
    unfold Zone._intfPropHandlers in H. cbn [Zone.find_key] in H.
    destruct (String.eqb name Zone.thermModeIntf); [|discriminate].
    destruct (Zone.setProperties _ properties z) as [z1|e] eqn:Hp; [|discriminate].
    apply setProperties_handlers in Hp. apply IH in H. rewrite H, Hp.
    cbn [default from_option id]. now rewrite <- app_assoc.
Qed.

(** X27.  The handlers of a zone the constructor returns are, in the
    order of the configuration, one for each [Supported] property,
    holding the values that are given, and one for each [Current]
    property that has a value; a [Current] property without a value gives
    no handler, and a handler persists only when the property says so. *)
Theorem X27_create_handlers (jsonObj : Zone.ZoneJson) (z : Zone.t) :
  Zone.create jsonObj = Ok z ->
  Zone._zoneHandlers z
  = flat_map interface_handlers (default [] (Zone.j_interfaces jsonObj)).
Proof.
  unfold Zone.create, Zone.setFullSpeed, Zone.setDefaultFloor, Zone.setDecInterval.
  destruct (Zone.j_full_speed jsonObj) as [fs|]; [|discriminate].
  destruct (Zone.j_default_floor jsonObj) as [df|]; [|discriminate].
  destruct (Zone.j_decrease_interval jsonObj) as [di|]; [|discriminate].
  cbn [Zone.bind].
  destruct (Zone.j_interfaces jsonObj) as [interfaces|]; intros H.
  - apply setInterfaces_handlers in H. exact H.
  - inversion H. reflexivity.
Qed.

Lemma X27_create_handlers_witness :
  exists z, Zone.create Samples.thermal_json = Ok z
            /\ Zone._zoneHandlers z
               = [Zone.setSupported ["DEFAULT"; "CUSTOM"] false;
                  Zone.setCurrent "default" true].
Proof.
  eexists. split; [reflexivity|].
  rewrite (X27_create_handlers Samples.thermal_json _ eq_refl). reflexivity.
Defined.
